(** * promql-engine: selector operators and the distributed planner

    A shallow embedding of
      - [logicalplan/distribute.go]   (the distributed-execution optimizer),
      - [physicalplan/scan/vector_selector.go] (the vector selector), and
      - the matrix selector of package [scan] ([selectPoints],
        [matrixSelector.Next], [matrixSelector.loadSeries]),
    followed by the properties established about them.

    Conventions.
      - Go [int64] values are integers of [Z]; every arithmetic operation
        of the source goes through [Int64.add], [Int64.sub], [Int64.mul]
        or [Int64.quot], which write out the two's-complement wrap-around
        (and the run-time panic of a division by zero).
      - [time.Time] and [time.Duration] values only occur through
        [UnixMilli()] and [Milliseconds()]; they are represented by that
        millisecond reading.
      - A [float64] is represented by its IEEE-754 bit pattern
        ([math.Float64bits]); the selectors only copy sample values and
        test them with [value.IsStaleNaN], which is a comparison of bit
        patterns. *)

From Stdlib Require Import ZArith Lia List String Ascii Bool Sorted.
From stdpp Require Import gmap strings sorting.
Import ListNotations.

Set Warnings "-register-all".
Local Open Scope Z_scope.

(** ** 64-bit signed integers *)

Module Int64.

Definition min_int64 : Z := - 2 ^ 63.
Definition max_int64 : Z := 2 ^ 63 - 1.

Definition in_range (z : Z) : Prop := min_int64 <= z <= max_int64.

(** Two's-complement reduction of a mathematical integer to [int64]. *)
Definition wrap (z : Z) : Z := (z + 2 ^ 63) mod 2 ^ 64 - 2 ^ 63.

Definition add (a b : Z) : Z := wrap (a + b).
Definition sub (a b : Z) : Z := wrap (a - b).
Definition mul (a b : Z) : Z := wrap (a * b).

(** Go's [/] on integers truncates towards zero and panics on a zero
    divisor; [None] is the panic. *)
Definition quot (a b : Z) : option Z :=
  if b =? 0 then None else Some (wrap (Z.quot a b)).

End Int64.

(** ** Package [sort] on strings *)

Module GoSort.

(** Byte-wise lexicographic order, the order of [sort.Strings]. *)
Definition string_le (a b : string) : Prop := String.leb a b = true.

#[global] Instance string_le_dec (a b : string) : Decision (string_le a b).
Proof. unfold string_le. solve_decision. Defined.

Definition sortStrings (l : list string) : list string :=
  merge_sort string_le l.

End GoSort.

(** ** The distributed-execution optimizer ([logicalplan/distribute.go]) *)

Module LogicalPlan.

Import GoSort.

Record Label := mkLabel { Name : string; Value : string }.
Definition Labels := list Label.

(** [api.RemoteEngine]: the three methods the planner calls. *)
Record RemoteEngine := mkEngine {
  MinT : Z;
  MaxT : Z;
  LabelSets : list Labels
}.

(** [Opts]: the fields the planner reads, in milliseconds. *)
Record Opts := mkOpts {
  Start : Z;
  End_ : Z;
  Step : Z;
  LookbackDelta : Z
}.

Record RemoteExecution := mkRemoteExecution {
  Engine : RemoteEngine;
  Query : string;
  QueryRangeStart : Z
}.

Definition RemoteExecutions := list RemoteExecution.

Record Deduplicate := mkDeduplicate { Expressions : RemoteExecutions }.

(** [parser.ItemType]: the aggregation operators, and a few binary
    operators for [BinaryExpr]. *)
Inductive ItemType :=
| SUM | MIN | MAX | GROUP | COUNT | BOTTOMK | TOPK
| AVG | STDDEV | STDVAR | COUNT_VALUES | QUANTILE
| ADD | SUB | MUL | DIV | LAND | LOR | LUNLESS.

#[global] Instance ItemType_eq_dec : EqDecision ItemType.
Proof. solve_decision. Defined.

Record PositionRange := mkPositionRange { PosStart : Z; PosEnd : Z }.

(** [parser.Expr] with the two engine-specific nodes of this package. *)
Inductive Expr :=
| AggregateExpr (Op : ItemType) (E : Expr) (Param : option Expr)
    (Grouping : list string) (Without : bool) (PosRange : PositionRange)
| BinaryExpr (Op : ItemType) (LHS RHS : Expr)
| Call (Func : string) (Args : list Expr)
| VectorSelector (Metric : string)
| MatrixSelector (VS : Expr) (Range : Z)
| NumberLiteral (Val : Z)
| StringLiteral (Val : string)
| ParenExpr (E : Expr)
| UnaryExpr (Op : ItemType) (E : Expr)
| RemoteExecutionExpr (r : RemoteExecution)
| DeduplicateExpr (d : Deduplicate).

(** [distributiveAggregations] *)
Definition distributiveAggregations : list ItemType :=
  [SUM; MIN; MAX; GROUP; COUNT; BOTTOMK; TOPK].

(** Whether the type assertion of [current] to an aggregation succeeds. *)
Definition isAggregate (e : Expr) : bool :=
  match e with
  | AggregateExpr _ _ _ _ _ _ => true
  | _ => false
  end.

(** [isDistributive]; [None] is the nil pointer. *)
Definition isDistributive (expr : option Expr) : bool :=
  match expr with
  | None => false
  | Some (BinaryExpr _ _ _) => false
  | Some (AggregateExpr op _ _ _ _ _) =>
      bool_decide (op ∈ distributiveAggregations)
  | Some (Call _ args) => (0 <? Z.of_nat (length args))
  | Some _ => true
  end.

(** [numSteps] *)
Definition numSteps (start end_ step : Z) : option Z :=
  q ← Int64.quot (Int64.sub end_ start) step;
  Some (Int64.add q 1).

(** [calculateStepAlignedStart] *)
Definition calculateStepAlignedStart (engine : RemoteEngine) (opts : Opts)
  : option Z :=
  originalSteps ← numSteps (Start opts) (End_ opts) (Step opts);
  remoteQuerySteps ← numSteps (MinT engine) (End_ opts) (Step opts);
  let stepsToSkip := Int64.sub originalSteps remoteQuerySteps in
  let stepAlignedStartTime :=
    Int64.add (Start opts) (Int64.mul stepsToSkip (Step opts)) in
  Some stepAlignedStartTime.

(** The two [continue] guards of [distributeQuery]. *)
Definition engineSkipped (e : RemoteEngine) (opts : Opts) : bool :=
  (MaxT e <? Int64.sub (Start opts) (LookbackDelta opts))
  || (End_ opts <? MinT e).

(** The update of [groupingSet] for one label of one label set. *)
Definition groupingStep (without : bool) (groupingSet : gset string)
    (lbl : Label) : gset string :=
  if without then groupingSet ∖ {[ Name lbl ]}
  else groupingSet ∪ {[ Name lbl ]}.

Definition remoteGroupingSet (grouping : list string) (without : bool)
    (engines : list RemoteEngine) : gset string :=
  foldl (fun gs engine =>
           foldl (fun gs lbls => foldl (groupingStep without) gs lbls)
                 gs (LabelSets engine))
        (list_to_set grouping) engines.

(** [newRemoteAggregation]: a copy of the root aggregation whose
    grouping is the sorted content of the grouping set. *)
Definition newRemoteAggregation (op : ItemType) (e : Expr)
    (param : option Expr) (grouping : list string) (without : bool)
    (pos : PositionRange) (engines : list RemoteEngine) : Expr :=
  let groupingLabels :=
    sortStrings (elements (remoteGroupingSet grouping without engines)) in
  AggregateExpr op e param groupingLabels without pos.

Section Planner.

(** [parser.Expr.String()], the PromQL printer, is the parser's. *)
Variable exprString : Expr -> string.

(** The loop of [distributeQuery]; [remoteQueries] is the slice built
    by [append]. *)
Fixpoint distributeLoop (expr : Expr) (opts : Opts)
    (engines : list RemoteEngine) (remoteQueries : RemoteExecutions)
  : option RemoteExecutions :=
  match engines with
  | [] => Some remoteQueries
  | e :: rest =>
      if MaxT e <? Int64.sub (Start opts) (LookbackDelta opts) then
        distributeLoop expr opts rest remoteQueries
      else if End_ opts <? MinT e then
        distributeLoop expr opts rest remoteQueries
      else
        start ← (if Start opts <? MinT e
                 then calculateStepAlignedStart e opts
                 else Some (Start opts));
        distributeLoop expr opts rest
          (remoteQueries ++
             [ {| Engine := e; Query := exprString expr;
                  QueryRangeStart := start |} ])
  end.

(** [distributeQuery] *)
Definition distributeQuery (expr : Expr) (engines : list RemoteEngine)
    (opts : Opts) : option Deduplicate :=
  remoteQueries ← distributeLoop expr opts engines [];
  Some {| Expressions := remoteQueries |}.

(** The closure passed to [traverseBottomUp] by [Optimize]: the new
    value of [*current] and the [stop] flag. *)
Definition optimizeVisit (engines : list RemoteEngine) (opts : Opts)
    (parent : option Expr) (current : Expr) : option (Expr * bool) :=
  if negb (isDistributive (Some current)) then Some (current, true)
  else
    match current with
    | AggregateExpr op e param grouping without pos =>
        let localAggregation :=
          if bool_decide (op = COUNT) then SUM else op in
        let remoteAggregation :=
          newRemoteAggregation op e param grouping without pos engines in
        subQueries ← distributeQuery remoteAggregation engines opts;
        Some (AggregateExpr localAggregation (DeduplicateExpr subQueries)
                param grouping without pos, true)
    | _ =>
        if isDistributive parent then Some (current, false)
        else
          d ← distributeQuery current engines opts;
          Some (DeduplicateExpr d, true)
    end.

(** [traverseBottomUp] lives in another file of the package; the
    optimizer is defined over any traversal. The traversal returns the
    rewritten plan and the [stop] flag. *)
Variable traverseBottomUp :
  option Expr -> Expr ->
  (option Expr -> Expr -> option (Expr * bool)) -> option (Expr * bool).

(** [DistributedExecutionOptimizer.Optimize], with [engines] the
    result of [m.Endpoints.Engines()]. *)
Definition Optimize (engines : list RemoteEngine) (plan : Expr)
    (opts : Opts) : option Expr :=
  fst <$> traverseBottomUp None plan (optimizeVisit engines opts).

End Planner.

End LogicalPlan.

(** ** Package [scan]: what the two selectors share *)

Module Scan.

(** Go [error] values. *)
Definition error := string.

Inductive result (A : Type) : Type :=
| Ok (a : A)
| Err (e : error).
Arguments Ok {A} a.
Arguments Err {A} e.

(** [context.Context] as a pull sees it: [ctxErr] is [ctx.Err()], which
    is non-nil exactly when the channel [ctx.Done()] is closed. *)
Record Context := mkContext { ctxErr : option error }.

(** [labels.Labels] *)
Record Label := mkLabel { Name : string; Value : string }.
Definition Labels := list Label.

(** [value.StaleNaN] and [value.IsStaleNaN], on bit patterns. *)
Definition StaleNaN : Z := 0x7ff0000000000002.
Definition IsStaleNaN (v : Z) : bool := v =? StaleNaN.

(** [model.StepVector] *)
Record StepVector := mkStepVector {
  T : Z;
  SampleIDs : list Z;
  Samples : list Z;
  HistogramIDs : list Z;
  Histograms : list Z
}.

(** Modelled from the spec: the step-vector pool of package [model]
    ([GetVectorBatch] returns an empty batch, [GetStepVector T] an empty
    step vector for [T], [SetStepSize] records the expected capacity,
    [AppendSample] and [AppendHistogram] append one entry under the
    series' signature). *)
Record VectorPool := mkVectorPool { stepSize : Z }.

Definition SetStepSize (n : Z) (p : VectorPool) : VectorPool :=
  {| stepSize := n |}.
Definition GetVectorBatch (p : VectorPool) : list StepVector := [].
Definition GetStepVector (p : VectorPool) (t : Z) : StepVector :=
  {| T := t; SampleIDs := []; Samples := [];
     HistogramIDs := []; Histograms := [] |}.
Definition AppendSample (id v : Z) (s : StepVector) : StepVector :=
  {| T := T s; SampleIDs := SampleIDs s ++ [id];
     Samples := Samples s ++ [v];
     HistogramIDs := HistogramIDs s; Histograms := Histograms s |}.
Definition AppendHistogram (id h : Z) (s : StepVector) : StepVector :=
  {| T := T s; SampleIDs := SampleIDs s; Samples := Samples s;
     HistogramIDs := HistogramIDs s ++ [id];
     Histograms := Histograms s ++ [h] |}.
Definition setT (t : Z) (s : StepVector) : StepVector :=
  {| T := t; SampleIDs := SampleIDs s; Samples := Samples s;
     HistogramIDs := HistogramIDs s; Histograms := Histograms s |}.

(** The number of leading elements that satisfy [f]: the value of the
    counter after [for n = 0; n < len(l) && f(l[n]); n++ {}]. *)
Fixpoint countWhile {A : Type} (f : A -> bool) (l : list A) : nat :=
  match l with
  | [] => O
  | x :: r => if f x then S (countWhile f r) else O
  end.

(** *** The vector selector ([vector_selector.go]) *)

Module VectorSelector.

(** A float sample, and [chunkenc.Iterator] over a series held as a
    list: [Next() bool] moves to the next sample if there is one and
    [At()] reads the sample [Next] last moved to. *)
Record Sample := mkSample { sT : Z; sV : Z }.

Record Iterator := mkIterator {
  current : option Sample;
  remaining : list Sample
}.

Definition Iterator_Next (it : Iterator) : Iterator * bool :=
  match remaining it with
  | [] => (it, false)
  | s :: r => ({| current := Some s; remaining := r |}, true)
  end.

Definition Iterator_At (it : Iterator) : Z * Z :=
  match current it with
  | Some s => (sT s, sV s)
  | None => (0, 0)
  end.

Record vectorScanner := mkVectorScanner {
  labels : Labels;
  signature : Z;
  samples : Iterator;
  pastFirstIteration : bool;
  hasPrev : bool;
  prevTime : Z;
  prevValue : Z
}.

(** [vectorScanner.At] *)
Definition At (it : vectorScanner) : Z * Z := Iterator_At (samples it).

(** One turn of the [for] loop of [vectorScanner.Seek]: the scanner
    after the turn, and [Some b] when the turn returns [b]. *)
Definition SeekTurn (ts : Z) (it : vectorScanner)
  : vectorScanner * option bool :=
  let it1 :=
    if pastFirstIteration it then
      let '(t, v) := Iterator_At (samples it) in
      {| labels := labels it; signature := signature it;
         samples := samples it;
         pastFirstIteration := pastFirstIteration it;
         hasPrev := true; prevTime := t; prevValue := v |}
    else it in
  let '(samples', ok) := Iterator_Next (samples it1) in
  if ok then
    let it2 :=
      {| labels := labels it1; signature := signature it1;
         samples := samples';
         pastFirstIteration := true;
         hasPrev := hasPrev it1; prevTime := prevTime it1;
         prevValue := prevValue it1 |} in
    let '(t, _) := Iterator_At samples' in
    if ts <=? t then (it2, Some true) else (it2, None)
  else (it1, Some false).

(** The loop; every turn that does not return consumes a sample, so
    [fuel] = the number of remaining samples is enough
    (lemma [SeekLoop_fuel]). *)
Fixpoint SeekLoop (fuel : nat) (ts : Z) (it : vectorScanner)
  : vectorScanner * bool :=
  match SeekTurn ts it with
  | (it', Some b) => (it', b)
  | (it', None) =>
      match fuel with
      | O => (it', false)
      | S fuel' => SeekLoop fuel' ts it'
      end
  end.

(** [vectorScanner.Seek] *)
Definition Seek (ts : Z) (it : vectorScanner) : vectorScanner * bool :=
  SeekLoop (length (remaining (samples it))) ts it.

(** [vectorScanner.selectPoint] *)
Definition selectPoint (ts lookbackDelta : Z) (it : vectorScanner)
  : vectorScanner * (Z * Z * bool) :=
  let refTime := ts in
  let '(it', ok) := Seek refTime it in
  let '(t, v) := if ok then At it' else (0, 0) in
  let fallback := negb ok || (refTime <? t) in
  let '(t, v, ok) :=
    if fallback then (prevTime it', prevValue it', hasPrev it')
    else (t, v, ok) in
  if fallback && (negb ok || (t <? Int64.sub refTime lookbackDelta))
  then (it', (0, 0, false))
  else if IsStaleNaN v then (it', (0, 0, false))
  else (it', (t, v, true)).

(** What [seriesSelector.getSeries] returns for one series. *)
Record signedSeries := mkSignedSeries {
  ssLabels : Labels;
  ssSignature : Z;
  ssSamples : list Sample
}.

Record vectorSelector := mkVectorSelector {
  storage : Context -> Z -> Z -> result (list signedSeries);
  scanners : list vectorScanner;
  series : list Labels;
  once : bool;
  vectorPool : VectorPool;
  mint : Z;
  maxt : Z;
  step : Z;
  currentStep : Z;
  stepsBatch : Z;
  lookbackDelta : Z;
  shard : Z;
  numShards : Z
}.

(** [NewVectorSelector] *)
Definition NewVectorSelector (pool : VectorPool)
    (selector : Context -> Z -> Z -> result (list signedSeries))
    (mint maxt step lookbackDelta stepsBatch shard numShards : Z)
  : vectorSelector :=
  {| storage := selector; scanners := []; series := []; once := false;
     vectorPool := pool;
     mint := mint; maxt := maxt; step := step; currentStep := mint;
     stepsBatch := stepsBatch; lookbackDelta := lookbackDelta;
     shard := shard; numShards := numShards |}.

Definition newScanner (s : signedSeries) : vectorScanner :=
  {| labels := ssLabels s; signature := ssSignature s;
     samples := {| current := None; remaining := ssSamples s |};
     pastFirstIteration := false; hasPrev := false;
     prevTime := 0; prevValue := 0 |}.

(** [vectorSelector.loadSeries]: [once.Do] runs the body on the first
    call only; [err] is a local of the call. *)
Definition loadSeries (ctx : Context) (o : vectorSelector)
  : vectorSelector * option error :=
  if once o then (o, None)
  else
    match storage o ctx (shard o) (numShards o) with
    | Err loadErr =>
        ({| storage := storage o; scanners := scanners o;
            series := series o; once := true;
            vectorPool := vectorPool o;
            mint := mint o; maxt := maxt o; step := step o;
            currentStep := currentStep o; stepsBatch := stepsBatch o;
            lookbackDelta := lookbackDelta o;
            shard := shard o; numShards := numShards o |},
         Some loadErr)
    | Ok ss =>
        ({| storage := storage o; scanners := map newScanner ss;
            series := map ssLabels ss; once := true;
            vectorPool :=
              SetStepSize (Z.of_nat (length ss)) (vectorPool o);
            mint := mint o; maxt := maxt o; step := step o;
            currentStep := currentStep o; stepsBatch := stepsBatch o;
            lookbackDelta := lookbackDelta o;
            shard := shard o; numShards := numShards o |},
         None)
    end.

(** [vectorSelector.Series] *)
Definition Series (ctx : Context) (o : vectorSelector)
  : vectorSelector * result (list Labels) :=
  match loadSeries ctx o with
  | (o', Some err) => (o', Err err)
  | (o', None) => (o', Ok (series o'))
  end.

(** The inner loop of [Next] for one scanner: [n] turns are left
    ([numSteps - currStep]). *)
Fixpoint stepLoop (pool : VectorPool) (maxt step lookbackDelta : Z)
    (n : nat) (currStep : nat) (seriesTs : Z)
    (sc : vectorScanner) (vectors : list StepVector)
  : vectorScanner * list StepVector :=
  match n with
  | O => (sc, vectors)
  | S n' =>
      if seriesTs <=? maxt then
        let vectors1 :=
          if (length vectors <=? currStep)%nat
          then vectors ++ [GetStepVector pool seriesTs]
          else vectors in
        let '(sc', (_, v, ok)) := selectPoint seriesTs lookbackDelta sc in
        let vectors2 :=
          if ok then alter (AppendSample (signature sc') v) currStep vectors1
          else vectors1 in
        stepLoop pool maxt step lookbackDelta n' (S currStep)
          (Int64.add seriesTs step) sc' vectors2
      else (sc, vectors)
  end.

(** The outer loop of [Next], over [o.scanners]. *)
Fixpoint scannerLoop (pool : VectorPool) (maxt step lookbackDelta : Z)
    (numSteps : nat) (ts : Z)
    (scs : list vectorScanner) (vectors : list StepVector)
  : list vectorScanner * list StepVector :=
  match scs with
  | [] => ([], vectors)
  | sc :: rest =>
      let '(sc', vectors') :=
        stepLoop pool maxt step lookbackDelta numSteps O ts sc vectors in
      let '(rest', vectors'') :=
        scannerLoop pool maxt step lookbackDelta numSteps ts rest vectors' in
      (sc' :: rest', vectors'')
  end.

(** [vectorSelector.Next]. [None] is the nil batch of end-of-stream.
    [math.Min] of the two counts converted to [float64] is their
    minimum as long as [stepsBatch] is at most 2^53 (the conversion is
    monotone and exact up to there). The division cannot panic: it is
    guarded by [o.step != 0]. *)
Definition Next (ctx : Context) (o : vectorSelector)
  : vectorSelector * result (option (list StepVector)) :=
  if maxt o <? currentStep o then (o, Ok None)
  else
    match loadSeries ctx o with
    | (o1, Some err) => (o1, Err err)
    | (o1, None) =>
        let totalSteps :=
          match Int64.quot (Int64.sub (maxt o1) (mint o1)) (step o1) with
          | Some q => Int64.add q 1
          | None => 1
          end in
        let step' := if step o1 =? 0 then 1 else step o1 in
        let numSteps := Z.min (stepsBatch o1) totalSteps in
        let vectors := GetVectorBatch (vectorPool o1) in
        let ts := currentStep o1 in
        let '(scanners', vectors') :=
          scannerLoop (vectorPool o1) (maxt o1) step' (lookbackDelta o1)
            (Z.to_nat numSteps) ts (scanners o1) vectors in
        ({| storage := storage o1; scanners := scanners';
            series := series o1; once := once o1;
            vectorPool := vectorPool o1;
            mint := mint o1; maxt := maxt o1; step := step';
            currentStep :=
              Int64.add (currentStep o1) (Int64.mul step' numSteps);
            stepsBatch := stepsBatch o1;
            lookbackDelta := lookbackDelta o1;
            shard := shard o1; numShards := numShards o1 |},
         Ok (Some vectors'))
    end.

End VectorSelector.

(** [promql.Point]; [H] is the histogram pointer, [None] for nil. *)
Module promql.
Record Point := mkPoint { T : Z; V : Z; H : option Z }.
End promql.

(** Go's [==] on [float64], on bit patterns: no NaN equals anything,
    the two zeros are equal. *)
Definition float64_isNaN (b : Z) : bool :=
  (Z.land b 0x7ff0000000000000 =? 0x7ff0000000000000)
  && negb (Z.land b 0x000fffffffffffff =? 0).
Definition float64_isZero (b : Z) : bool :=
  Z.land b 0x7fffffffffffffff =? 0.
Definition float64_eq (a b : Z) : bool :=
  negb (float64_isNaN a) && negb (float64_isNaN b)
  && ((a =? b) || (float64_isZero a && float64_isZero b)).

#[global] Instance option_Z_eq_dec : EqDecision (option Z).
Proof. solve_decision. Defined.

(** Go's [!=] on [promql.Point] structs. *)
Definition Point_ne (p q : promql.Point) : bool :=
  negb ((promql.T p =? promql.T q)
        && float64_eq (promql.V p) (promql.V q)
        && bool_decide (promql.H p = promql.H q)).

(** *** Prometheus' sample iterators, as the matrix selector uses them *)

Module Storage.

(** [chunkenc.ValueType] *)
Inductive ValueType := ValNone | ValFloat | ValHistogram | ValFloatHistogram.

#[global] Instance ValueType_eq_dec : EqDecision ValueType.
Proof. solve_decision. Defined.

(** A sample of a series. A histogram sample carries the value
    [AtFloatHistogram] reads for it. *)
Inductive SampleValue :=
| FloatValue (v : Z)
| HistogramValue (h : Z)
| FloatHistogramValue (fh : Z).

Record Sample := mkSample { sT : Z; sValue : SampleValue }.

Definition typeOf (s : Sample) : ValueType :=
  match sValue s with
  | FloatValue _ => ValFloat
  | HistogramValue _ => ValHistogram
  | FloatHistogramValue _ => ValFloatHistogram
  end.

(** [chunkenc.Iterator] over a series held as a list. [failure] is the
    error the iterator hits after [remaining], if any; [Err()] shows it
    once the iterator has stopped. *)
Record Iterator := mkIterator {
  current : option Sample;
  remaining : list Sample;
  failure : option error;
  exhausted : bool
}.

Definition Iterator_stop (it : Iterator) : Iterator :=
  {| current := None; remaining := []; failure := failure it;
     exhausted := true |}.

Definition Iterator_Next (it : Iterator) : Iterator * ValueType :=
  match remaining it with
  | [] => (Iterator_stop it, ValNone)
  | s :: r =>
      ({| current := Some s; remaining := r; failure := failure it;
          exhausted := false |}, typeOf s)
  end.

Fixpoint seekRest (t : Z) (l : list Sample) : option Sample * list Sample :=
  match l with
  | [] => (None, [])
  | s :: r => if t <=? sT s then (Some s, r) else seekRest t r
  end.

(** [Seek(t)]: forward to the first sample at or after [t]; nothing
    moves when the current sample already is. *)
Definition Iterator_Seek (t : Z) (it : Iterator) : Iterator * ValueType :=
  let forward :=
    match seekRest t (remaining it) with
    | (Some s, r) =>
        ({| current := Some s; remaining := r; failure := failure it;
            exhausted := false |}, typeOf s)
    | (None, _) => (Iterator_stop it, ValNone)
    end in
  match current it with
  | Some s => if t <=? sT s then (it, typeOf s) else forward
  | None => if exhausted it then (it, ValNone) else forward
  end.

Definition Iterator_AtT (it : Iterator) : Z :=
  match current it with Some s => sT s | None => 0 end.

Definition Iterator_Err (it : Iterator) : option error :=
  if exhausted it then failure it else None.

(** [sampleRing]: the buffered samples, oldest first, and the time
    window [delta] (never negative in this package). *)
Record sampleRing := mkSampleRing { delta : Z; buf : list Sample }.

(** The loop that frees the head of the ring: samples older than
    [tmin] go. *)
Fixpoint dropOld (tmin : Z) (l : list Sample) : list Sample :=
  match l with
  | [] => []
  | s :: r => if sT s <? tmin then dropOld tmin r else l
  end.

Definition ring_reset (r : sampleRing) : sampleRing :=
  {| delta := delta r; buf := [] |}.

Definition ring_add (s : Sample) (r : sampleRing) : sampleRing :=
  {| delta := delta r;
     buf := dropOld (Int64.sub (sT s) (delta r)) (buf r ++ [s]) |}.

Definition ring_reduceDelta (d : Z) (r : sampleRing) : sampleRing * bool :=
  if delta r <? d then (r, false)
  else
    match last (buf r) with
    | None => ({| delta := d; buf := buf r |}, true)
    | Some s =>
        ({| delta := d; buf := dropOld (Int64.sub (sT s) d) (buf r) |},
         true)
    end.

(** [storage.BufferedSeriesIterator] *)
Record BufferedSeriesIterator := mkBuffered {
  it : Iterator;
  ring : sampleRing;
  bdelta : Z;
  lastTime : Z;
  valueType : ValueType
}.

(** [NewBufferIterator], which ends in [Reset]: the first [Next] of
    the wrapped iterator is taken here. *)
Definition NewBufferIterator (i : Iterator) (d : Z) : BufferedSeriesIterator :=
  let '(i', vt) := Iterator_Next i in
  {| it := i'; ring := {| delta := d; buf := [] |}; bdelta := d;
     lastTime := Int64.min_int64; valueType := vt |}.

(** [BufferedSeriesIterator.Next]: the current sample enters the ring,
    then the wrapped iterator moves. *)
Definition Buffered_Next (b : BufferedSeriesIterator)
  : BufferedSeriesIterator * ValueType :=
  match valueType b with
  | ValNone => (b, ValNone)
  | _ =>
      let ring' :=
        match current (it b) with
        | Some s => ring_add s (ring b)
        | None => ring b
        end in
      let '(i', vt) := Iterator_Next (it b) in
      ({| it := i'; ring := ring'; bdelta := bdelta b;
          lastTime := if bool_decide (vt = ValNone) then lastTime b
                      else Iterator_AtT i';
          valueType := vt |}, vt)
  end.

(** The final [for] loop of [Seek]; a turn that does not return has
    consumed a sample of the wrapped iterator. *)
Fixpoint seekLoop (fuel : nat) (t : Z) (b : BufferedSeriesIterator)
  : BufferedSeriesIterator * ValueType :=
  let '(b', vt) := Buffered_Next b in
  if bool_decide (vt = ValNone) || (t <=? lastTime b') then (b', vt)
  else
    match fuel with
    | O => (b', vt)
    | S fuel' => seekLoop fuel' t b'
    end.

(** [BufferedSeriesIterator.Seek] *)
Definition Buffered_Seek (t : Z) (b : BufferedSeriesIterator)
  : BufferedSeriesIterator * ValueType :=
  let t0 := Int64.sub t (delta (ring b)) in
  let jump := negb (bool_decide (valueType b = ValNone))
              && (lastTime b <? t0) in
  let '(i1, vt1) := if jump then Iterator_Seek t0 (it b)
                    else (it b, valueType b) in
  let b1 :=
    {| it := i1;
       ring := if jump then ring_reset (ring b) else ring b;
       bdelta := bdelta b;
       lastTime := if jump && negb (bool_decide (vt1 = ValNone))
                   then Iterator_AtT i1 else lastTime b;
       valueType := vt1 |} in
  if jump && bool_decide (vt1 = ValNone) then (b1, ValNone)
  else if t <=? lastTime b1 then (b1, valueType b1)
  else seekLoop (length (remaining (it b1))) t b1.

(** [ReduceDelta], [Buffer], [Err], [At], [AtFloatHistogram] *)
Definition Buffered_ReduceDelta (d : Z) (b : BufferedSeriesIterator)
  : BufferedSeriesIterator * bool :=
  let '(r, ok) := ring_reduceDelta d (ring b) in
  ({| it := it b; ring := r; bdelta := bdelta b;
      lastTime := lastTime b; valueType := valueType b |}, ok).

Definition Buffered_Buffer (b : BufferedSeriesIterator) : list Sample :=
  buf (ring b).

Definition Buffered_Err (b : BufferedSeriesIterator) : option error :=
  Iterator_Err (it b).

Definition Buffered_At (b : BufferedSeriesIterator) : Z * Z :=
  match current (it b) with
  | Some {| sT := t; sValue := FloatValue v |} => (t, v)
  | Some s => (sT s, 0)
  | None => (0, 0)
  end.

Definition Buffered_AtFloatHistogram (b : BufferedSeriesIterator) : Z * Z :=
  match current (it b) with
  | Some {| sT := t; sValue := HistogramValue h |} => (t, h)
  | Some {| sT := t; sValue := FloatHistogramValue h |} => (t, h)
  | Some s => (sT s, 0)
  | None => (0, 0)
  end.

End Storage.

(** *** The matrix selector *)

Module MatrixSelector.

Import Storage.
Import promql.

(** [function.FunctionArgs] *)
Record FunctionArgs := mkFunctionArgs {
  FLabels : Labels;
  Points : list Point;
  StepTime : Z;
  SelectRange : Z;
  Offset : Z
}.

(** What [SeriesSelector.GetSeries] returns for one series; the
    iterator of [s.Iterator(nil)] starts before [stream]. *)
Record SignedSeries := mkSignedSeries {
  ssLabels : Labels;
  ssSignature : Z;
  ssStream : list Sample;
  ssFailure : option error
}.

Record matrixScanner := mkMatrixScanner {
  labels : Labels;
  signature : Z;
  previousPoints : list Point;
  samples : BufferedSeriesIterator
}.

Record matrixSelector := mkMatrixSelector {
  funcName : string;
  storage : Context -> Z -> Z -> result (list SignedSeries);
  call : FunctionArgs -> Point;
  scanners : list matrixScanner;
  series : list Labels;
  once : bool;
  vectorPool : VectorPool;
  numSteps : Z;
  mint : Z;
  maxt : Z;
  step : Z;
  selectRange : Z;
  offset : Z;
  currentStep : Z;
  shard : Z;
  numShards : Z;
  extLookbackDelta : Z
}.

(** Modelled from the spec: [function.DropMetricName], which removes
    the metric-name label. *)
Definition DropMetricName (lbls : Labels) : Labels :=
  filter (fun l => Name l ≠ "__name__"%string) lbls.

(** [sort.Sort] on [labels.Labels]: by label name (names are unique
    within a label set). *)
Definition sortLabels (lbls : Labels) : Labels :=
  merge_sort (fun a b => GoSort.string_le (Name a) (Name b)) lbls.

Section WithFunctions.

(** [function.IsExtFunction] and [function.InvalidSample.Point] are
    the function package's. *)
Variable IsExtFunction : string -> bool.
Variable InvalidSample : Point.

(** The first part of [selectPoints]: the points of [out] that are
    kept, and the lower bound for the samples to add
    ([drop] cannot run off [out] in the first loop: the last point
    is at or after [mint]). *)
Definition reusePrefix (extRange : bool) (mint extMint : Z)
    (out : list Point) : nat * Z :=
  match last out with
  | Some lastPoint =>
      if negb extRange then
        let drop := countWhile (fun p => T p <? mint) out in
        (drop, Int64.add (T lastPoint) 1)
      else
        let drop := countWhile (fun p => T p <=? mint) out in
        let drop :=
          match drop with
          | S d =>
              match out !! d with
              | Some p => if extMint <=? T p then d else drop
              | None => drop
              end
          | O => drop
          end in
        (drop,
         if mint <=? T lastPoint then Int64.add (T lastPoint) 1
         else mint)
  | None => (O, mint)
  end.

(** [out[len(out)-1] = p] *)
Definition setLast (p : Point) (out : list Point) : list Point :=
  <[ Nat.pred (length out) := p ]> out.

(** One turn of the loop over the back-buffer: [out] and
    [appendedPointBeforeMint] after the turn. *)
Definition bufferTurn (extRange : bool) (mint : Z)
    (st : list Point * bool) (s : Sample) : list Point * bool :=
  let '(out, appendedPointBeforeMint) := st in
  let t := sT s in
  match sValue s with
  | HistogramValue h | FloatHistogramValue h =>
      if mint <=? t
      then (out ++ [ {| T := t; V := 0; H := Some h |} ],
            appendedPointBeforeMint)
      else st
  | FloatValue v =>
      if IsStaleNaN v then st
      else if negb extRange then
        if mint <=? t
        then (out ++ [ {| T := t; V := v; H := None |} ],
              appendedPointBeforeMint)
        else st
      else if (mint <? t) || negb appendedPointBeforeMint then
        (out ++ [ {| T := t; V := v; H := None |} ], true)
      else
        (setLast {| T := t; V := v; H := None |} out,
         appendedPointBeforeMint)
  end.

(** The last part: the sought sample, when it sits at [maxt]. *)
Definition appendSought (maxt : Z) (soughtValueType : ValueType)
    (it : BufferedSeriesIterator) (out : list Point) : list Point :=
  match soughtValueType with
  | ValHistogram | ValFloatHistogram =>
      let '(t, h) := Buffered_AtFloatHistogram it in
      if t =? maxt then out ++ [ {| T := t; V := 0; H := Some h |} ]
      else out
  | ValFloat =>
      let '(t, v) := Buffered_At it in
      if (t =? maxt) && negb (IsStaleNaN v)
      then out ++ [ {| T := t; V := v; H := None |} ]
      else out
  | ValNone => out
  end.

(** [selectPoints]. Besides the result, the iterator after the call
    and the content of the array behind the caller's [out]
    ([copy(out, out[drop:])] moves the kept points to its front). *)
Definition selectPoints (it : BufferedSeriesIterator) (mint maxt : Z)
    (out : list Point) (functionName : string) (extLookbackDelta : Z)
  : BufferedSeriesIterator * list Point * result (list Point) :=
  let extRange := IsExtFunction functionName in
  let extMint := if extRange then Int64.sub mint extLookbackDelta else 0 in
  let overlap :=
    match last out with
    | Some lastPoint => mint <=? T lastPoint
    | None => false
    end in
  let '(drop, mint1) :=
    if overlap then reusePrefix extRange mint extMint out
    else (length out, mint) in
  let backing :=
    if overlap
    then skipn drop out ++ skipn (length out - drop)%nat out
    else out in
  let out1 := skipn drop out in
  let '(it1, soughtValueType) := Buffered_Seek maxt it in
  match soughtValueType, Buffered_Err it1 with
  | ValNone, Some err => (it1, backing, Err err)
  | _, _ =>
      let appendedPointBeforeMint := (0 <? length out1)%nat in
      let '(out2, _) :=
        foldl (bufferTurn extRange mint1)
              (out1, appendedPointBeforeMint) (Buffered_Buffer it1) in
      (it1, backing,
       Ok (appendSought maxt soughtValueType it1 out2))
  end.

(** The body of [once.Do] in [matrixSelector.loadSeries], for one
    series. *)
Definition newScanner (functionName : string)
    (selectRange extLookbackDelta : Z) (s : SignedSeries)
  : matrixScanner :=
  let lbls :=
    if bool_decide (functionName = "last_over_time"%string)
    then ssLabels s else DropMetricName (ssLabels s) in
  let selectRange' :=
    if IsExtFunction functionName
    then Int64.add selectRange extLookbackDelta else selectRange in
  {| labels := sortLabels lbls;
     signature := ssSignature s;
     previousPoints := [];
     samples :=
       NewBufferIterator
         {| current := None; remaining := ssStream s;
            failure := ssFailure s; exhausted := false |}
         selectRange' |}.

Definition setLoaded (o : matrixSelector)
    (scs : list matrixScanner) (lbls : list Labels) (pool : VectorPool)
  : matrixSelector :=
  {| funcName := funcName o; storage := storage o; call := call o;
     scanners := scs; series := lbls; once := true;
     vectorPool := pool; numSteps := numSteps o;
     mint := mint o; maxt := maxt o; step := step o;
     selectRange := selectRange o; offset := offset o;
     currentStep := currentStep o;
     shard := shard o; numShards := numShards o;
     extLookbackDelta := extLookbackDelta o |}.

(** [matrixSelector.loadSeries] *)
Definition loadSeries (ctx : Context) (o : matrixSelector)
  : matrixSelector * option error :=
  if once o then (o, None)
  else
    match storage o ctx (shard o) (numShards o) with
    | Err loadErr =>
        (setLoaded o (scanners o) (series o) (vectorPool o),
         Some loadErr)
    | Ok ss =>
        let scs :=
          map (newScanner (funcName o) (selectRange o)
                 (extLookbackDelta o)) ss in
        (setLoaded o scs (map labels scs)
           (SetStepSize (Z.of_nat (length ss)) (vectorPool o)),
         None)
    end.

(** [matrixSelector.Series] *)
Definition Series (ctx : Context) (o : matrixSelector)
  : matrixSelector * result (list Labels) :=
  match loadSeries ctx o with
  | (o', Some err) => (o', Err err)
  | (o', None) => (o', Ok (series o'))
  end.

(** What the step does to [vectors[currStep]] when the function
    returned a sample. *)
Definition recordResult (sig : Z) (r : Point) (v : StepVector)
  : StepVector :=
  match H r with
  | Some h => AppendHistogram sig h (setT (T r) v)
  | None => AppendSample sig (V r) (setT (T r) v)
  end.

(** The inner loop of [Next] for one scanner; [n] turns are left. *)
Fixpoint stepLoop (o : matrixSelector) (n : nat) (currStep : nat)
    (seriesTs : Z) (sc : matrixScanner) (vectors : list StepVector)
  : matrixScanner * result (list StepVector) :=
  match n with
  | O => (sc, Ok vectors)
  | S n' =>
      if seriesTs <=? maxt o then
        let vectors1 :=
          if (length vectors <=? currStep)%nat
          then vectors ++ [GetStepVector (vectorPool o) seriesTs]
          else vectors in
        let maxt' := Int64.sub seriesTs (offset o) in
        let mint' := Int64.sub maxt' (selectRange o) in
        match selectPoints (samples sc) mint' maxt' (previousPoints sc)
                (funcName o) (extLookbackDelta o) with
        | (it', backing, Err err) =>
            ({| labels := labels sc; signature := signature sc;
                previousPoints := backing; samples := it' |},
             Err err)
        | (it', _, Ok rangePoints) =>
            let result :=
              call o {| FLabels := labels sc; Points := rangePoints;
                        StepTime := seriesTs;
                        SelectRange := selectRange o;
                        Offset := offset o |} in
            let vectors2 :=
              if Point_ne result InvalidSample
              then alter (recordResult (signature sc) result)
                     currStep vectors1
              else vectors1 in
            let stepRange :=
              if step o <? selectRange o then step o
              else selectRange o in
            let '(it'', _) := Buffered_ReduceDelta stepRange it' in
            stepLoop o n' (S currStep) (Int64.add seriesTs (step o))
              {| labels := labels sc; signature := signature sc;
                 previousPoints := rangePoints; samples := it'' |}
              vectors2
        end
      else (sc, Ok vectors)
  end.

(** The outer loop of [Next], over [o.scanners]. *)
Fixpoint scannerLoop (o : matrixSelector) (ts : Z)
    (scs : list matrixScanner) (vectors : list StepVector)
  : list matrixScanner * result (list StepVector) :=
  match scs with
  | [] => ([], Ok vectors)
  | sc :: rest =>
      match stepLoop o (Z.to_nat (numSteps o)) O ts sc vectors with
      | (sc', Err err) => (sc' :: rest, Err err)
      | (sc', Ok vectors') =>
          let '(rest', r) := scannerLoop o ts rest vectors' in
          (sc' :: rest', r)
      end
  end.

Definition setProgress (o : matrixSelector)
    (scs : list matrixScanner) (step' currentStep' : Z)
  : matrixSelector :=
  {| funcName := funcName o; storage := storage o; call := call o;
     scanners := scs; series := series o; once := once o;
     vectorPool := vectorPool o; numSteps := numSteps o;
     mint := mint o; maxt := maxt o; step := step';
     selectRange := selectRange o; offset := offset o;
     currentStep := currentStep';
     shard := shard o; numShards := numShards o;
     extLookbackDelta := extLookbackDelta o |}.

(** [matrixSelector.Next]. [None] is the nil batch of
    end-of-stream. *)
Definition Next (ctx : Context) (o : matrixSelector)
  : matrixSelector * result (option (list StepVector)) :=
  match ctxErr ctx with
  | Some err => (o, Err err)
  | None =>
      if maxt o <? currentStep o then (o, Ok None)
      else
        match loadSeries ctx o with
        | (o1, Some err) => (o1, Err err)
        | (o1, None) =>
            let vectors := GetVectorBatch (vectorPool o1) in
            let ts := currentStep o1 in
            match scannerLoop o1 ts (scanners o1) vectors with
            | (scs, Err err) =>
                (setProgress o1 scs (step o1) (currentStep o1), Err err)
            | (scs, Ok vectors') =>
                let step' := if step o1 =? 0 then 1 else step o1 in
                (setProgress o1 scs step'
                   (Int64.add (currentStep o1)
                      (Int64.mul step' (numSteps o1))),
                 Ok (Some vectors'))
            end
        end
  end.

End WithFunctions.

(** [NewMatrixSelector]; [numSteps] is [opts.NumSteps()]. *)
Definition NewMatrixSelector (pool : VectorPool)
    (selector : Context -> Z -> Z -> result (list SignedSeries))
    (call : FunctionArgs -> Point) (funcName : string)
    (numSteps start end_ step selectRange offset shard numShard
       extLookbackDelta : Z) : matrixSelector :=
  {| funcName := funcName; storage := selector; call := call;
     scanners := []; series := []; once := false;
     vectorPool := pool; numSteps := numSteps;
     mint := start; maxt := end_; step := step;
     selectRange := selectRange; offset := offset;
     currentStep := start;
     shard := shard; numShards := numShard;
     extLookbackDelta := extLookbackDelta |}.

End MatrixSelector.

End Scan.

(** * Vocabulary of the properties *)

Module ScanSpec.

Import Scan.

(** The arithmetic progression [start, start + step, ...] of [n] terms. *)
Fixpoint progression (start step : Z) (n : nat) : list Z :=
  match n with
  | O => []
  | S n' => start :: progression (start + step) step n'
  end.

(** The step an operator advances by: 1 ms for an instant query. *)
Definition stepOf (step : Z) : Z := if step =? 0 then 1 else step.

Definition timestamps (batch : list StepVector) : list Z := map T batch.

(** A batch that starts at [ts], advances by [step], stays at or before
    [maxt] and has at most [n] step vectors. *)
Definition onProgression (ts step maxt : Z) (n : nat)
    (batch : list StepVector) : Prop :=
  timestamps batch = progression ts step (length batch)
  /\ Forall (fun t => t <= maxt) (timestamps batch)
  /\ (length batch <= n)%nat.

(** The state of a vector selector between pulls: times far from the
    ends of [int64], a batch budget that [float64] holds exactly, and
    [currentStep] on the step grid that starts at [mint]. *)
Definition vsOnGrid (o : VectorSelector.vectorSelector) : Prop :=
  - 2 ^ 60 <= VectorSelector.mint o
  /\ VectorSelector.maxt o <= 2 ^ 60
  /\ 0 <= VectorSelector.step o <= 2 ^ 60
  /\ 0 <= VectorSelector.stepsBatch o <= 2 ^ 53
  /\ VectorSelector.currentStep o <= 2 ^ 62
  /\ exists k, 0 <= k
       /\ VectorSelector.currentStep o
          = VectorSelector.mint o + k * stepOf (VectorSelector.step o).

(** The same for a matrix selector, whose range function answers at the
    step time it is given whenever it answers. *)
Definition msOnGrid (InvalidSample : promql.Point)
    (o : MatrixSelector.matrixSelector) : Prop :=
  - 2 ^ 60 <= MatrixSelector.mint o
  /\ MatrixSelector.maxt o <= 2 ^ 60
  /\ 0 <= MatrixSelector.step o <= 2 ^ 60
  /\ 0 <= MatrixSelector.numSteps o
  /\ stepOf (MatrixSelector.step o) * MatrixSelector.numSteps o <= 2 ^ 61
  /\ MatrixSelector.currentStep o <= 2 ^ 62
  /\ (exists k, 0 <= k
        /\ MatrixSelector.currentStep o
           = MatrixSelector.mint o + k * stepOf (MatrixSelector.step o))
  /\ (forall a, Point_ne (MatrixSelector.call o a) InvalidSample = true ->
                promql.T (MatrixSelector.call o a) = MatrixSelector.StepTime a).

(** What the specification asks of [selectPoint], in its words: the most
    recent sample with timestamp at or before [ts], unless there is none,
    it is older than [ts - lookbackDelta], or its value is a stale NaN. *)
Definition latestAtOrBefore (ts : Z) (series : list VectorSelector.Sample)
  : option VectorSelector.Sample :=
  last (List.filter (fun s => VectorSelector.sT s <=? ts) series).

Definition lookbackSample (ts lookbackDelta : Z)
    (series : list VectorSelector.Sample) : Z * Z * bool :=
  match latestAtOrBefore ts series with
  | Some s =>
      if (VectorSelector.sT s <? ts - lookbackDelta)
         || IsStaleNaN (VectorSelector.sV s)
      then (0, 0, false)
      else (VectorSelector.sT s, VectorSelector.sV s, true)
  | None => (0, 0, false)
  end.

(** A series as storage hands it out: timestamps strictly increase. *)
Definition vsIncreasing (series : list VectorSelector.Sample) : Prop :=
  StronglySorted (fun a b => VectorSelector.sT a < VectorSelector.sT b) series.

(** What [Seek] leaves for [selectPoint]: either it stands on the latest
    sample at or before [ts], which is at [ts]; or it found nothing at
    [ts] and [prev] holds the latest sample before [ts], if any. *)
Definition seekPost (ts : Z) (series : list VectorSelector.Sample)
    (sc : VectorSelector.vectorScanner) (ok : bool) : Prop :=
  (ok = true
   /\ exists s, latestAtOrBefore ts series = Some s
        /\ VectorSelector.At sc = (VectorSelector.sT s, VectorSelector.sV s)
        /\ VectorSelector.sT s = ts)
  \/ ((ok = false \/ (ok = true /\ ts < fst (VectorSelector.At sc)))
      /\ match latestAtOrBefore ts series with
         | Some p =>
             VectorSelector.hasPrev sc = true
             /\ VectorSelector.prevTime sc = VectorSelector.sT p
             /\ VectorSelector.prevValue sc = VectorSelector.sV p
             /\ VectorSelector.sT p < ts
         | None => VectorSelector.hasPrev sc = false
         end).
(** What the specification asks of the window of an extended-range
    function, in its words: the latest non-stale float sample with
    timestamp in [minT - extLookbackDelta, minT], followed by the
    non-stale float samples with timestamp in (minT, maxT]. *)
Definition floatPoints (series : list Storage.Sample) : list promql.Point :=
  flat_map (fun s =>
              match Storage.sValue s with
              | Storage.FloatValue v =>
                  if IsStaleNaN v then []
                  else [ {| promql.T := Storage.sT s; promql.V := v;
                            promql.H := None |} ]
              | _ => []
              end) series.

Definition anchoredWindow (series : list Storage.Sample)
    (minT maxT extLookbackDelta : Z) : list promql.Point :=
  let pts := floatPoints series in
  let anchor :=
    last (List.filter
            (fun p => (minT - extLookbackDelta <=? promql.T p)
                      && (promql.T p <=? minT)) pts) in
  let inRange :=
    List.filter (fun p => (minT <? promql.T p) && (promql.T p <=? maxT)) pts in
  match anchor with
  | Some a => a :: inRange
  | None => inRange
  end.

(** A series as storage hands it out: timestamps strictly increase. *)
Definition msIncreasing (stream : list Storage.Sample) : Prop :=
  StronglySorted (fun a b => Storage.sT a < Storage.sT b) stream.

(** The samples the buffered iterator holds back after [Seek(hi)] with a
    window that starts at [lo], and the sample it stands on. *)
Definition bufferedPart (stream : list Storage.Sample) (lo hi : Z)
  : list Storage.Sample :=
  List.filter (fun s => (lo <=? Storage.sT s) && (Storage.sT s <? hi)) stream.

Definition soughtSample (stream : list Storage.Sample) (hi : Z)
  : option Storage.Sample :=
  List.find (fun s => hi <=? Storage.sT s) stream.

Definition seekResult (stream : list Storage.Sample) (lo hi : Z)
    (b : Storage.BufferedSeriesIterator) (vt : Storage.ValueType) : Prop :=
  Storage.Buffered_Buffer b = bufferedPart stream lo hi
  /\ match soughtSample stream hi with
     | Some s => vt = Storage.typeOf s
                 /\ Storage.current (Storage.it b) = Some s
     | None => vt = Storage.ValNone /\ Storage.Buffered_Err b = None
     end.

(** The iterator [s.Iterator(nil)] of a series that reads without error. *)
Definition iteratorOver (stream : list Storage.Sample) : Storage.Iterator :=
  {| Storage.current := None; Storage.remaining := stream;
     Storage.failure := None; Storage.exhausted := false |}.

(** The points of one sample: none for a stale float. *)
Definition samplePoints (s : Storage.Sample) : list promql.Point :=
  match Storage.sValue s with
  | Storage.FloatValue v =>
      if IsStaleNaN v then []
      else [ {| promql.T := Storage.sT s; promql.V := v; promql.H := None |} ]
  | Storage.HistogramValue h | Storage.FloatHistogramValue h =>
      [ {| promql.T := Storage.sT s; promql.V := 0; promql.H := Some h |} ]
  end.

(** What the specification asks of the window of a range function: the
    samples with timestamp in [minT, maxT], stale floats left out. *)
Definition windowPoints (stream : list Storage.Sample) (minT maxT : Z)
  : list promql.Point :=
  flat_map samplePoints
    (List.filter (fun s => (minT <=? Storage.sT s) && (Storage.sT s <=? maxT))
       stream).

Definition floatOnly (stream : list Storage.Sample) : Prop :=
  Forall (fun s => exists v, Storage.sValue s = Storage.FloatValue v) stream.

(** A call on an operator from the outside: [Next] or [Series]. *)
Inductive Pull :=
| PullNext (ctx : Context)
| PullSeries (ctx : Context).

(** What the caller sees of a pull. *)
Inductive Outcome :=
| Failed (e : error)
| EndOfStream
| Batch (vectors : list StepVector)
| SeriesList (lbls : list Labels).

Definition nextOutcome (r : result (option (list StepVector))) : Outcome :=
  match r with
  | Err e => Failed e
  | Ok None => EndOfStream
  | Ok (Some vectors) => Batch vectors
  end.

Definition seriesOutcome (r : result (list Labels)) : Outcome :=
  match r with
  | Err e => Failed e
  | Ok lbls => SeriesList lbls
  end.

Definition vsPull (p : Pull) (o : VectorSelector.vectorSelector)
  : VectorSelector.vectorSelector * Outcome :=
  match p with
  | PullNext ctx =>
      let '(o', r) := VectorSelector.Next ctx o in (o', nextOutcome r)
  | PullSeries ctx =>
      let '(o', r) := VectorSelector.Series ctx o in (o', seriesOutcome r)
  end.

(** The operator after a sequence of pulls. *)
Definition vsPulls (ps : list Pull) (o : VectorSelector.vectorSelector)
  : VectorSelector.vectorSelector :=
  foldl (fun o p => fst (vsPull p o)) o ps.

(** An operator whose series were never loaded. *)
Definition vsUnloaded (o : VectorSelector.vectorSelector) : Prop :=
  VectorSelector.once o = false
  /\ VectorSelector.scanners o = [] /\ VectorSelector.series o = [].

(** An operator that went through [once.Do] and holds no series. *)
Definition vsDrained (o : VectorSelector.vectorSelector) : Prop :=
  VectorSelector.once o = true
  /\ VectorSelector.scanners o = [] /\ VectorSelector.series o = [].

(** What a pull may return once the load has failed: nothing but empty
    results. *)
Definition emptyOutcome (out : Outcome) : Prop :=
  out = EndOfStream \/ out = Batch [] \/ out = SeriesList [].

Section Matrix.

Variable IsExtFunction : string -> bool.
Variable InvalidSample : promql.Point.

Definition msPull (p : Pull) (o : MatrixSelector.matrixSelector)
  : MatrixSelector.matrixSelector * Outcome :=
  match p with
  | PullNext ctx =>
      let '(o', r) := MatrixSelector.Next IsExtFunction InvalidSample ctx o in
      (o', nextOutcome r)
  | PullSeries ctx =>
      let '(o', r) := MatrixSelector.Series IsExtFunction ctx o in
      (o', seriesOutcome r)
  end.

Definition msPulls (ps : list Pull) (o : MatrixSelector.matrixSelector)
  : MatrixSelector.matrixSelector :=
  foldl (fun o p => fst (msPull p o)) o ps.

End Matrix.

Definition msUnloaded (o : MatrixSelector.matrixSelector) : Prop :=
  MatrixSelector.once o = false
  /\ MatrixSelector.scanners o = [] /\ MatrixSelector.series o = [].

Definition msDrained (o : MatrixSelector.matrixSelector) : Prop :=
  MatrixSelector.once o = true
  /\ MatrixSelector.scanners o = [] /\ MatrixSelector.series o = [].

(** A point list without stale-NaN values. *)
Definition staleFree (pts : list promql.Point) : Prop :=
  Forall (fun p => IsStaleNaN (promql.V p) = false) pts.

(** The point buffers a matrix selector keeps from step to step are free
    of stale-NaN values. *)
Definition msStaleFree (o : MatrixSelector.matrixSelector) : Prop :=
  Forall (fun sc => staleFree (MatrixSelector.previousPoints sc))
         (MatrixSelector.scanners o).

(** The operator with another range function in place of [call]. *)
Definition setCall (call' : MatrixSelector.FunctionArgs -> promql.Point)
    (o : MatrixSelector.matrixSelector) : MatrixSelector.matrixSelector :=
  {| MatrixSelector.funcName := MatrixSelector.funcName o;
     MatrixSelector.storage := MatrixSelector.storage o;
     MatrixSelector.call := call';
     MatrixSelector.scanners := MatrixSelector.scanners o;
     MatrixSelector.series := MatrixSelector.series o;
     MatrixSelector.once := MatrixSelector.once o;
     MatrixSelector.vectorPool := MatrixSelector.vectorPool o;
     MatrixSelector.numSteps := MatrixSelector.numSteps o;
     MatrixSelector.mint := MatrixSelector.mint o;
     MatrixSelector.maxt := MatrixSelector.maxt o;
     MatrixSelector.step := MatrixSelector.step o;
     MatrixSelector.selectRange := MatrixSelector.selectRange o;
     MatrixSelector.offset := MatrixSelector.offset o;
     MatrixSelector.currentStep := MatrixSelector.currentStep o;
     MatrixSelector.shard := MatrixSelector.shard o;
     MatrixSelector.numShards := MatrixSelector.numShards o;
     MatrixSelector.extLookbackDelta := MatrixSelector.extLookbackDelta o |}.

(** The cancellation error of the token a pull was given, if the pull is
    a [Next]. *)
Definition cancelledNext (p : Pull) (e : error) : Prop :=
  exists ctx, p = PullNext ctx /\ ctxErr ctx = Some e.

End ScanSpec.

(** * Concrete inputs used below *)

Module Examples.

Import LogicalPlan.

(** A printer standing for [parser.Expr.String()] in closed examples. *)
Definition printExpr (e : Expr) : string :=
  match e with
  | AggregateExpr _ _ _ _ _ _ => "aggregate"
  | VectorSelector m => m
  | _ => "expr"
  end.

(** A range query whose [End] is off the step grid, and an engine that
    starts after [Start]. *)
Definition lateEngine : RemoteEngine :=
  {| MinT := 5; MaxT := 1000; LabelSets := [] |}.
Definition offGridOpts : Opts :=
  {| Start := 0; End_ := 100; Step := 30; LookbackDelta := 0 |}.

(** An engine whose data ends before the queried range. *)
Definition oldEngine : RemoteEngine :=
  {| MinT := 0; MaxT := 10;
     LabelSets := [ [ {| Name := "cluster"; Value := "a" |} ] ] |}.
Definition laterOpts : Opts :=
  {| Start := 100; End_ := 200; Step := 10; LookbackDelta := 5 |}.

Definition clusterEngine (c : string) (lo hi : Z) : RemoteEngine :=
  {| MinT := lo; MaxT := hi;
     LabelSets := [ [ {| Name := "cluster"; Value := c |} ] ] |}.
Definition noPos : PositionRange := {| PosStart := 0; PosEnd := 0 |}.

(** A storage that cannot be reached, and one series with a sample a
    minute apart. *)
Definition live : Scan.Context := {| Scan.ctxErr := None |}.
Definition cancelled : Scan.Context :=
  {| Scan.ctxErr := Some "context canceled"%string |}.
Definition pool0 : Scan.VectorPool := {| Scan.stepSize := 0 |}.

Definition brokenVectorStorage
  : Scan.Context -> Z -> Z
    -> Scan.result (list Scan.VectorSelector.signedSeries) :=
  fun _ _ _ => Scan.Err "storage unavailable"%string.

Definition minuteSeries : Scan.VectorSelector.signedSeries :=
  {| Scan.VectorSelector.ssLabels := [];
     Scan.VectorSelector.ssSignature := 7;
     Scan.VectorSelector.ssSamples :=
       [ {| Scan.VectorSelector.sT := 0; Scan.VectorSelector.sV := 1 |};
         {| Scan.VectorSelector.sT := 60; Scan.VectorSelector.sV := 2 |};
         {| Scan.VectorSelector.sT := 120; Scan.VectorSelector.sV := 3 |} ] |}.

Definition minuteStorage
  : Scan.Context -> Z -> Z
    -> Scan.result (list Scan.VectorSelector.signedSeries) :=
  fun _ _ _ => Scan.Ok [minuteSeries].

(** A range query 0..100 every 10 ms on the unreachable storage. *)
Definition brokenVectorSelector : Scan.VectorSelector.vectorSelector :=
  Scan.VectorSelector.NewVectorSelector pool0 brokenVectorStorage
    0 100 10 300 10 0 1.

(** A range query 0..60 every 15 ms, three steps a batch. *)
Definition minuteVectorSelector : Scan.VectorSelector.vectorSelector :=
  Scan.VectorSelector.NewVectorSelector pool0 minuteStorage
    0 60 15 300 3 0 1.

Definition isXFunction (name : string) : bool :=
  bool_decide (name = "xrate"%string)
  || bool_decide (name = "xincrease"%string)
  || bool_decide (name = "xdelta"%string).

Definition invalidSample : Scan.promql.Point :=
  {| Scan.promql.T := -1; Scan.promql.V := 0; Scan.promql.H := None |}.

(** A range function that returns the number of points of its window,
    at the step time. *)
Definition countPoints (a : Scan.MatrixSelector.FunctionArgs)
  : Scan.promql.Point :=
  {| Scan.promql.T := Scan.MatrixSelector.StepTime a;
     Scan.promql.V := Z.of_nat (length (Scan.MatrixSelector.Points a));
     Scan.promql.H := None |}.

Definition brokenMatrixStorage
  : Scan.Context -> Z -> Z
    -> Scan.result (list Scan.MatrixSelector.SignedSeries) :=
  fun _ _ _ => Scan.Err "storage unavailable"%string.

Definition brokenMatrixSelector : Scan.MatrixSelector.matrixSelector :=
  Scan.MatrixSelector.NewMatrixSelector pool0 brokenMatrixStorage
    countPoints "rate" 10 0 100 10 30 0 0 1 0.


(** The bit pattern of the float 1.0. *)
Definition one : Z := 0x3ff0000000000000.

Definition floatAt (t : Z) : Scan.Storage.Sample :=
  {| Scan.Storage.sT := t; Scan.Storage.sValue := Scan.Storage.FloatValue one |}.

Definition pointAt (t : Z) : Scan.promql.Point :=
  {| Scan.promql.T := t; Scan.promql.V := one; Scan.promql.H := None |}.

(** A series with two samples one millisecond apart. *)
Definition denseStream : list Scan.Storage.Sample :=
  [floatAt 99; floatAt 105; floatAt 110; floatAt 111].

(** A series with a long gap. *)
Definition sparseStream : list Scan.Storage.Sample := [floatAt 5; floatAt 60].

(** The buffered iterator [loadSeries] builds for a series. *)
Definition bufferedOver (stream : list Scan.Storage.Sample) (window : Z)
  : Scan.Storage.BufferedSeriesIterator :=
  Scan.Storage.NewBufferIterator
    {| Scan.Storage.current := None; Scan.Storage.remaining := stream;
       Scan.Storage.failure := None; Scan.Storage.exhausted := false |}
    window.

Definition denseStorage
  : Scan.Context -> Z -> Z
    -> Scan.result (list Scan.MatrixSelector.SignedSeries) :=
  fun _ _ _ =>
    Scan.Ok [ {| Scan.MatrixSelector.ssLabels := [];
                 Scan.MatrixSelector.ssSignature := 7;
                 Scan.MatrixSelector.ssStream := denseStream;
                 Scan.MatrixSelector.ssFailure := None |} ].

(** [xrate(...[10ms])] with an extended lookback of 5 ms, evaluated from
    [start] to 112 every 2 ms, two steps a batch. *)
Definition xrateSelector (start : Z) : Scan.MatrixSelector.matrixSelector :=
  Scan.MatrixSelector.NewMatrixSelector pool0 denseStorage countPoints
    "xrate" 2 start 112 2 10 0 0 1 5.

(** The points [selectPoints] returns, or none on an error. *)
Definition pointsOf
    (r : Scan.Storage.BufferedSeriesIterator * list Scan.promql.Point
         * Scan.result (list Scan.promql.Point)) : list Scan.promql.Point :=
  match r with
  | (_, _, Scan.Ok pts) => pts
  | (_, _, Scan.Err _) => []
  end.

(** The iterator one step later: [selectPoints], then [ReduceDelta]. *)
Definition iteratorAfter (stepRange : Z)
    (r : Scan.Storage.BufferedSeriesIterator * list Scan.promql.Point
         * Scan.result (list Scan.promql.Point))
  : Scan.Storage.BufferedSeriesIterator :=
  fst (Scan.Storage.Buffered_ReduceDelta stepRange (fst (fst r))).

(** The scanner of [minuteSeries] and the samples of a batch. *)
Definition minuteScanner : Scan.VectorSelector.vectorScanner :=
  Scan.VectorSelector.newScanner minuteSeries.

Definition samplesOf (r : Scan.result (option (list Scan.StepVector)))
  : list (Z * list Z) :=
  match r with
  | Scan.Ok (Some batch) => map (fun v => (Scan.T v, Scan.Samples v)) batch
  | _ => []
  end.


End Examples.

(** * Further concrete inputs *)

Module MoreExamples.

Import LogicalPlan.

(** An instant query (no step), and a range query whose step is zero. *)
Definition instantOpts : Opts :=
  {| Start := 100; End_ := 100; Step := 0; LookbackDelta := 5 |}.
Definition zeroStepOpts : Opts :=
  {| Start := 0; End_ := 100; Step := 0; LookbackDelta := 0 |}.

(** A range query 0..3 every millisecond, two steps a batch. *)
Definition shortVectorSelector : Scan.VectorSelector.vectorSelector :=
  Scan.VectorSelector.NewVectorSelector Examples.pool0 Examples.minuteStorage
    0 3 1 300 2 0 1.

(** The scanner of [minuteSeries] after the step at 0. *)
Definition minuteScannerAtZero : Scan.VectorSelector.vectorScanner :=
  fst (Scan.VectorSelector.selectPoint 0 300 Examples.minuteScanner).

(** The points of an earlier step. *)
Definition earlierPoints : list Scan.promql.Point :=
  [Examples.pointAt 1; Examples.pointAt 5; Examples.pointAt 9].

(** [rate(...[10ms])] over the dense series, from 100 to 112 every 2 ms,
    two steps a batch. *)
Definition rateSelector : Scan.MatrixSelector.matrixSelector :=
  Scan.MatrixSelector.NewMatrixSelector Examples.pool0 Examples.denseStorage
    Examples.countPoints "rate" 2 100 112 2 10 0 0 1 5.

(** The same queries with a batch of no step. *)
Definition stuckVectorSelector : Scan.VectorSelector.vectorSelector :=
  Scan.VectorSelector.NewVectorSelector Examples.pool0 Examples.minuteStorage
    0 3 1 300 0 0 1.
Definition stuckMatrixSelector : Scan.MatrixSelector.matrixSelector :=
  Scan.MatrixSelector.NewMatrixSelector Examples.pool0 Examples.denseStorage
    Examples.countPoints "rate" 0 100 112 2 10 0 0 1 5.

End MoreExamples.

(** * Vocabulary of the further properties *)

Module OperatorSpec.
Import Scan.

(** The names of all labels the engines advertise, in the order
    [newRemoteAggregation] visits them. *)
Definition engineLabelNames (engines : list LogicalPlan.RemoteEngine)
  : list string :=
  flat_map (fun e => flat_map (fun lbls => map LogicalPlan.Name lbls)
                       (LogicalPlan.LabelSets e)) engines.

(** A step vector of the vector selector: identifiers and values paired,
    no stale value, no histogram, and the identifiers in the order of
    [sigs]. *)
Definition floatVectorOk (sigs : list Z) (v : StepVector) : Prop :=
  length (SampleIDs v) = length (Samples v)
  /\ Forall (fun x => IsStaleNaN x = false) (Samples v)
  /\ sublist (SampleIDs v) sigs
  /\ HistogramIDs v = [] /\ Histograms v = [].

(** The series list is the list of the scanners' labels. *)
Definition vsAligned (o : VectorSelector.vectorSelector) : Prop :=
  VectorSelector.series o
  = map VectorSelector.labels (VectorSelector.scanners o).

(** The operator after a sequence of [Next] calls. *)
Definition vsNexts (ctxs : list Context) (o : VectorSelector.vectorSelector)
  : VectorSelector.vectorSelector :=
  foldl (fun o ctx => fst (VectorSelector.Next ctx o)) o ctxs.

(** The pulls an operator on the grid can still answer with a batch or
    a load error, at most. *)
Definition vsPullsLeft (o : VectorSelector.vectorSelector) : nat :=
  ((if VectorSelector.once o then 0 else 1)
   + Z.to_nat (VectorSelector.maxt o - VectorSelector.currentStep o + 1))%nat.

(** Points in the order of their timestamps, as [selectPoints] returns
    them for a series whose timestamps increase. *)
Definition pointsOrdered (pts : list promql.Point) : Prop :=
  StronglySorted (fun a b => promql.T a <= promql.T b) pts.

(** The series list of a matrix selector is the list of its scanners'
    labels. *)
Definition msAligned (o : MatrixSelector.matrixSelector) : Prop :=
  MatrixSelector.series o
  = map MatrixSelector.labels (MatrixSelector.scanners o).

(** Labels in the order of [sort.Sort]: by name. *)
Definition labelsSorted (lbls : Labels) : Prop :=
  Sorted (fun a b => GoSort.string_le (Name a) (Name b)) lbls.

(** The matrix selector after a sequence of [Next] calls. *)
Definition msNexts (IsExtFunction : string -> bool)
    (InvalidSample : promql.Point) (ctxs : list Context)
    (o : MatrixSelector.matrixSelector) : MatrixSelector.matrixSelector :=
  foldl (fun o ctx =>
           fst (MatrixSelector.Next IsExtFunction InvalidSample ctx o))
        o ctxs.

End OperatorSpec.

(** * Properties *)

(** ** 64-bit arithmetic without overflow *)

Lemma wrap_in_range (z : Z) : Int64.in_range z -> Int64.wrap z = z.
Proof.
  unfold Int64.in_range, Int64.min_int64, Int64.max_int64, Int64.wrap.
  intros Hz. rewrite Z.mod_small; lia.
Qed.

Lemma add_in_range (a b : Z) : Int64.in_range (a + b) -> Int64.add a b = a + b.
Proof. apply wrap_in_range. Qed.

Lemma sub_in_range (a b : Z) : Int64.in_range (a - b) -> Int64.sub a b = a - b.
Proof. apply wrap_in_range. Qed.

Lemma mul_in_range (a b : Z) : Int64.in_range (a * b) -> Int64.mul a b = a * b.
Proof. apply wrap_in_range. Qed.

Lemma quot_nonneg_in_range (a b : Z) :
  0 <= a -> 0 < b -> Int64.in_range a -> Int64.quot a b = Some (a / b).
Proof.
  intros Ha Hb Hr. unfold Int64.quot.
  destruct (Z.eqb_spec b 0) as [->|_]; [lia|].
  rewrite Z.quot_div_nonneg by lia.
  rewrite wrap_in_range; [reflexivity|].
  unfold Int64.in_range, Int64.min_int64, Int64.max_int64 in *.
  pose proof (Z.div_pos a b Ha Hb).
  pose proof (Z.div_le_upper_bound a b a Hb). nia.
Qed.

(** ** The planner *)

Section PlannerFacts.

Import LogicalPlan.

Variable exprString : Expr -> string.

(** [numSteps] on a forward range is the number of grid points. *)
Lemma numSteps_forward (start end_ step : Z) :
  0 < step -> start <= end_ ->
  - 2 ^ 61 <= start -> end_ <= 2 ^ 61 ->
  numSteps start end_ step = Some ((end_ - start) / step + 1).
Proof.
  intros Hs Hle Hlo Hhi. unfold numSteps.
  assert (Hd : Int64.sub end_ start = end_ - start).
  { apply sub_in_range.
    unfold Int64.in_range, Int64.min_int64, Int64.max_int64. lia. }
  rewrite Hd, quot_nonneg_in_range; try lia.
  - simpl. f_equal. apply add_in_range.
    pose proof (Z.div_pos (end_ - start) step ltac:(lia) Hs).
    pose proof (Z.div_le_upper_bound (end_ - start) step (end_ - start) Hs).
    unfold Int64.in_range, Int64.min_int64, Int64.max_int64. nia.
  - unfold Int64.in_range, Int64.min_int64, Int64.max_int64. lia.
Qed.

(** The start time [calculateStepAlignedStart] computes, in closed form. *)
Lemma calculateStepAlignedStart_value (e : RemoteEngine) (opts : Opts) :
  0 < Step opts -> Step opts <= 2 ^ 61 ->
  Start opts < MinT e -> MinT e <= End_ opts ->
  - 2 ^ 61 <= Start opts -> End_ opts <= 2 ^ 61 ->
  calculateStepAlignedStart e opts =
    Some (Start opts
          + ((End_ opts - Start opts) / Step opts
             - (End_ opts - MinT e) / Step opts) * Step opts).
Proof.
  intros Hs Hs' Hlt Hle Hlo Hhi. unfold calculateStepAlignedStart.
  rewrite !numSteps_forward by lia. simpl.
  set (a := End_ opts - Start opts). set (b := End_ opts - MinT e).
  set (S := Step opts) in *.
  assert (Ha : 0 <= a / S) by (apply Z.div_pos; lia).
  assert (Hb : 0 <= b / S) by (apply Z.div_pos; lia).
  assert (Hab : b / S <= a / S) by (apply Z.div_le_mono; lia).
  assert (Ha' : S * (a / S) <= a) by (apply Z.mul_div_le; lia).
  assert (Hb' : S * (b / S) <= b) by (apply Z.mul_div_le; lia).
  assert (Hsub : Int64.sub (a / S + 1) (b / S + 1) = a / S - b / S).
  { unfold Int64.sub. rewrite wrap_in_range; [lia|].
    unfold Int64.in_range, Int64.min_int64, Int64.max_int64. nia. }
  rewrite Hsub.
  assert (Hmul : Int64.mul (a / S - b / S) S = (a / S - b / S) * S).
  { apply mul_in_range.
    unfold Int64.in_range, Int64.min_int64, Int64.max_int64. nia. }
  rewrite Hmul. f_equal. apply add_in_range.
  unfold Int64.in_range, Int64.min_int64, Int64.max_int64. nia.
Qed.

(** The remote start always lies on the step grid of the query, less
    than one step away from the engine's [MinT]; it is at or after
    [MinT] when [End] lies on the grid as well. *)
Lemma calculateStepAlignedStart_grid (e : RemoteEngine) (opts : Opts) :
  0 < Step opts -> Step opts <= 2 ^ 61 ->
  Start opts < MinT e -> MinT e <= End_ opts ->
  - 2 ^ 61 <= Start opts -> End_ opts <= 2 ^ 61 ->
  exists remoteStart,
    calculateStepAlignedStart e opts = Some remoteStart
    /\ (remoteStart - Start opts) mod Step opts = 0
    /\ Start opts <= remoteStart
    /\ MinT e - Step opts < remoteStart < MinT e + Step opts
    /\ ((End_ opts - Start opts) mod Step opts = 0 -> MinT e <= remoteStart).
Proof.
  intros Hs Hs' Hlt Hle Hlo Hhi.
  eexists. split; [apply calculateStepAlignedStart_value; lia|].
  set (a := End_ opts - Start opts). set (b := End_ opts - MinT e).
  set (S := Step opts) in *.
  pose proof (Z.div_mod a S ltac:(lia)) as Ea.
  pose proof (Z.div_mod b S ltac:(lia)) as Eb.
  pose proof (Z.mod_pos_bound a S Hs) as Ma.
  pose proof (Z.mod_pos_bound b S Hs) as Mb.
  assert (Hab : b / S <= a / S) by (apply Z.div_le_mono; lia).
  assert (Hdiff : a - b = MinT e - Start opts) by (unfold a, b; lia).
  repeat split.
  - replace (Start opts + (a / S - b / S) * S - Start opts)
      with ((a / S - b / S) * S) by lia.
    apply Z.mod_mul. lia.
  - nia.
  - nia.
  - nia.
  - intros Hz. fold a S in Hz. nia.
Qed.

(** When every engine is skipped the loop of [distributeQuery] adds
    nothing. *)
Lemma distributeLoop_all_skipped (expr : Expr) (opts : Opts)
    (engines : list RemoteEngine) (acc : RemoteExecutions) :
  Forall (fun e => engineSkipped e opts = true) engines ->
  distributeLoop exprString expr opts engines acc = Some acc.
Proof.
  induction 1 as [|e rest He _ IH]; simpl; [reflexivity|].
  unfold engineSkipped in He. apply orb_true_iff in He.
  destruct (MaxT e <? Int64.sub (Start opts) (LookbackDelta opts)) eqn:E1;
    [exact IH|].
  destruct He as [He|He]; [discriminate|]. rewrite He. exact IH.
Qed.

(** The loop never panics when the step is not zero, and every remote
    execution it adds carries the text of the expression and one of the
    engines. *)
Lemma distributeLoop_total (expr : Expr) (opts : Opts)
    (engines : list RemoteEngine) (acc : RemoteExecutions) :
  Step opts <> 0 ->
  exists added,
    distributeLoop exprString expr opts engines acc = Some (acc ++ added)
    /\ Forall (fun r => Query r = exprString expr
                        /\ In (Engine r) engines) added.
Proof.
  intros Hstep. revert acc.
  induction engines as [|e rest IH]; intros acc; simpl.
  - exists []. rewrite app_nil_r. auto.
  - assert (Hweak : forall added,
               Forall (fun r => Query r = exprString expr
                                /\ In (Engine r) rest) added ->
               Forall (fun r => Query r = exprString expr
                                /\ (e = Engine r \/ In (Engine r) rest))
                      added).
    { intros added HF. eapply Forall_impl; [exact HF|].
      intros r [? ?]. auto. }
    destruct (MaxT e <? Int64.sub (Start opts) (LookbackDelta opts)).
    { destruct (IH acc) as (added & -> & HF). eauto. }
    destruct (End_ opts <? MinT e).
    { destruct (IH acc) as (added & -> & HF). eauto. }
    assert (Hstart : exists start,
               (if Start opts <? MinT e
                then calculateStepAlignedStart e opts
                else Some (Start opts)) = Some start).
    { destruct (Start opts <? MinT e); [|eauto].
      unfold calculateStepAlignedStart, numSteps, Int64.quot.
      destruct (Z.eqb_spec (Step opts) 0); [contradiction|].
      simpl. eauto. }
    destruct Hstart as (start & ->). simpl.
    destruct (IH (acc ++ [ {| Engine := e; Query := exprString expr;
                              QueryRangeStart := start |} ]))
      as (added & -> & HF).
    eexists (_ :: added). rewrite <- app_assoc. split; [reflexivity|].
    constructor; simpl; auto.
Qed.

End PlannerFacts.


Section PlannerClaims.

Import LogicalPlan.

Variable exprString : Expr -> string.

(** C4. When the visit of [Optimize] reaches a distributive aggregation
    (and the step is not zero, so that step alignment cannot panic), it
    replaces the node with a local aggregation that has the operator of
    the original, [SUM] in place of [COUNT], the original parameter,
    grouping, [Without] flag and position, and whose argument is the
    [Deduplicate] of the remote executions [distributeQuery] builds from
    the remote aggregation; every one of them carries the text of the
    remote aggregation, which is the original with its grouping replaced.
    The traversal stops there. *)
Theorem C4_distributive_aggregation_rewrite
    (engines : list RemoteEngine) (opts : Opts) (parent : option Expr)
    (op : ItemType) (e : Expr) (param : option Expr)
    (grouping : list string) (without : bool) (pos : PositionRange) :
  Step opts <> 0 ->
  isDistributive (Some (AggregateExpr op e param grouping without pos)) = true ->
  exists (remoteGrouping : list string) (subQueries : Deduplicate),
    newRemoteAggregation op e param grouping without pos engines
      = AggregateExpr op e param remoteGrouping without pos
    /\ distributeQuery exprString
         (AggregateExpr op e param remoteGrouping without pos) engines opts
       = Some subQueries
    /\ Forall (fun r => Query r = exprString
                          (AggregateExpr op e param remoteGrouping without pos)
                        /\ In (Engine r) engines)
              (Expressions subQueries)
    /\ optimizeVisit exprString engines opts parent
         (AggregateExpr op e param grouping without pos)
       = Some (AggregateExpr (if bool_decide (op = COUNT) then SUM else op)
                 (DeduplicateExpr subQueries) param grouping without pos,
               true).
Proof.
  intros Hstep Hdist.
  destruct (distributeLoop_total exprString
              (newRemoteAggregation op e param grouping without pos engines)
              opts engines [] Hstep) as (added & Hloop & Hall).
  exists (GoSort.sortStrings
            (elements (remoteGroupingSet grouping without engines))),
         {| Expressions := added |}.
  unfold newRemoteAggregation in *. simpl in Hloop.
  split; [reflexivity|].
  split; [unfold distributeQuery; rewrite Hloop; reflexivity|].
  split; [exact Hall|].
  unfold optimizeVisit. rewrite Hdist. simpl.
  unfold newRemoteAggregation, distributeQuery. rewrite Hloop. reflexivity.
Qed.

(** C10. If every remote engine is skipped, [distributeQuery] returns a
    [Deduplicate] with no expressions, and the visit of [Optimize]
    installs it without failing: in place of a distributive node under a
    parent that is not, and as the argument of the local aggregation for
    a distributive aggregation. *)
Theorem C10_all_engines_skipped
    (engines : list RemoteEngine) (opts : Opts) :
  Int64.in_range (Start opts - LookbackDelta opts) ->
  Forall (fun e => MaxT e < Start opts - LookbackDelta opts
                   \/ MinT e > End_ opts) engines ->
  (forall expr,
      distributeQuery exprString expr engines opts
      = Some {| Expressions := [] |})
  /\ (forall parent current,
         isDistributive (Some current) = true ->
         isAggregate current = false ->
         isDistributive parent = false ->
         optimizeVisit exprString engines opts parent current
         = Some (DeduplicateExpr {| Expressions := [] |}, true))
  /\ (forall parent op e param grouping without pos,
         isDistributive (Some (AggregateExpr op e param grouping without pos))
           = true ->
         optimizeVisit exprString engines opts parent
           (AggregateExpr op e param grouping without pos)
         = Some (AggregateExpr (if bool_decide (op = COUNT) then SUM else op)
                   (DeduplicateExpr {| Expressions := [] |})
                   param grouping without pos, true)).
Proof.
  intros Hrange Hskip.
  assert (Hall : Forall (fun e => engineSkipped e opts = true) engines).
  { eapply Forall_impl; [exact Hskip|]. intros e He. unfold engineSkipped.
    rewrite sub_in_range by exact Hrange.
    apply orb_true_iff. destruct He as [He|He]; [left|right].
    - apply Z.ltb_lt. exact He.
    - apply Z.ltb_lt. lia. }
  assert (Hdq : forall expr, distributeQuery exprString expr engines opts
                             = Some {| Expressions := [] |}).
  { intros expr. unfold distributeQuery.
    rewrite distributeLoop_all_skipped by exact Hall. reflexivity. }
  split; [exact Hdq|]. split.
  - intros parent current Hd Hagg Hp. unfold optimizeVisit.
    rewrite Hd, Hp. simpl.
    destruct current; try discriminate Hagg; rewrite Hdq; reflexivity.
  - intros parent op e param grouping without pos Hd. unfold optimizeVisit.
    rewrite Hd. simpl. rewrite Hdq. reflexivity.
Qed.

End PlannerClaims.

(** C2, at a query whose [End] is off the step grid (Start = 0,
    End = 100, Step = 30) and an engine with MinT = 5 that is not
    skipped: the remote start is 0, on the grid but before [MinT]. *)
Theorem C2_remote_start_before_MinT :
  LogicalPlan.engineSkipped Examples.lateEngine Examples.offGridOpts = false
  /\ LogicalPlan.Start Examples.offGridOpts
      < LogicalPlan.MinT Examples.lateEngine
  /\ LogicalPlan.calculateStepAlignedStart
       Examples.lateEngine Examples.offGridOpts = Some 0
  /\ ~ (LogicalPlan.MinT Examples.lateEngine <= 0)
  /\ LogicalPlan.distributeQuery Examples.printExpr
       (LogicalPlan.VectorSelector "up") [Examples.lateEngine]
       Examples.offGridOpts
     = Some {| LogicalPlan.Expressions :=
                 [ {| LogicalPlan.Engine := Examples.lateEngine;
                      LogicalPlan.Query := "up";
                      LogicalPlan.QueryRangeStart := 0 |} ] |}.
Proof.
  repeat split; try reflexivity.
  - simpl. lia.
Qed.

Lemma C4_distributive_aggregation_rewrite_witness :
  exists remoteGrouping subQueries,
    LogicalPlan.newRemoteAggregation LogicalPlan.COUNT
      (LogicalPlan.VectorSelector "up") None ["job"%string] false
      Examples.noPos
      [Examples.clusterEngine "a" 0 1000; Examples.clusterEngine "b" 0 1000]
    = LogicalPlan.AggregateExpr LogicalPlan.COUNT
        (LogicalPlan.VectorSelector "up") None remoteGrouping false
        Examples.noPos
    /\ LogicalPlan.distributeQuery Examples.printExpr
         (LogicalPlan.AggregateExpr LogicalPlan.COUNT
            (LogicalPlan.VectorSelector "up") None remoteGrouping false
            Examples.noPos)
         [Examples.clusterEngine "a" 0 1000; Examples.clusterEngine "b" 0 1000]
         Examples.laterOpts
       = Some subQueries
    /\ Forall (fun r =>
                 LogicalPlan.Query r
                 = Examples.printExpr
                     (LogicalPlan.AggregateExpr LogicalPlan.COUNT
                        (LogicalPlan.VectorSelector "up") None remoteGrouping
                        false Examples.noPos)
                 /\ In (LogicalPlan.Engine r)
                      [Examples.clusterEngine "a" 0 1000;
                       Examples.clusterEngine "b" 0 1000])
              (LogicalPlan.Expressions subQueries)
    /\ LogicalPlan.optimizeVisit Examples.printExpr
         [Examples.clusterEngine "a" 0 1000; Examples.clusterEngine "b" 0 1000]
         Examples.laterOpts None
         (LogicalPlan.AggregateExpr LogicalPlan.COUNT
            (LogicalPlan.VectorSelector "up") None ["job"%string] false
            Examples.noPos)
       = Some (LogicalPlan.AggregateExpr LogicalPlan.SUM
                 (LogicalPlan.DeduplicateExpr subQueries) None
                 ["job"%string] false Examples.noPos, true).
Proof.
  apply (C4_distributive_aggregation_rewrite Examples.printExpr
           [Examples.clusterEngine "a" 0 1000; Examples.clusterEngine "b" 0 1000]
           Examples.laterOpts None LogicalPlan.COUNT
           (LogicalPlan.VectorSelector "up") None ["job"%string] false
           Examples.noPos).
  - simpl. lia.
  - reflexivity.
Defined.

Lemma C10_all_engines_skipped_witness :
  LogicalPlan.distributeQuery Examples.printExpr
    (LogicalPlan.VectorSelector "up") [Examples.oldEngine] Examples.laterOpts
  = Some {| LogicalPlan.Expressions := [] |}.
Proof.
  apply (C10_all_engines_skipped Examples.printExpr
           [Examples.oldEngine] Examples.laterOpts).
  - unfold Int64.in_range, Int64.min_int64, Int64.max_int64. simpl. lia.
  - constructor; [|constructor]. left. simpl. lia.
Defined.


(** ** Load errors and cancellation *)

Section SelectorErrors.

Import Scan ScanSpec.

(** Once the load has run and left no series, a pull on the vector
    selector returns an empty result and leaves it so. *)
Lemma vsPull_drained (p : Pull) (o : VectorSelector.vectorSelector) :
  vsDrained o ->
  vsDrained (fst (vsPull p o)) /\ emptyOutcome (snd (vsPull p o)).
Proof.
  intros (Honce & Hsc & Hse). destruct p as [ctx|ctx]; simpl.
  - unfold VectorSelector.Next.
    destruct (VectorSelector.maxt o <? VectorSelector.currentStep o).
    + simpl. split; [repeat split; assumption|]. left. reflexivity.
    + unfold VectorSelector.loadSeries. rewrite Honce, Hsc. simpl.
      split; [repeat split; assumption|]. right. left. reflexivity.
  - unfold VectorSelector.Series, VectorSelector.loadSeries.
    rewrite Honce. simpl. rewrite Hse.
    split; [repeat split; assumption|]. right. right. reflexivity.
Qed.

Lemma vsPulls_drained (ps : list Pull) (o : VectorSelector.vectorSelector) :
  vsDrained o -> vsDrained (vsPulls ps o).
Proof.
  revert o. induction ps as [|p ps IH]; intros o Ho; simpl; [exact Ho|].
  apply IH. apply vsPull_drained. exact Ho.
Qed.

(** The pull that meets the load error returns it and leaves the vector
    selector drained. *)
Lemma vsPull_load_error (ctx : Context) (e : error) (p : Pull)
    (o : VectorSelector.vectorSelector) :
  vsUnloaded o ->
  VectorSelector.storage o ctx (VectorSelector.shard o)
    (VectorSelector.numShards o) = Err e ->
  p = PullSeries ctx
  \/ (p = PullNext ctx /\ VectorSelector.currentStep o <= VectorSelector.maxt o) ->
  snd (vsPull p o) = Failed e /\ vsDrained (fst (vsPull p o)).
Proof.
  intros (Honce & Hsc & Hse) Hload [->|[-> Hcur]]; simpl.
  - unfold VectorSelector.Series, VectorSelector.loadSeries.
    rewrite Honce, Hload. simpl. repeat split; assumption.
  - unfold VectorSelector.Next.
    destruct (Z.ltb_spec (VectorSelector.maxt o) (VectorSelector.currentStep o));
      [lia|].
    unfold VectorSelector.loadSeries. rewrite Honce, Hload. simpl.
    repeat split; assumption.
Qed.

Variable IsExtFunction : string -> bool.
Variable InvalidSample : promql.Point.

(** The same for the matrix selector, whose [Next] may still return the
    cancellation error of its token. *)
Lemma msPull_drained (p : Pull) (o : MatrixSelector.matrixSelector) :
  msDrained o ->
  msDrained (fst (msPull IsExtFunction InvalidSample p o))
  /\ (emptyOutcome (snd (msPull IsExtFunction InvalidSample p o))
      \/ exists e, snd (msPull IsExtFunction InvalidSample p o) = Failed e
                   /\ cancelledNext p e).
Proof.
  intros (Honce & Hsc & Hse). destruct p as [ctx|ctx]; simpl.
  - unfold MatrixSelector.Next.
    destruct (ctxErr ctx) as [e|] eqn:Hctx.
    { simpl. split; [repeat split; assumption|]. right. exists e.
      split; [reflexivity|]. exists ctx. auto. }
    destruct (MatrixSelector.maxt o <? MatrixSelector.currentStep o).
    + simpl. split; [repeat split; assumption|]. left. left. reflexivity.
    + unfold MatrixSelector.loadSeries. rewrite Honce, Hsc. simpl.
      split; [repeat split; assumption|]. left. right. left. reflexivity.
  - unfold MatrixSelector.Series, MatrixSelector.loadSeries.
    rewrite Honce. simpl. rewrite Hse.
    split; [repeat split; assumption|]. left. right. right. reflexivity.
Qed.

Lemma msPulls_drained (ps : list Pull) (o : MatrixSelector.matrixSelector) :
  msDrained o -> msDrained (msPulls IsExtFunction InvalidSample ps o).
Proof.
  revert o. induction ps as [|p ps IH]; intros o Ho; simpl; [exact Ho|].
  apply IH. apply msPull_drained. exact Ho.
Qed.

Lemma msPull_load_error (ctx : Context) (e : error) (p : Pull)
    (o : MatrixSelector.matrixSelector) :
  msUnloaded o ->
  MatrixSelector.storage o ctx (MatrixSelector.shard o)
    (MatrixSelector.numShards o) = Err e ->
  p = PullSeries ctx
  \/ (p = PullNext ctx /\ ctxErr ctx = None
      /\ MatrixSelector.currentStep o <= MatrixSelector.maxt o) ->
  snd (msPull IsExtFunction InvalidSample p o) = Failed e
  /\ msDrained (fst (msPull IsExtFunction InvalidSample p o)).
Proof.
  intros (Honce & Hsc & Hse) Hload [->|(-> & Hctx & Hcur)]; simpl.
  - unfold MatrixSelector.Series, MatrixSelector.loadSeries.
    rewrite Honce, Hload. simpl. repeat split; assumption.
  - unfold MatrixSelector.Next. rewrite Hctx.
    destruct (Z.ltb_spec (MatrixSelector.maxt o) (MatrixSelector.currentStep o));
      [lia|].
    unfold MatrixSelector.loadSeries. rewrite Honce, Hload. simpl.
    repeat split; assumption.
Qed.

(** C3, as the code has it. A storage load error is returned by the pull
    ([Next] or [Series]) that meets it. The load is never tried again and
    the operator is left without series, not in an error state: whatever
    pulls follow, the next one returns an empty result (end of stream, an
    empty batch, an empty series list) and no error, except that a [Next]
    of the matrix selector returns the cancellation error of a cancelled
    token. *)
Theorem C3_load_error_returned_once :
  (forall (o : VectorSelector.vectorSelector) (ctx : Context) (e : error)
          (p : Pull),
      vsUnloaded o ->
      VectorSelector.storage o ctx (VectorSelector.shard o)
        (VectorSelector.numShards o) = Err e ->
      p = PullSeries ctx
      \/ (p = PullNext ctx
          /\ VectorSelector.currentStep o <= VectorSelector.maxt o) ->
      snd (vsPull p o) = Failed e
      /\ forall (later : list Pull) (p' : Pull),
           emptyOutcome (snd (vsPull p' (vsPulls later (fst (vsPull p o))))))
  /\
  (forall (o : MatrixSelector.matrixSelector) (ctx : Context) (e : error)
          (p : Pull),
      msUnloaded o ->
      MatrixSelector.storage o ctx (MatrixSelector.shard o)
        (MatrixSelector.numShards o) = Err e ->
      p = PullSeries ctx
      \/ (p = PullNext ctx /\ ctxErr ctx = None
          /\ MatrixSelector.currentStep o <= MatrixSelector.maxt o) ->
      snd (msPull IsExtFunction InvalidSample p o) = Failed e
      /\ forall (later : list Pull) (p' : Pull),
           let o' := msPulls IsExtFunction InvalidSample later
                       (fst (msPull IsExtFunction InvalidSample p o)) in
           emptyOutcome (snd (msPull IsExtFunction InvalidSample p' o'))
           \/ exists e', snd (msPull IsExtFunction InvalidSample p' o')
                         = Failed e'
                         /\ cancelledNext p' e').
Proof.
  split.
  - intros o ctx e p Hun Hload Hp.
    destruct (vsPull_load_error ctx e p o Hun Hload Hp) as [Hout Hdr].
    split; [exact Hout|]. intros later p'.
    apply vsPull_drained, vsPulls_drained, Hdr.
  - intros o ctx e p Hun Hload Hp.
    destruct (msPull_load_error ctx e p o Hun Hload Hp) as [Hout Hdr].
    split; [exact Hout|]. intros later p'.
    apply msPull_drained, msPulls_drained, Hdr.
Qed.

(** [matrixSelector.Next] looks at the cancellation token once, before
    any work: given a cancelled token it returns the token's error and
    leaves the operator as it was, and so does every further [Next]
    given that token. *)
Lemma ms_Next_cancelled_token
    (o : MatrixSelector.matrixSelector) (ctx : Context) (e : error) :
  ctxErr ctx = Some e ->
  forall n : nat,
    let o' := Nat.iter n
                (fun o => fst (MatrixSelector.Next IsExtFunction InvalidSample
                                 ctx o)) o in
    o' = o
    /\ MatrixSelector.Next IsExtFunction InvalidSample ctx o' = (o, Err e).
Proof.
  intros Hctx.
  assert (Hone : MatrixSelector.Next IsExtFunction InvalidSample ctx o
                 = (o, Err e)).
  { unfold MatrixSelector.Next. rewrite Hctx. reflexivity. }
  induction n as [|n IH]; simpl.
  - split; [reflexivity|exact Hone].
  - destruct IH as [-> _]. rewrite Hone. simpl. split; [reflexivity|exact Hone].
Qed.

End SelectorErrors.

(** C3 fails as stated: on a storage that cannot be reached the first
    [Next] of the vector selector returns the load error, the second an
    empty batch and no error. *)
Lemma C3_second_pull_returns_no_error :
  let first := Scan.VectorSelector.Next Examples.live
                 Examples.brokenVectorSelector in
  let second := Scan.VectorSelector.Next Examples.live (fst first) in
  snd first = Scan.Err "storage unavailable"%string
  /\ snd second = Scan.Ok (Some [])
  /\ snd second <> snd first.
Proof.
  repeat split; try reflexivity. simpl. discriminate.
Qed.

Lemma C3_load_error_returned_once_witness :
  snd (ScanSpec.vsPull (ScanSpec.PullNext Examples.live)
         Examples.brokenVectorSelector)
  = ScanSpec.Failed "storage unavailable"%string
  /\ forall later p',
       ScanSpec.emptyOutcome
         (snd (ScanSpec.vsPull p'
                 (ScanSpec.vsPulls later
                    (fst (ScanSpec.vsPull (ScanSpec.PullNext Examples.live)
                            Examples.brokenVectorSelector))))).
Proof.
  apply (proj1 (C3_load_error_returned_once Examples.isXFunction
                  Examples.invalidSample)
           Examples.brokenVectorSelector Examples.live
           "storage unavailable"%string (ScanSpec.PullNext Examples.live)).
  - repeat split; reflexivity.
  - reflexivity.
  - right. split; [reflexivity|]. simpl. lia.
Defined.

(** C8 fails for the vector selector: [vectorSelector.Next] never looks
    at the cancellation token (once the series are loaded its result is
    the same for every token). After a first pull with a live token, a
    pull with a cancelled token returns the next batch (the step vectors
    of 45 and 60) and no error, where the claim asks for the
    cancellation error; [matrixSelector.Next], given the same token,
    does check it at entry and returns that error. *)
Theorem C8_vector_next_ignores_token :
  (forall ctx ctx' o,
      Scan.VectorSelector.once o = true ->
      Scan.VectorSelector.Next ctx o = Scan.VectorSelector.Next ctx' o)
  /\ let first := Scan.VectorSelector.Next Examples.live
                    Examples.minuteVectorSelector in
     let second := Scan.VectorSelector.Next Examples.cancelled (fst first) in
     Scan.ctxErr Examples.cancelled = Some "context canceled"%string
     /\ (exists batch,
           snd second = Scan.Ok (Some batch)
           /\ ScanSpec.timestamps batch = [45; 60])
     /\ snd second <> Scan.Err "context canceled"%string
     /\ snd (Scan.MatrixSelector.Next Examples.isXFunction
               Examples.invalidSample Examples.cancelled
               (Examples.xrateSelector 110))
        = Scan.Err "context canceled"%string.
Proof.
  split.
  - intros ctx ctx' o Honce.
    unfold Scan.VectorSelector.Next, Scan.VectorSelector.loadSeries.
    rewrite Honce. reflexivity.
  - split; [reflexivity|]. split; [|split].
    + eexists. split; reflexivity.
    + simpl. discriminate.
    + reflexivity.
Qed.

Lemma ms_Next_cancelled_token_thrice :
  Nat.iter 3
    (fun o => fst (Scan.MatrixSelector.Next Examples.isXFunction
                     Examples.invalidSample Examples.cancelled o))
    Examples.brokenMatrixSelector
  = Examples.brokenMatrixSelector
  /\ Scan.MatrixSelector.Next Examples.isXFunction Examples.invalidSample
       Examples.cancelled
       (Nat.iter 3
          (fun o => fst (Scan.MatrixSelector.Next Examples.isXFunction
                           Examples.invalidSample Examples.cancelled o))
          Examples.brokenMatrixSelector)
     = (Examples.brokenMatrixSelector, Scan.Err "context canceled"%string).
Proof.
  apply (ms_Next_cancelled_token Examples.isXFunction
           Examples.invalidSample Examples.brokenMatrixSelector
           Examples.cancelled "context canceled"%string).
  reflexivity.
Defined.


(** ** Step timestamps *)

Section StepGrid.

Import Scan ScanSpec.

Lemma progression_length (a d : Z) (n : nat) : length (progression a d n) = n.
Proof. revert a. induction n as [|n IH]; intros a; simpl; [|rewrite IH]; reflexivity. Qed.

Lemma progression_snoc (a d : Z) (n : nat) :
  progression a d (S n) = progression a d n ++ [a + Z.of_nat n * d].
Proof.
  revert a. induction n as [|n IH]; intros a.
  - simpl. f_equal. lia.
  - change (progression a d (S (S n)))
      with (a :: progression (a + d) d (S n)).
    rewrite IH. simpl. do 3 f_equal. lia.
Qed.

Lemma progression_lookup (a d : Z) (n i : nat) :
  (i < n)%nat -> progression a d n !! i = Some (a + Z.of_nat i * d).
Proof.
  revert a i. induction n as [|n IH]; intros a i Hi; [lia|].
  destruct i as [|i]; simpl.
  - f_equal. lia.
  - rewrite IH by lia. f_equal. lia.
Qed.

Lemma timestamps_alter (f : StepVector -> StepVector) (i : nat)
    (l : list StepVector) :
  (forall v, l !! i = Some v -> T (f v) = T v) ->
  timestamps (alter f i l) = timestamps l.
Proof.
  revert i. induction l as [|x l IH]; intros i Hf; [reflexivity|].
  destruct i as [|i]; simpl.
  - rewrite (Hf x) by reflexivity. reflexivity.
  - f_equal. apply IH. intros v Hv. apply Hf. exact Hv.
Qed.

Lemma timestamps_lookup (l : list StepVector) (i : nat) (v : StepVector) :
  l !! i = Some v -> timestamps l !! i = Some (T v).
Proof.
  unfold timestamps. revert i. induction l as [|x l IH]; intros [|i] Hv;
    simpl in *; try discriminate.
  - congruence.
  - apply IH. exact Hv.
Qed.

(** Making room for step [currStep] keeps the batch on the progression. *)
Lemma onProgression_room (pool : VectorPool) (ts step maxt seriesTs : Z)
    (N currStep : nat) (vectors : list StepVector) :
  seriesTs = ts + Z.of_nat currStep * step ->
  seriesTs <= maxt ->
  (currStep <= length vectors)%nat -> (currStep < N)%nat ->
  onProgression ts step maxt N vectors ->
  let vectors1 :=
    if (length vectors <=? currStep)%nat
    then vectors ++ [GetStepVector pool seriesTs] else vectors in
  onProgression ts step maxt N vectors1
  /\ (currStep < length vectors1)%nat.
Proof.
  intros Hts Hmax Hlen HN (Hprog & Hall & Hn). simpl.
  destruct (Nat.leb_spec (length vectors) currStep) as [Hle|Hgt].
  - assert (Heq : length vectors = currStep) by lia.
    split; [|rewrite length_app; simpl; lia].
    unfold onProgression, timestamps in *.
    rewrite map_app, length_app. simpl.
    replace (length vectors + 1)%nat with (S (length vectors)) by lia.
    split; [|split].
    + rewrite progression_snoc, <- Hprog, Heq, <- Hts. reflexivity.
    + apply Forall_app. split; [exact Hall|].
      constructor; [exact Hmax|constructor].
    + lia.
  - split; [repeat split; assumption|lia].
Qed.

Lemma onProgression_alter (f : StepVector -> StepVector)
    (ts step maxt : Z) (N i : nat) (vectors : list StepVector) :
  (forall v, vectors !! i = Some v -> T (f v) = T v) ->
  onProgression ts step maxt N vectors ->
  onProgression ts step maxt N (alter f i vectors).
Proof.
  intros Hf (Hprog & Hall & Hn). unfold onProgression.
  rewrite timestamps_alter by exact Hf.
  rewrite length_alter. repeat split; assumption.
Qed.

(** The inner loop of the vector selector keeps the batch on the
    progression that starts at [ts]. *)
Lemma vs_stepLoop_onProgression (pool : VectorPool)
    (maxt step lookbackDelta ts : Z) (N : nat) :
  0 <= step -> maxt + step <= Int64.max_int64 -> Int64.min_int64 <= ts ->
  forall (n currStep : nat) (seriesTs : Z)
         (sc : VectorSelector.vectorScanner) (vectors : list StepVector),
    (currStep + n = N)%nat ->
    seriesTs = ts + Z.of_nat currStep * step ->
    (currStep <= length vectors)%nat ->
    onProgression ts step maxt N vectors ->
    onProgression ts step maxt N
      (snd (VectorSelector.stepLoop pool maxt step lookbackDelta n currStep
              seriesTs sc vectors)).
Proof.
  intros Hstep Hhi Hlo.
  induction n as [|n IH]; intros currStep seriesTs sc vectors HN Hts Hlen HP;
    simpl; [exact HP|].
  destruct (Z.leb_spec seriesTs maxt) as [Hle|Hgt]; [|exact HP].
  destruct (onProgression_room pool ts step maxt seriesTs N currStep vectors
              Hts Hle Hlen ltac:(lia) HP) as [HP1 Hlen1].
  set (vectors1 := if (length vectors <=? currStep)%nat
                   then vectors ++ [GetStepVector pool seriesTs]
                   else vectors) in *.
  destruct (VectorSelector.selectPoint seriesTs lookbackDelta sc)
    as [sc' [[t v] ok]].
  apply IH.
  - lia.
  - rewrite add_in_range; [lia|].
    unfold Int64.in_range. nia.
  - destruct ok; [rewrite length_alter|]; lia.
  - destruct ok; [|exact HP1].
    apply onProgression_alter; [|exact HP1]. intros; reflexivity.
Qed.

Lemma vs_scannerLoop_onProgression (pool : VectorPool)
    (maxt step lookbackDelta ts : Z) (N : nat) :
  0 <= step -> maxt + step <= Int64.max_int64 -> Int64.min_int64 <= ts ->
  forall (scs : list VectorSelector.vectorScanner)
         (vectors : list StepVector),
    onProgression ts step maxt N vectors ->
    onProgression ts step maxt N
      (snd (VectorSelector.scannerLoop pool maxt step lookbackDelta N ts
              scs vectors)).
Proof.
  intros Hstep Hhi Hlo.
  induction scs as [|sc rest IH]; intros vectors HP; simpl; [exact HP|].
  pose proof (vs_stepLoop_onProgression pool maxt step lookbackDelta ts N
                Hstep Hhi Hlo N O ts sc vectors
                ltac:(lia) ltac:(lia) ltac:(lia) HP) as H1.
  destruct (VectorSelector.stepLoop pool maxt step lookbackDelta N 0 ts sc
              vectors) as [sc' vectors'].
  simpl in H1. specialize (IH vectors' H1).
  destruct (VectorSelector.scannerLoop pool maxt step lookbackDelta N ts
              rest vectors') as [rest' vectors''].
  exact IH.
Qed.

Lemma stepOf_pos (step : Z) : 0 <= step -> 0 < stepOf step.
Proof. unfold stepOf. destruct (Z.eqb_spec step 0); lia. Qed.

Lemma stepOf_idem (step : Z) : stepOf (stepOf step) = stepOf step.
Proof.
  unfold stepOf. destruct (Z.eqb_spec step 0) as [->|Hs]; [reflexivity|].
  destruct (Z.eqb_spec step 0); [contradiction|reflexivity].
Qed.

Lemma onProgression_weaken (ts step maxt : Z) (N N' : nat)
    (batch : list StepVector) :
  (N <= N')%nat ->
  onProgression ts step maxt N batch -> onProgression ts step maxt N' batch.
Proof. intros HN (? & ? & ?). repeat split; try assumption. lia. Qed.

Lemma onProgression_nil (ts step maxt : Z) (N : nat) :
  onProgression ts step maxt N [].
Proof. repeat split; simpl; [constructor|lia]. Qed.

(** [loadSeries] leaves the times of a vector selector alone. *)
Lemma vs_loadSeries_times (ctx : Context) (o : VectorSelector.vectorSelector) :
  let o1 := fst (VectorSelector.loadSeries ctx o) in
  VectorSelector.mint o1 = VectorSelector.mint o
  /\ VectorSelector.maxt o1 = VectorSelector.maxt o
  /\ VectorSelector.step o1 = VectorSelector.step o
  /\ VectorSelector.currentStep o1 = VectorSelector.currentStep o
  /\ VectorSelector.stepsBatch o1 = VectorSelector.stepsBatch o.
Proof.
  unfold VectorSelector.loadSeries.
  destruct (VectorSelector.once o); [simpl; auto|].
  destruct (VectorSelector.storage o ctx _ _); simpl; auto.
Qed.

(** The number of steps the vector selector takes in a pull, and how far
    they reach. *)
Lemma totalSteps_reach (mint maxt step : Z) :
  - 2 ^ 60 <= mint -> mint <= maxt -> maxt <= 2 ^ 60 -> 0 <= step ->
  let totalSteps :=
    match Int64.quot (Int64.sub maxt mint) step with
    | Some q => Int64.add q 1
    | None => 1
    end in
  1 <= totalSteps /\ stepOf step * totalSteps <= maxt - mint + stepOf step.
Proof.
  intros Hlo Hle Hhi Hs. simpl. unfold stepOf.
  destruct (Z.eqb_spec step 0) as [->|Hne].
  - simpl. lia.
  - assert (Hr : Int64.in_range (maxt - mint)).
    { unfold Int64.in_range, Int64.min_int64, Int64.max_int64. lia. }
    rewrite sub_in_range by exact Hr.
    rewrite quot_nonneg_in_range by (assumption || lia).
    pose proof (Z.div_pos (maxt - mint) step ltac:(lia) ltac:(lia)) as Hq.
    pose proof (Z.mul_div_le (maxt - mint) step ltac:(lia)) as Hm.
    rewrite add_in_range.
    + nia.
    + unfold Int64.in_range, Int64.min_int64, Int64.max_int64. nia.
Qed.

(** A pull of the vector selector keeps it on the grid and returns a
    batch on the progression that starts at [currentStep]. *)
Lemma vs_Next_onGrid (ctx : Context) (o : VectorSelector.vectorSelector) :
  vsOnGrid o ->
  vsOnGrid (fst (VectorSelector.Next ctx o))
  /\ forall batch,
       snd (VectorSelector.Next ctx o) = Ok (Some batch) ->
       onProgression (VectorSelector.currentStep o)
         (stepOf (VectorSelector.step o)) (VectorSelector.maxt o)
         (Z.to_nat (VectorSelector.stepsBatch o)) batch.
Proof.
  intros Hinv. unfold VectorSelector.Next.
  destruct (Z.ltb_spec (VectorSelector.maxt o) (VectorSelector.currentStep o))
    as [Hdone|Hcur].
  { simpl. split; [exact Hinv|]. intros batch Hb. discriminate. }
  pose proof (vs_loadSeries_times ctx o) as Hf.
  destruct (VectorSelector.loadSeries ctx o) as [o1 [err|]].
  - simpl in *. destruct Hf as (Hm & HM & Hs & Hc & Hb).
    split; [|intros batch Hbatch; discriminate].
    unfold vsOnGrid. rewrite Hm, HM, Hs, Hc, Hb. exact Hinv.
  - simpl in Hf. destruct Hf as (Hm & HM & Hs & Hc & Hb).
    rewrite Hm, HM, Hs, Hc, Hb.
    destruct Hinv as (Hlo & Hhi & Hstep & Hsb & Hcs & k & Hk & Hgrid).
    pose proof (stepOf_pos _ (proj1 Hstep)) as Hpos.
    assert (Hmin : VectorSelector.mint o <= VectorSelector.currentStep o) by nia.
    destruct (totalSteps_reach (VectorSelector.mint o) (VectorSelector.maxt o)
                (VectorSelector.step o) Hlo ltac:(lia) Hhi (proj1 Hstep))
      as [Htot Hreach].
    set (totalSteps :=
           match Int64.quot (Int64.sub (VectorSelector.maxt o)
                               (VectorSelector.mint o)) (VectorSelector.step o)
           with Some q => Int64.add q 1 | None => 1 end) in *.
    change (if VectorSelector.step o =? 0 then 1 else VectorSelector.step o)
      with (stepOf (VectorSelector.step o)).
    set (step' := stepOf (VectorSelector.step o)) in *.
    set (numSteps := Z.min (VectorSelector.stepsBatch o) totalSteps).
    assert (Hns : 0 <= numSteps <= totalSteps) by (unfold numSteps; lia).
    assert (Hstep' : step' <= 2 ^ 60).
    { unfold step', stepOf. destruct (Z.eqb_spec (VectorSelector.step o) 0); lia. }
    pose proof (vs_scannerLoop_onProgression (VectorSelector.vectorPool o1)
                  (VectorSelector.maxt o) step' (VectorSelector.lookbackDelta o1)
                  (VectorSelector.currentStep o) (Z.to_nat numSteps)
                  ltac:(lia)
                  ltac:(unfold Int64.max_int64; lia)
                  ltac:(unfold Int64.min_int64; lia)
                  (VectorSelector.scanners o1)
                  (GetVectorBatch (VectorSelector.vectorPool o1))
                  (onProgression_nil _ _ _ _)) as Hloop.
    destruct (VectorSelector.scannerLoop (VectorSelector.vectorPool o1)
                (VectorSelector.maxt o) step' (VectorSelector.lookbackDelta o1)
                (Z.to_nat numSteps) (VectorSelector.currentStep o)
                (VectorSelector.scanners o1)
                (GetVectorBatch (VectorSelector.vectorPool o1)))
      as [scanners' vectors'].
    simpl in Hloop. simpl. split.
    + assert (Hmul : Int64.mul step' numSteps = step' * numSteps).
      { apply mul_in_range.
        unfold Int64.in_range, Int64.min_int64, Int64.max_int64. nia. }
      rewrite Hmul.
      assert (Hadd : Int64.add (VectorSelector.currentStep o) (step' * numSteps)
                     = VectorSelector.currentStep o + step' * numSteps).
      { apply add_in_range.
        unfold Int64.in_range, Int64.min_int64, Int64.max_int64. nia. }
      rewrite Hadd. unfold vsOnGrid. simpl.
      repeat split; try lia; try nia.
      exists (k + numSteps). unfold step'. rewrite stepOf_idem.
      split; [lia|]. fold step'. nia.
    + intros batch Hbatch. inversion Hbatch; subst batch.
      eapply onProgression_weaken; [|exact Hloop]. unfold numSteps. lia.
Qed.

Variable IsExtFunction : string -> bool.
Variable InvalidSample : promql.Point.

Lemma recordResult_T (sig : Z) (r : promql.Point) (v : StepVector) :
  T (MatrixSelector.recordResult sig r v) = promql.T r.
Proof. unfold MatrixSelector.recordResult. destruct (promql.H r); reflexivity. Qed.

(** The inner loop of the matrix selector keeps the batch on the
    progression, as long as the range function answers at the step time. *)
Lemma ms_stepLoop_onProgression (o : MatrixSelector.matrixSelector)
    (ts : Z) (N : nat) :
  0 <= MatrixSelector.step o ->
  MatrixSelector.maxt o + MatrixSelector.step o <= Int64.max_int64 ->
  Int64.min_int64 <= ts ->
  (forall a, Point_ne (MatrixSelector.call o a) InvalidSample = true ->
             promql.T (MatrixSelector.call o a) = MatrixSelector.StepTime a) ->
  forall (n currStep : nat) (seriesTs : Z)
         (sc sc' : MatrixSelector.matrixScanner)
         (vectors vectors' : list StepVector),
    (currStep + n = N)%nat ->
    seriesTs = ts + Z.of_nat currStep * MatrixSelector.step o ->
    (currStep <= length vectors)%nat ->
    onProgression ts (MatrixSelector.step o) (MatrixSelector.maxt o) N vectors ->
    MatrixSelector.stepLoop IsExtFunction InvalidSample o n currStep seriesTs
      sc vectors = (sc', Ok vectors') ->
    onProgression ts (MatrixSelector.step o) (MatrixSelector.maxt o) N vectors'.
Proof.
  intros Hstep Hhi Hlo Hcall.
  induction n as [|n IH];
    intros currStep seriesTs sc sc' vectors vectors' HN Hts Hlen HP Hrun;
    simpl in Hrun.
  { inversion Hrun; subst. exact HP. }
  destruct (Z.leb_spec seriesTs (MatrixSelector.maxt o)) as [Hle|Hgt];
    [|inversion Hrun; subst; exact HP].
  destruct (onProgression_room (MatrixSelector.vectorPool o) ts
              (MatrixSelector.step o) (MatrixSelector.maxt o) seriesTs N
              currStep vectors Hts Hle Hlen ltac:(lia) HP) as [HP1 Hlen1].
  set (vectors1 := if (length vectors <=? currStep)%nat
                   then vectors ++ [GetStepVector (MatrixSelector.vectorPool o)
                                      seriesTs]
                   else vectors) in *.
  destruct (MatrixSelector.selectPoints IsExtFunction (MatrixSelector.samples sc)
              (Int64.sub (Int64.sub seriesTs (MatrixSelector.offset o))
                 (MatrixSelector.selectRange o))
              (Int64.sub seriesTs (MatrixSelector.offset o))
              (MatrixSelector.previousPoints sc) (MatrixSelector.funcName o)
              (MatrixSelector.extLookbackDelta o))
    as [[it' backing] [rangePoints|err]]; [|discriminate Hrun].
  destruct (Storage.Buffered_ReduceDelta _ it') as [it'' okReduce].
  eapply IH; [| | | |exact Hrun].
  - lia.
  - rewrite add_in_range; [lia|]. unfold Int64.in_range. nia.
  - match goal with
    | |- context [Point_ne ?r InvalidSample] =>
        destruct (Point_ne r InvalidSample)
    end; [rewrite length_alter|]; lia.
  - match goal with
    | |- context [Point_ne ?r InvalidSample] =>
        destruct (Point_ne r InvalidSample) eqn:Hvalid
    end; [|exact HP1].
    apply onProgression_alter; [|exact HP1].
    intros v Hv. rewrite recordResult_T, (Hcall _ Hvalid). simpl.
    apply timestamps_lookup in Hv.
    destruct HP1 as (Hprog & _ & _). rewrite Hprog in Hv.
    rewrite progression_lookup in Hv by exact Hlen1.
    inversion Hv. lia.
Qed.

Lemma ms_scannerLoop_onProgression (o : MatrixSelector.matrixSelector)
    (ts : Z) :
  0 <= MatrixSelector.step o ->
  MatrixSelector.maxt o + MatrixSelector.step o <= Int64.max_int64 ->
  Int64.min_int64 <= ts ->
  (forall a, Point_ne (MatrixSelector.call o a) InvalidSample = true ->
             promql.T (MatrixSelector.call o a) = MatrixSelector.StepTime a) ->
  forall (scs scs' : list MatrixSelector.matrixScanner)
         (vectors vectors' : list StepVector),
    onProgression ts (MatrixSelector.step o) (MatrixSelector.maxt o)
      (Z.to_nat (MatrixSelector.numSteps o)) vectors ->
    MatrixSelector.scannerLoop IsExtFunction InvalidSample o ts scs vectors
      = (scs', Ok vectors') ->
    onProgression ts (MatrixSelector.step o) (MatrixSelector.maxt o)
      (Z.to_nat (MatrixSelector.numSteps o)) vectors'.
Proof.
  intros Hstep Hhi Hlo Hcall.
  induction scs as [|sc rest IH]; intros scs' vectors vectors' HP Hrun;
    simpl in Hrun.
  { inversion Hrun; subst. exact HP. }
  destruct (MatrixSelector.stepLoop IsExtFunction InvalidSample o
              (Z.to_nat (MatrixSelector.numSteps o)) 0 ts sc vectors)
    as [sc1 [vectors1|err]] eqn:Hstep1; [|discriminate Hrun].
  pose proof (ms_stepLoop_onProgression o ts
                (Z.to_nat (MatrixSelector.numSteps o)) Hstep Hhi Hlo Hcall
                (Z.to_nat (MatrixSelector.numSteps o)) O ts sc sc1
                vectors vectors1
                ltac:(lia) ltac:(lia) ltac:(lia) HP Hstep1) as HP1.
  destruct (MatrixSelector.scannerLoop IsExtFunction InvalidSample o ts rest
              vectors1) as [rest' r] eqn:Hrest.
  inversion Hrun; subst. eapply IH; [exact HP1|exact Hrest].
Qed.

(** [loadSeries] leaves the times and the range function of a matrix
    selector alone. *)
Lemma ms_loadSeries_times (ctx : Context) (o : MatrixSelector.matrixSelector) :
  let o1 := fst (MatrixSelector.loadSeries IsExtFunction ctx o) in
  MatrixSelector.mint o1 = MatrixSelector.mint o
  /\ MatrixSelector.maxt o1 = MatrixSelector.maxt o
  /\ MatrixSelector.step o1 = MatrixSelector.step o
  /\ MatrixSelector.currentStep o1 = MatrixSelector.currentStep o
  /\ MatrixSelector.numSteps o1 = MatrixSelector.numSteps o
  /\ MatrixSelector.call o1 = MatrixSelector.call o.
Proof.
  unfold MatrixSelector.loadSeries.
  destruct (MatrixSelector.once o); [simpl; auto 10|].
  destruct (MatrixSelector.storage o ctx _ _); simpl; auto 10.
Qed.

(** A pull of the matrix selector keeps it on the grid and returns a
    batch on the progression that starts at [currentStep]. *)
Lemma ms_Next_onGrid (ctx : Context) (o : MatrixSelector.matrixSelector) :
  msOnGrid InvalidSample o ->
  msOnGrid InvalidSample
    (fst (MatrixSelector.Next IsExtFunction InvalidSample ctx o))
  /\ forall batch,
       snd (MatrixSelector.Next IsExtFunction InvalidSample ctx o)
       = Ok (Some batch) ->
       onProgression (MatrixSelector.currentStep o) (MatrixSelector.step o)
         (MatrixSelector.maxt o) (Z.to_nat (MatrixSelector.numSteps o)) batch.
Proof.
  intros Hinv. unfold MatrixSelector.Next.
  destruct (ctxErr ctx) as [e|].
  { simpl. split; [exact Hinv|]. intros batch Hb. discriminate. }
  destruct (Z.ltb_spec (MatrixSelector.maxt o) (MatrixSelector.currentStep o))
    as [Hdone|Hcur].
  { simpl. split; [exact Hinv|]. intros batch Hb. discriminate. }
  pose proof (ms_loadSeries_times ctx o) as Hf.
  destruct (MatrixSelector.loadSeries IsExtFunction ctx o) as [o1 [err|]].
  - simpl in *. destruct Hf as (Hm & HM & Hs & Hc & Hn & Hcall).
    split; [|intros batch Hbatch; discriminate].
    unfold msOnGrid. rewrite Hm, HM, Hs, Hc, Hn, Hcall. exact Hinv.
  - simpl in Hf. destruct Hf as (Hm & HM & Hs & Hc & Hn & Hcall).
    destruct Hinv as (Hlo & Hhi & Hstep & Hns & Hreach & Hcs & (k & Hk & Hgrid)
                      & Hans).
    pose proof (stepOf_pos _ (proj1 Hstep)) as Hpos.
    assert (Hmin : MatrixSelector.mint o <= MatrixSelector.currentStep o) by nia.
    assert (Hloop : forall scs vectors',
               MatrixSelector.scannerLoop IsExtFunction InvalidSample o1
                 (MatrixSelector.currentStep o1) (MatrixSelector.scanners o1)
                 (GetVectorBatch (MatrixSelector.vectorPool o1))
               = (scs, Ok vectors') ->
               onProgression (MatrixSelector.currentStep o)
                 (MatrixSelector.step o) (MatrixSelector.maxt o)
                 (Z.to_nat (MatrixSelector.numSteps o)) vectors').
    { intros scs vectors' Hrun.
      rewrite <- Hc, <- Hs, <- HM, <- Hn.
      eapply ms_scannerLoop_onProgression; [| | | | |exact Hrun].
      - lia.
      - rewrite HM, Hs. unfold Int64.max_int64. lia.
      - rewrite Hc. unfold Int64.min_int64. lia.
      - rewrite Hcall. exact Hans.
      - apply onProgression_nil. }
    destruct (MatrixSelector.scannerLoop IsExtFunction InvalidSample o1
                (MatrixSelector.currentStep o1) (MatrixSelector.scanners o1)
                (GetVectorBatch (MatrixSelector.vectorPool o1)))
      as [scs [vectors'|err]].
    + simpl. split.
      * change (if MatrixSelector.step o1 =? 0 then 1
                else MatrixSelector.step o1)
          with (stepOf (MatrixSelector.step o1)).
        rewrite Hs, Hn, Hc.
        set (step' := stepOf (MatrixSelector.step o)) in *.
        assert (Hstep' : step' <= 2 ^ 60).
        { unfold step', stepOf.
          destruct (Z.eqb_spec (MatrixSelector.step o) 0); lia. }
        assert (Hmul : Int64.mul step' (MatrixSelector.numSteps o)
                       = step' * MatrixSelector.numSteps o).
        { apply mul_in_range.
          unfold Int64.in_range, Int64.min_int64, Int64.max_int64. nia. }
        rewrite Hmul.
        assert (Hadd : Int64.add (MatrixSelector.currentStep o)
                         (step' * MatrixSelector.numSteps o)
                       = MatrixSelector.currentStep o
                         + step' * MatrixSelector.numSteps o).
        { apply add_in_range.
          unfold Int64.in_range, Int64.min_int64, Int64.max_int64. nia. }
        rewrite Hadd. unfold msOnGrid. simpl.
        rewrite Hm, HM, Hn, Hcall. unfold step'. rewrite stepOf_idem.
        fold step'.
        repeat split; try lia; try nia; try exact Hans.
        exists (k + MatrixSelector.numSteps o). split; [lia|nia].
      * intros batch Hbatch. inversion Hbatch; subst batch.
        eapply Hloop. reflexivity.
    + simpl. split; [|intros batch Hbatch; discriminate].
      unfold msOnGrid. simpl. rewrite Hm, HM, Hs, Hc, Hn, Hcall.
      repeat split; try lia; try exact Hans. exists k. auto.
Qed.

(** C7. The timestamps of every batch a selector returns form the
    arithmetic progression that starts at [currentStep] and advances by
    the step, stay at or before [maxt], and lie on the grid
    [mint + k * step] (step 1 for an instant query); the batch holds at
    most the batch budget of step vectors. This is an invariant of the
    operators: it holds of a new operator and every pull keeps it
    (times within 2^60 ms of the epoch and a range function that answers
    at the step time it is given). *)
Theorem C7_batch_timestamps_on_step_grid :
  (forall pool selector mint maxt step lookbackDelta stepsBatch shard numShards,
      - 2 ^ 60 <= mint -> mint <= 2 ^ 60 -> maxt <= 2 ^ 60 ->
      0 <= step <= 2 ^ 60 -> 0 <= stepsBatch <= 2 ^ 53 ->
      vsOnGrid (VectorSelector.NewVectorSelector pool selector mint maxt step
                  lookbackDelta stepsBatch shard numShards))
  /\ (forall ctx o,
         vsOnGrid o ->
         vsOnGrid (fst (VectorSelector.Next ctx o))
         /\ forall batch,
              snd (VectorSelector.Next ctx o) = Ok (Some batch) ->
              exists k, 0 <= k
                /\ VectorSelector.currentStep o
                   = VectorSelector.mint o
                     + k * stepOf (VectorSelector.step o)
                /\ onProgression (VectorSelector.currentStep o)
                     (stepOf (VectorSelector.step o)) (VectorSelector.maxt o)
                     (Z.to_nat (VectorSelector.stepsBatch o)) batch)
  /\ (forall pool selector call funcName numSteps start end_ step selectRange
             offset shard numShard extLookbackDelta,
         - 2 ^ 60 <= start -> start <= 2 ^ 60 -> end_ <= 2 ^ 60 ->
         0 <= step <= 2 ^ 60 -> 0 <= numSteps ->
         stepOf step * numSteps <= 2 ^ 61 ->
         (forall a, Point_ne (call a) InvalidSample = true ->
                    promql.T (call a) = MatrixSelector.StepTime a) ->
         msOnGrid InvalidSample
           (MatrixSelector.NewMatrixSelector pool selector call funcName
              numSteps start end_ step selectRange offset shard numShard
              extLookbackDelta))
  /\ (forall ctx o,
         msOnGrid InvalidSample o ->
         msOnGrid InvalidSample
           (fst (MatrixSelector.Next IsExtFunction InvalidSample ctx o))
         /\ forall batch,
              snd (MatrixSelector.Next IsExtFunction InvalidSample ctx o)
              = Ok (Some batch) ->
              exists k, 0 <= k
                /\ MatrixSelector.currentStep o
                   = MatrixSelector.mint o
                     + k * stepOf (MatrixSelector.step o)
                /\ onProgression (MatrixSelector.currentStep o)
                     (MatrixSelector.step o) (MatrixSelector.maxt o)
                     (Z.to_nat (MatrixSelector.numSteps o)) batch).
Proof.
  split; [|split; [|split]].
  - intros. unfold vsOnGrid. simpl. repeat split; try lia.
    exists 0. split; lia.
  - intros ctx o Hinv. destruct (vs_Next_onGrid ctx o Hinv) as [Hnext Hbatch].
    split; [exact Hnext|]. intros batch Hb.
    destruct Hinv as (_ & _ & _ & _ & _ & k & Hk & Hgrid).
    exists k. auto.
  - intros. unfold msOnGrid. simpl. repeat split; try lia; try assumption.
    exists 0. split; lia.
  - intros ctx o Hinv. destruct (ms_Next_onGrid ctx o Hinv) as [Hnext Hbatch].
    split; [exact Hnext|]. intros batch Hb.
    destruct Hinv as (_ & _ & _ & _ & _ & _ & (k & Hk & Hgrid) & _).
    exists k. auto.
Qed.

End StepGrid.


(** ** Stale samples *)

Section StaleSamples.

Import Scan ScanSpec.
Import Storage promql MatrixSelector.

Variable IsExtFunction : string -> bool.
Variable InvalidSample : Point.

Lemma staleFree_skipn (n : nat) (pts : list Point) :
  staleFree pts -> staleFree (skipn n pts).
Proof.
  unfold staleFree. revert n. induction pts as [|p pts IH]; intros [|n] H;
    simpl; try assumption.
  apply IH. inversion H; assumption.
Qed.

Lemma staleFree_snoc (pts : list Point) (p : Point) :
  staleFree pts -> IsStaleNaN (V p) = false -> staleFree (pts ++ [p]).
Proof.
  intros H Hp. apply Forall_app. split; [exact H|].
  constructor; [exact Hp|constructor].
Qed.

Lemma bufferTurn_staleFree (extRange : bool) (mint : Z)
    (st : list Point * bool) (s : Sample) :
  staleFree (fst st) -> staleFree (fst (bufferTurn extRange mint st s)).
Proof.
  destruct st as [out appended]. simpl. intros H.
  destruct (sValue s) as [v|h|h].
  - destruct (IsStaleNaN v) eqn:Hv; [exact H|].
    destruct (negb extRange).
    + destruct (mint <=? sT s); [|exact H].
      apply staleFree_snoc; [exact H|exact Hv].
    + destruct ((mint <? sT s) || negb appended).
      * apply staleFree_snoc; [exact H|exact Hv].
      * simpl. unfold setLast. apply Forall_insert; [exact H|exact Hv].
  - destruct (mint <=? sT s); [|exact H].
    apply staleFree_snoc; [exact H|reflexivity].
  - destruct (mint <=? sT s); [|exact H].
    apply staleFree_snoc; [exact H|reflexivity].
Qed.

Lemma bufferLoop_staleFree (extRange : bool) (mint : Z) (buffer : list Sample)
    (st : list Point * bool) :
  staleFree (fst st) ->
  staleFree (fst (foldl (bufferTurn extRange mint) st buffer)).
Proof.
  revert st. induction buffer as [|s buffer IH]; intros st H; simpl;
    [exact H|].
  apply IH, bufferTurn_staleFree, H.
Qed.

Lemma appendSought_staleFree (maxt : Z) (vt : ValueType)
    (it : BufferedSeriesIterator) (out : list Point) :
  staleFree out -> staleFree (appendSought maxt vt it out).
Proof.
  intros H. unfold appendSought. destruct vt; try exact H.
  - destruct (Buffered_At it) as [t v].
    destruct (IsStaleNaN v) eqn:Hv.
    + rewrite andb_false_r. exact H.
    + destruct ((t =? maxt) && negb false); [|exact H].
      apply staleFree_snoc; [exact H|exact Hv].
  - destruct (Buffered_AtFloatHistogram it) as [t h].
    destruct (t =? maxt); [|exact H].
    apply staleFree_snoc; [exact H|reflexivity].
  - destruct (Buffered_AtFloatHistogram it) as [t h].
    destruct (t =? maxt); [|exact H].
    apply staleFree_snoc; [exact H|reflexivity].
Qed.

(** [selectPoints] neither returns nor leaves behind a stale-NaN point
    when it was given none. *)
Lemma selectPoints_staleFree (it : BufferedSeriesIterator) (mint maxt : Z)
    (out : list Point) (functionName : string) (extLookbackDelta : Z) :
  staleFree out ->
  staleFree (snd (fst (selectPoints IsExtFunction it mint maxt out
                         functionName extLookbackDelta)))
  /\ forall pts,
       snd (selectPoints IsExtFunction it mint maxt out functionName
              extLookbackDelta) = Ok pts ->
       staleFree pts.
Proof.
  intros H. unfold selectPoints.
  set (overlap := match last out with
                  | Some lastPoint => mint <=? T lastPoint
                  | None => false
                  end).
  destruct (if overlap
            then reusePrefix (IsExtFunction functionName) mint
                   (if IsExtFunction functionName
                    then Int64.sub mint extLookbackDelta else 0) out
            else (length out, mint)) as [drop mint1].
  assert (Hback : staleFree (if overlap
                             then skipn drop out
                                  ++ skipn (length out - drop) out
                             else out)).
  { destruct overlap; [|exact H].
    apply Forall_app. split; apply staleFree_skipn, H. }
  destruct (Buffered_Seek maxt it) as [it1 soughtValueType].
  pose proof (bufferLoop_staleFree (IsExtFunction functionName) mint1
                (Buffered_Buffer it1)
                (skipn drop out, (0 <? length (skipn drop out))%nat)
                (staleFree_skipn drop out H)) as Hloop.
  destruct (foldl (bufferTurn (IsExtFunction functionName) mint1)
              (skipn drop out, (0 <? length (skipn drop out))%nat)
              (Buffered_Buffer it1)) as [out2 appended].
  simpl in Hloop.
  assert (Hres : staleFree (appendSought maxt soughtValueType it1 out2))
    by (apply appendSought_staleFree, Hloop).
  destruct soughtValueType; simpl;
    try (split; [exact Hback|intros pts Hp; inversion Hp; subst; exact Hres]).
  destruct (Buffered_Err it1); simpl;
    split; try exact Hback; intros pts Hp; inversion Hp; subst; exact Hres.
Qed.

(** The inner loop hands the range function stale-free windows only: its
    run is the same under any function that agrees with [call] on them;
    and the point buffer it leaves is stale-free again. *)
Lemma stepLoop_staleFree (o : matrixSelector)
    (call' : FunctionArgs -> Point) :
  (forall a, staleFree (Points a) -> call' a = call o a) ->
  forall (n currStep : nat) (seriesTs : Z) (sc : matrixScanner)
         (vectors : list StepVector),
    staleFree (previousPoints sc) ->
    stepLoop IsExtFunction InvalidSample (setCall call' o) n currStep
      seriesTs sc vectors
    = stepLoop IsExtFunction InvalidSample o n currStep seriesTs sc vectors
    /\ staleFree (previousPoints
                    (fst (stepLoop IsExtFunction InvalidSample o n currStep
                            seriesTs sc vectors))).
Proof.
  intros Hcall.
  induction n as [|n IH]; intros currStep seriesTs sc vectors Hsc;
    cbn [stepLoop setCall maxt vectorPool offset selectRange funcName
         extLookbackDelta call step]; [split; [reflexivity|exact Hsc]|].
  destruct (seriesTs <=? maxt o); [|split; [reflexivity|exact Hsc]].
  pose proof (selectPoints_staleFree (samples sc)
                (Int64.sub (Int64.sub seriesTs (offset o)) (selectRange o))
                (Int64.sub seriesTs (offset o)) (previousPoints sc)
                (funcName o) (extLookbackDelta o) Hsc) as [Hback Hpts].
  destruct (selectPoints IsExtFunction (samples sc)
              (Int64.sub (Int64.sub seriesTs (offset o)) (selectRange o))
              (Int64.sub seriesTs (offset o)) (previousPoints sc)
              (funcName o) (extLookbackDelta o))
    as [[it' backing] [rangePoints|err]]; simpl in Hback, Hpts.
  - specialize (Hpts rangePoints eq_refl).
    rewrite (Hcall {| FLabels := labels sc; Points := rangePoints;
                      StepTime := seriesTs; SelectRange := selectRange o;
                      Offset := offset o |}) by exact Hpts.
    destruct (Buffered_ReduceDelta _ it') as [it'' okReduce].
    apply IH. exact Hpts.
  - split; [reflexivity|exact Hback].
Qed.

Lemma scannerLoop_staleFree (o : matrixSelector)
    (call' : FunctionArgs -> Point) :
  (forall a, staleFree (Points a) -> call' a = call o a) ->
  forall (ts : Z) (scs : list matrixScanner) (vectors : list StepVector),
    Forall (fun sc => staleFree (previousPoints sc)) scs ->
    scannerLoop IsExtFunction InvalidSample (setCall call' o) ts scs vectors
    = scannerLoop IsExtFunction InvalidSample o ts scs vectors
    /\ Forall (fun sc => staleFree (previousPoints sc))
         (fst (scannerLoop IsExtFunction InvalidSample o ts scs vectors)).
Proof.
  intros Hcall ts.
  induction scs as [|sc rest IH]; intros vectors Hall;
    cbn [scannerLoop setCall numSteps]; [split; [reflexivity|constructor]|].
  inversion Hall as [|? ? Hsc Hrest]; subst.
  destruct (stepLoop_staleFree o call' Hcall (Z.to_nat (numSteps o)) O ts sc
              vectors Hsc) as [-> Hsc'].
  destruct (stepLoop IsExtFunction InvalidSample o (Z.to_nat (numSteps o)) 0
              ts sc vectors) as [sc' [vectors'|err]]; simpl in Hsc'.
  - destruct (IH vectors' Hrest) as [-> Hrest'].
    destruct (scannerLoop IsExtFunction InvalidSample o ts rest vectors')
      as [rest' r]. simpl in *.
    split; [reflexivity|constructor; assumption].
  - simpl. split; [reflexivity|constructor; assumption].
Qed.

Lemma loadSeries_setCall (ctx : Context) (o : matrixSelector)
    (call' : FunctionArgs -> Point) :
  loadSeries IsExtFunction ctx (setCall call' o)
  = (setCall call' (fst (loadSeries IsExtFunction ctx o)),
     snd (loadSeries IsExtFunction ctx o)).
Proof.
  unfold loadSeries. simpl.
  destruct (once o); [reflexivity|].
  destruct (storage o ctx (shard o) (numShards o)); reflexivity.
Qed.

Lemma loadSeries_staleFree (ctx : Context) (o : matrixSelector) :
  msStaleFree o -> msStaleFree (fst (loadSeries IsExtFunction ctx o)).
Proof.
  unfold msStaleFree, loadSeries. intros H.
  destruct (once o); [exact H|].
  destruct (storage o ctx (shard o) (numShards o)) as [ss|e]; simpl;
    [|exact H].
  induction ss as [|s ss IH]; simpl; constructor; [constructor|exact IH].
Qed.

(** C9. No stale-NaN value is in a point list handed to the range
    function. [selectPoints] returns (and leaves behind) stale-free
    points when the previous output it was given is stale-free; the point
    buffers of a matrix selector are empty at first and stay stale-free
    through every [Next] and [Series]; and [Next] behaves the same under
    any range function that agrees with [call] on the stale-free
    windows, so these are the only ones it is ever applied to. *)
Theorem C9_no_stale_point_reaches_function :
  (forall it mint maxt out functionName extLookbackDelta,
      staleFree out ->
      staleFree (snd (fst (selectPoints IsExtFunction it mint maxt out
                             functionName extLookbackDelta)))
      /\ forall pts,
           snd (selectPoints IsExtFunction it mint maxt out functionName
                  extLookbackDelta) = Ok pts ->
           staleFree pts)
  /\ (forall pool selector call funcName numSteps start end_ step selectRange
             offset shard numShard extLookbackDelta,
         msStaleFree (NewMatrixSelector pool selector call funcName numSteps
                        start end_ step selectRange offset shard numShard
                        extLookbackDelta))
  /\ (forall ctx o,
         msStaleFree o ->
         msStaleFree (fst (Next IsExtFunction InvalidSample ctx o))
         /\ msStaleFree (fst (Series IsExtFunction ctx o)))
  /\ (forall ctx o call',
         msStaleFree o ->
         (forall a, staleFree (Points a) -> call' a = call o a) ->
         Next IsExtFunction InvalidSample ctx (setCall call' o)
         = (setCall call' (fst (Next IsExtFunction InvalidSample ctx o)),
            snd (Next IsExtFunction InvalidSample ctx o))).
Proof.
  split; [|split; [|split]].
  - intros. apply selectPoints_staleFree. assumption.
  - intros. constructor.
  - intros ctx o Ho. split.
    + unfold Next. destruct (ctxErr ctx); [exact Ho|].
      destruct (maxt o <? currentStep o); [exact Ho|].
      pose proof (loadSeries_staleFree ctx o Ho) as H1.
      destruct (loadSeries IsExtFunction ctx o) as [o1 [err|]]; [exact H1|].
      simpl in H1.
      destruct (scannerLoop_staleFree o1 (call o1) (fun _ _ => eq_refl)
                  (currentStep o1) (scanners o1)
                  (GetVectorBatch (vectorPool o1)) H1) as [_ H2].
      destruct (scannerLoop IsExtFunction InvalidSample o1 (currentStep o1)
                  (scanners o1) (GetVectorBatch (vectorPool o1)))
        as [scs [vectors'|err]]; exact H2.
    + unfold Series.
      pose proof (loadSeries_staleFree ctx o Ho) as H1.
      destruct (loadSeries IsExtFunction ctx o) as [o1 [err|]]; exact H1.
  - intros ctx o call' Ho Hcall. unfold Next.
    destruct (ctxErr ctx); [reflexivity|].
    cbn [setCall maxt currentStep].
    destruct (maxt o <? currentStep o); [reflexivity|].
    rewrite loadSeries_setCall.
    pose proof (loadSeries_staleFree ctx o Ho) as H1.
    pose proof (ms_loadSeries_times IsExtFunction ctx o)
      as (_ & _ & _ & _ & _ & Hc).
    destruct (loadSeries IsExtFunction ctx o) as [o1 [err|]];
      [reflexivity|].
    simpl in H1, Hc.
    cbn [fst snd setCall vectorPool currentStep scanners step numSteps].
    destruct (scannerLoop_staleFree o1 call'
                ltac:(intros a Ha; rewrite Hc; apply Hcall, Ha)
                (currentStep o1) (scanners o1)
                (GetVectorBatch (vectorPool o1)) H1) as [-> _].
    destruct (scannerLoop IsExtFunction InvalidSample o1 (currentStep o1)
                (scanners o1) (GetVectorBatch (vectorPool o1)))
      as [scs [vectors'|err]]; reflexivity.
Qed.

End StaleSamples.


(** ** Lookback on a scanner that has not passed the step *)

Section VectorLookback.
Import Scan ScanSpec VectorSelector.

Lemma SeekTurn_None (ts : Z) (sc sc' : vectorScanner) :
  SeekTurn ts sc = (sc', None) ->
  exists s, remaining (samples sc) = s :: remaining (samples sc')
            /\ current (samples sc') = Some s /\ sT s < ts
            /\ pastFirstIteration sc' = true.
Proof.
  unfold SeekTurn, Iterator_Next.
  destruct (pastFirstIteration sc);
    [destruct (Iterator_At (samples sc)) as [t v]|]; simpl;
    destruct (remaining (samples sc)) as [|s r]; simpl; try discriminate;
    destruct (Z.leb_spec ts (sT s)) as [Hle|Hgt]; intros Heq;
    inversion Heq; subst; simpl;
    exists s; repeat split; try reflexivity; lia.
Qed.

(** Fuel beyond the number of remaining samples changes nothing: the loop
    of [Seek] always leaves by one of its [return]s. *)
Lemma SeekLoop_fuel (ts : Z) (n m : nat) (sc : vectorScanner) :
  (length (remaining (samples sc)) <= n)%nat ->
  (length (remaining (samples sc)) <= m)%nat ->
  SeekLoop n ts sc = SeekLoop m ts sc.
Proof.
  revert m sc. induction n as [|n IH]; intros m sc Hn Hm.
  - destruct m as [|m]; [reflexivity|]. simpl.
    destruct (SeekTurn ts sc) as [sc' [b|]] eqn:Hturn; [reflexivity|].
    apply SeekTurn_None in Hturn. destruct Hturn as (s & Hrem & _).
    rewrite Hrem in Hn. simpl in Hn. lia.
  - simpl. destruct (SeekTurn ts sc) as [sc' [b|]] eqn:Hturn.
    + destruct m; simpl; rewrite Hturn; reflexivity.
    + pose proof Hturn as Hturn'.
      apply SeekTurn_None in Hturn'. destruct Hturn' as (s & Hrem & _).
      rewrite Hrem in Hn, Hm. simpl in Hn, Hm.
      destruct m as [|m]; [lia|]. simpl. rewrite Hturn.
      apply IH; lia.
Qed.

Lemma latest_none (ts : Z) (l : list Sample) :
  Forall (fun s => ts < sT s) l -> latestAtOrBefore ts l = None.
Proof.
  unfold latestAtOrBefore. induction 1 as [|s l Hs _ IH]; [reflexivity|].
  simpl. destruct (Z.leb_spec (sT s) ts); [lia|exact IH].
Qed.

Lemma latest_cons_before (ts : Z) (c : Sample) (l : list Sample) :
  sT c <= ts ->
  latestAtOrBefore ts (c :: l)
  = match latestAtOrBefore ts l with Some p => Some p | None => Some c end.
Proof.
  intros Hc. unfold latestAtOrBefore. simpl.
  destruct (Z.leb_spec (sT c) ts); [|lia]. apply last_cons.
Qed.

Lemma increasing_tail_after (ts : Z) (s : Sample) (l : list Sample) :
  vsIncreasing (s :: l) -> ts <= sT s -> Forall (fun x => ts < sT x) l.
Proof.
  intros Hs Hts. inversion Hs as [|? ? _ Hall]; subst.
  eapply Forall_impl; [exact Hall|]. simpl. intros x Hx. lia.
Qed.


Lemma seekPost_latest (ts : Z) (l l' : list Sample) (sc : vectorScanner)
    (ok : bool) :
  latestAtOrBefore ts l = latestAtOrBefore ts l' ->
  seekPost ts l sc ok -> seekPost ts l' sc ok.
Proof. unfold seekPost. intros ->. exact id. Qed.

(** [Seek] from a sample before [ts]. *)
Lemma SeekLoop_running (ts : Z) :
  forall (l : list Sample) (c : Sample) (fuel : nat) (sc : vectorScanner),
    current (samples sc) = Some c ->
    remaining (samples sc) = l ->
    pastFirstIteration sc = true ->
    sT c < ts ->
    vsIncreasing (c :: l) ->
    (length l <= fuel)%nat ->
    seekPost ts (c :: l) (fst (SeekLoop fuel ts sc)) (snd (SeekLoop fuel ts sc)).
Proof.
  induction l as [|s r IH]; intros c fuel sc Hcur Hrem Hpast Hc Hinc Hfuel.
  - assert (Hturn : exists sc', SeekTurn ts sc = (sc', Some false)
                      /\ hasPrev sc' = true /\ prevTime sc' = sT c
                      /\ prevValue sc' = sV c).
    { unfold SeekTurn, Iterator_At, Iterator_Next.
      rewrite Hpast, Hcur. simpl. rewrite Hrem. simpl.
      eexists. split; [reflexivity|]. simpl. auto. }
    destruct Hturn as (sc' & Hturn & Hp & Ht & Hv).
    assert (Hloop : SeekLoop fuel ts sc = (sc', false))
      by (destruct fuel; simpl; rewrite Hturn; reflexivity).
    rewrite Hloop. simpl. right. split; [left; reflexivity|].
    rewrite latest_cons_before by lia. simpl. auto.
  - inversion Hinc as [|? ? Hinc' Hall]; subst.
    destruct (Z.leb_spec ts (sT s)) as [Hle|Hgt].
    + assert (Hturn : exists sc', SeekTurn ts sc = (sc', Some true)
                        /\ hasPrev sc' = true /\ prevTime sc' = sT c
                        /\ prevValue sc' = sV c /\ At sc' = (sT s, sV s)).
      { unfold SeekTurn, Iterator_At, Iterator_Next.
        rewrite Hpast, Hcur. simpl. rewrite Hrem. simpl.
        destruct (Z.leb_spec ts (sT s)); [|lia].
        eexists. split; [reflexivity|]. simpl. auto. }
      destruct Hturn as (sc' & Hturn & Hp & Ht & Hv & Hat).
      assert (Hloop : SeekLoop fuel ts sc = (sc', true))
        by (destruct fuel; simpl; rewrite Hturn; reflexivity).
      rewrite Hloop. simpl.
      pose proof (latest_none ts r (increasing_tail_after ts s r Hinc' Hle))
        as Hr.
      destruct (Z.eq_dec (sT s) ts) as [Heq|Hne].
      * left. split; [reflexivity|]. exists s.
        rewrite latest_cons_before by lia.
        rewrite latest_cons_before by lia. rewrite Hr. auto.
      * right. split; [right; rewrite Hat; simpl; split; [reflexivity|lia]|].
        rewrite latest_cons_before by lia.
        rewrite (latest_none ts (s :: r)); [auto|].
        constructor; [lia|].
        apply (increasing_tail_after ts s r Hinc' Hle).
    + assert (Hturn : exists sc', SeekTurn ts sc = (sc', None)
                        /\ current (samples sc') = Some s
                        /\ remaining (samples sc') = r
                        /\ pastFirstIteration sc' = true).
      { unfold SeekTurn, Iterator_At, Iterator_Next.
        rewrite Hpast, Hcur. simpl. rewrite Hrem. simpl.
        destruct (Z.leb_spec ts (sT s)); [lia|].
        eexists. split; [reflexivity|]. simpl. auto. }
      destruct Hturn as (sc' & Hturn & Hcur' & Hrem' & Hpast').
      destruct fuel as [|fuel]; [simpl in Hfuel; lia|].
      simpl. rewrite Hturn.
      eapply seekPost_latest;
        [|apply (IH s fuel sc' Hcur' Hrem' Hpast' Hgt Hinc');
          simpl in Hfuel; lia].
      rewrite (latest_cons_before ts c) by lia.
      rewrite (latest_cons_before ts s) by lia.
      destruct (latestAtOrBefore ts r); reflexivity.
Qed.

(** [Seek] on a scanner that was never used. *)
Lemma Seek_fresh (ts : Z) (ser : signedSeries) :
  vsIncreasing (ssSamples ser) ->
  seekPost ts (ssSamples ser)
    (fst (Seek ts (newScanner ser))) (snd (Seek ts (newScanner ser))).
Proof.
  intros Hinc. unfold Seek, newScanner. simpl.
  destruct (ssSamples ser) as [|s r] eqn:Hser; simpl.
  - right. split; [left; reflexivity|]. reflexivity.
  - unfold SeekTurn, Iterator_Next. simpl.
    destruct (Z.leb_spec ts (sT s)) as [Hle|Hgt]; simpl.
    + inversion Hinc as [|? ? Hinc' Hall]; subst.
      pose proof (latest_none ts r (increasing_tail_after ts s r Hinc Hle))
        as Hr.
      destruct (Z.eq_dec (sT s) ts) as [Heq|Hne].
      * left. split; [reflexivity|]. exists s.
        rewrite latest_cons_before by lia. rewrite Hr. auto.
      * right. split; [right; simpl; split; [reflexivity|lia]|].
        rewrite (latest_none ts (s :: r)); [reflexivity|].
        constructor; [lia|].
        apply (increasing_tail_after ts s r Hinc Hle).
    + apply (SeekLoop_running ts r s); try reflexivity; assumption.
Qed.

(** From what [Seek] leaves to what [selectPoint] returns. *)
Lemma selectPoint_of_seekPost (ts lookbackDelta : Z)
    (series : list Sample) (sc : vectorScanner) :
  0 <= lookbackDelta -> Int64.in_range (ts - lookbackDelta) ->
  seekPost ts series (fst (Seek ts sc)) (snd (Seek ts sc)) ->
  snd (selectPoint ts lookbackDelta sc) = lookbackSample ts lookbackDelta series.
Proof.
  intros Hlb Hrange Hpost. unfold selectPoint, lookbackSample.
  rewrite sub_in_range by exact Hrange.
  destruct (Seek ts sc) as [sc' ok]. simpl in Hpost.
  destruct Hpost as [(-> & s & Hlatest & Hat & Hs)|[Hfall Hprev]].
  - rewrite Hlatest, Hat. rewrite Hs.
    replace (ts <? ts) with false by (symmetry; apply Z.ltb_ge; lia).
    replace (ts <? ts - lookbackDelta) with false
      by (symmetry; apply Z.ltb_ge; lia).
    simpl. destruct (IsStaleNaN (sV s)); reflexivity.
  - assert (Hfb : (let '(t, _) := if ok then At sc' else (0, 0) in
                   negb ok || (ts <? t)) = true).
    { destruct Hfall as [->|[-> Hlt]]; [reflexivity|].
      destruct (At sc') as [t v]. simpl in *. apply Z.ltb_lt. exact Hlt. }
    destruct (if ok then At sc' else (0, 0)) as [t v].
    rewrite Hfb.
    destruct (latestAtOrBefore ts series) as [p|].
    + destruct Hprev as (-> & -> & -> & Hp). simpl.
      destruct (sT p <? ts - lookbackDelta); [reflexivity|]. simpl.
      destruct (IsStaleNaN (sV p)); reflexivity.
    + rewrite Hprev. reflexivity.
Qed.

(** On a scanner that was never used, [selectPoint] returns what the
    specification asks for. *)
Lemma selectPoint_fresh (ts lookbackDelta : Z) (ser : signedSeries) :
  0 <= lookbackDelta -> Int64.in_range (ts - lookbackDelta) ->
  vsIncreasing (ssSamples ser) ->
  snd (selectPoint ts lookbackDelta (newScanner ser))
  = lookbackSample ts lookbackDelta (ssSamples ser).
Proof.
  intros Hlb Hrange Hinc.
  apply selectPoint_of_seekPost; [assumption..|]. apply Seek_fresh, Hinc.
Qed.

End VectorLookback.

(** ** The window of a series that was never read *)

Section FreshWindow.
Import Scan ScanSpec Storage.

Lemma Buffered_Next_consumes (b b' : BufferedSeriesIterator) (vt : ValueType) :
  Buffered_Next b = (b', vt) -> vt <> ValNone ->
  exists s, remaining (it b) = s :: remaining (it b').
Proof.
  unfold Buffered_Next, Iterator_Next. intros Hn Hvt.
  destruct (valueType b);
    try (inversion Hn; subst; contradiction);
    destruct (remaining (it b)) as [|s r]; simpl in Hn; inversion Hn; subst;
    try contradiction; exists s; reflexivity.
Qed.

(** Fuel beyond the number of remaining samples changes nothing: the loop
    of [Seek] always leaves by its [return]. *)
Lemma seekLoop_fuel (t : Z) (n m : nat) (b : BufferedSeriesIterator) :
  (length (remaining (it b)) <= n)%nat ->
  (length (remaining (it b)) <= m)%nat ->
  seekLoop n t b = seekLoop m t b.
Proof.
  revert m b. induction n as [|n IH]; intros m b Hn Hm.
  - destruct m as [|m]; [reflexivity|]. simpl.
    destruct (Buffered_Next b) as [b' vt] eqn:Hnext.
    destruct (bool_decide (vt = ValNone) || (t <=? lastTime b')) eqn:Hexit;
      [reflexivity|].
    apply orb_false_iff in Hexit. destruct Hexit as [Hvt _].
    apply bool_decide_eq_false in Hvt.
    destruct (Buffered_Next_consumes b b' vt Hnext Hvt) as (s & Hrem).
    rewrite Hrem in Hn. simpl in Hn. lia.
  - simpl. destruct (Buffered_Next b) as [b' vt] eqn:Hnext.
    destruct (bool_decide (vt = ValNone) || (t <=? lastTime b')) eqn:Hexit.
    + destruct m; simpl; rewrite Hnext, Hexit; reflexivity.
    + pose proof Hexit as Hexit'.
      apply orb_false_iff in Hexit'. destruct Hexit' as [Hvt _].
      apply bool_decide_eq_false in Hvt.
      destruct (Buffered_Next_consumes b b' vt Hnext Hvt) as (s & Hrem).
      rewrite Hrem in Hn, Hm. simpl in Hn, Hm.
      destruct m as [|m]; [lia|]. simpl. rewrite Hnext, Hexit.
      apply IH; lia.
Qed.

Lemma dropOld_keep (tmin : Z) (l : list Sample) :
  Forall (fun s => tmin <= sT s) l -> dropOld tmin l = l.
Proof.
  intros H. destruct H as [|s l Hs _]; [reflexivity|]. simpl.
  destruct (Z.ltb_spec (sT s) tmin); [lia|reflexivity].
Qed.


Lemma typeOf_not_none (s : Sample) : typeOf s <> ValNone.
Proof. unfold typeOf. destruct (sValue s); discriminate. Qed.

Lemma Buffered_Next_step (b : BufferedSeriesIterator) (c : Sample) :
  valueType b = typeOf c -> current (it b) = Some c ->
  Buffered_Next b
  = (let '(i', vt) := Iterator_Next (it b) in
     ({| it := i'; ring := ring_add c (ring b); bdelta := bdelta b;
         lastTime := if bool_decide (vt = ValNone) then lastTime b
                     else Iterator_AtT i';
         valueType := vt |}, vt)).
Proof.
  intros Hvt Hcur. unfold Buffered_Next. rewrite Hcur, Hvt.
  unfold typeOf. destruct (sValue c); reflexivity.
Qed.

Lemma filter_all_after (hi : Z) (l : list Sample) :
  Forall (fun s => hi <= sT s) l ->
  List.filter (fun s => sT s <? hi) l = [].
Proof.
  induction 1 as [|s l Hs _ IH]; [reflexivity|]. simpl.
  destruct (Z.ltb_spec (sT s) hi); [lia|exact IH].
Qed.

Lemma msIncreasing_tail_from (hi : Z) (s : Sample) (l : list Sample) :
  msIncreasing (s :: l) -> hi <= sT s -> Forall (fun x => hi <= sT x) l.
Proof.
  intros Hs Hhi. inversion Hs as [|? ? _ Hall]; subst.
  eapply Forall_impl; [exact Hall|]. simpl. intros x Hx. lia.
Qed.

(** The loop of [Seek] from a sample inside the window: everything up to
    [hi] enters the ring and nothing leaves it. *)
Lemma seekLoop_collect (hi d : Z) :
  0 <= d <= 2 ^ 61 -> - 2 ^ 61 <= hi <= 2 ^ 61 ->
  forall (l : list Sample) (c : Sample) (B : list Sample) (fuel : nat)
         (b : BufferedSeriesIterator),
    it b = {| current := Some c; remaining := l; failure := None;
              exhausted := false |} ->
    valueType b = typeOf c ->
    ring b = {| delta := d; buf := B |} ->
    hi - d <= sT c -> sT c < hi ->
    Forall (fun x => hi - d <= sT x) B ->
    msIncreasing (c :: l) ->
    (length l <= fuel)%nat ->
    ring (fst (seekLoop fuel hi b))
    = {| delta := d;
         buf := B ++ c :: List.filter (fun s => sT s <? hi) l |}
    /\ match List.find (fun s => hi <=? sT s) l with
       | Some s => snd (seekLoop fuel hi b) = typeOf s
                   /\ current (it (fst (seekLoop fuel hi b))) = Some s
       | None => snd (seekLoop fuel hi b) = ValNone
                 /\ Buffered_Err (fst (seekLoop fuel hi b)) = None
       end.
Proof.
  intros Hd Hhi.
  induction l as [|s r IH]; intros c B fuel b Hit Hvt Hring Hlo Hc HB Hinc Hfuel.
  - assert (Hadd : ring_add c (ring b) = {| delta := d; buf := B ++ [c] |}).
    { rewrite Hring. unfold ring_add. simpl. f_equal.
      rewrite sub_in_range
        by (unfold Int64.in_range, Int64.min_int64, Int64.max_int64; lia).
      apply dropOld_keep. apply Forall_app. split.
      - eapply Forall_impl; [exact HB|]. simpl. intros x Hx. lia.
      - constructor; [lia|constructor]. }
    assert (Hloop : exists b', seekLoop fuel hi b = (b', ValNone)
                      /\ ring b' = {| delta := d; buf := B ++ [c] |}
                      /\ Buffered_Err b' = None).
    { eexists. split.
      - destruct fuel; simpl;
          rewrite (Buffered_Next_step b c Hvt) by (rewrite Hit; reflexivity);
          rewrite Hit; simpl; reflexivity.
      - simpl. split; [exact Hadd|reflexivity]. }
    destruct Hloop as (b' & -> & Hr & He). simpl. auto.
  - inversion Hinc as [|? ? Hinc' Hall]; subst.
    assert (Hcs : sT c < sT s) by (inversion Hall; assumption).
    assert (Hadd : ring_add c (ring b) = {| delta := d; buf := B ++ [c] |}).
    { rewrite Hring. unfold ring_add. simpl. f_equal.
      rewrite sub_in_range
        by (unfold Int64.in_range, Int64.min_int64, Int64.max_int64; lia).
      apply dropOld_keep. apply Forall_app. split.
      - eapply Forall_impl; [exact HB|]. simpl. intros x Hx. lia.
      - constructor; [lia|constructor]. }
    assert (Hnext : Buffered_Next b
                    = ({| it := {| current := Some s; remaining := r;
                                   failure := None; exhausted := false |};
                          ring := {| delta := d; buf := B ++ [c] |};
                          bdelta := bdelta b; lastTime := sT s;
                          valueType := typeOf s |}, typeOf s)).
    { rewrite (Buffered_Next_step b c Hvt) by (rewrite Hit; reflexivity).
      rewrite Hit, Hadd. unfold Iterator_Next. simpl.
      rewrite bool_decide_eq_false_2 by apply typeOf_not_none. reflexivity. }
    destruct (Z.leb_spec hi (sT s)) as [Hge|Hlt].
    + assert (Hloop : seekLoop fuel hi b
                      = ({| it := {| current := Some s; remaining := r;
                                     failure := None; exhausted := false |};
                            ring := {| delta := d; buf := B ++ [c] |};
                            bdelta := bdelta b; lastTime := sT s;
                            valueType := typeOf s |}, typeOf s)).
      { destruct fuel; simpl; rewrite Hnext; simpl;
          (destruct (Z.leb_spec hi (sT s)); [|lia]);
          rewrite orb_true_r; reflexivity. }
      rewrite Hloop. simpl.
      destruct (Z.leb_spec hi (sT s)); [|lia].
      destruct (Z.ltb_spec (sT s) hi); [lia|].
      rewrite (filter_all_after hi r (msIncreasing_tail_from hi s r Hinc' Hge)).
      auto.
    + destruct fuel as [|fuel]; [simpl in Hfuel; lia|].
      simpl. rewrite Hnext. simpl.
      rewrite bool_decide_eq_false_2 by apply typeOf_not_none.
      destruct (Z.leb_spec hi (sT s)); [lia|]. simpl.
      destruct (Z.ltb_spec (sT s) hi); [|lia].
      match goal with
      | |- context [seekLoop fuel hi ?b1] =>
          destruct (IH s (B ++ [c]) fuel b1) as [Hr Hf];
            try reflexivity; try assumption
      end.
      * lia.
      * apply Forall_app. split; [exact HB|]. constructor; [lia|constructor].
      * simpl in Hfuel. lia.
      * rewrite Hr. rewrite <- app_assoc. simpl. split; [reflexivity|exact Hf].
Qed.


Lemma seekRest_spec (t : Z) (l : list Sample) :
  match seekRest t l with
  | (Some s, r) =>
      exists pre, l = pre ++ s :: r
                  /\ Forall (fun x => sT x < t) pre /\ t <= sT s
  | (None, _) => Forall (fun x => sT x < t) l
  end.
Proof.
  induction l as [|x l IH]; simpl; [constructor|].
  destruct (Z.leb_spec t (sT x)) as [Hle|Hlt].
  - exists []. simpl. auto.
  - destruct (seekRest t l) as [[s|] r].
    + destruct IH as (pre & -> & Hpre & Hs).
      exists (x :: pre). simpl. repeat split; [constructor|]; assumption.
    + constructor; assumption.
Qed.

(** [Seek] of the wrapped iterator, standing on the first sample. *)
Lemma Iterator_Seek_spec (t : Z) (s0 : Sample) (rest : list Sample) :
  let i := {| current := Some s0; remaining := rest; failure := None;
              exhausted := false |} in
  (exists pre s r,
      s0 :: rest = pre ++ s :: r
      /\ Forall (fun x => sT x < t) pre /\ t <= sT s
      /\ Iterator_Seek t i
         = ({| current := Some s; remaining := r; failure := None;
               exhausted := false |}, typeOf s))
  \/ (Forall (fun x => sT x < t) (s0 :: rest)
      /\ Iterator_Seek t i = (Iterator_stop i, ValNone)).
Proof.
  simpl. unfold Iterator_Seek. simpl.
  destruct (Z.leb_spec t (sT s0)) as [Hle|Hlt].
  - left. exists [], s0, rest. simpl. auto.
  - pose proof (seekRest_spec t rest) as Hrest.
    destruct (seekRest t rest) as [[s|] r].
    + destruct Hrest as (pre & -> & Hpre & Hs). left.
      exists (s0 :: pre), s, r. simpl.
      repeat split; [constructor|]; assumption.
    + right. split; [constructor; assumption|reflexivity].
Qed.

Lemma bufferedPart_skip (pre l : list Sample) (lo hi : Z) :
  Forall (fun x => sT x < lo) pre ->
  bufferedPart (pre ++ l) lo hi = bufferedPart l lo hi.
Proof.
  unfold bufferedPart. induction 1 as [|x pre Hx _ IH]; [reflexivity|].
  simpl. destruct (Z.leb_spec lo (sT x)); [lia|]. simpl. exact IH.
Qed.

Lemma soughtSample_skip (pre l : list Sample) (hi : Z) :
  Forall (fun x => sT x < hi) pre ->
  soughtSample (pre ++ l) hi = soughtSample l hi.
Proof.
  unfold soughtSample. induction 1 as [|x pre Hx _ IH]; [reflexivity|].
  simpl. destruct (Z.leb_spec hi (sT x)); [lia|]. exact IH.
Qed.

Lemma bufferedPart_from (l : list Sample) (lo hi : Z) :
  Forall (fun x => lo <= sT x) l ->
  bufferedPart l lo hi = List.filter (fun s => sT s <? hi) l.
Proof.
  unfold bufferedPart. induction 1 as [|x l Hx _ IH]; [reflexivity|].
  simpl. destruct (Z.leb_spec lo (sT x)); [|lia]. simpl. rewrite IH.
  reflexivity.
Qed.

(** [Seek(hi)] on the buffered iterator of a series that was never read:
    the ring holds the samples of the window before [hi], and the
    iterator stands on the first sample at or after [hi]. *)
Lemma Buffered_Seek_fresh (stream : list Sample) (hi d : Z) :
  0 <= d <= 2 ^ 61 -> - 2 ^ 61 <= hi <= 2 ^ 61 ->
  msIncreasing stream ->
  seekResult stream (hi - d) hi
    (fst (Buffered_Seek hi (NewBufferIterator (iteratorOver stream) d)))
    (snd (Buffered_Seek hi (NewBufferIterator (iteratorOver stream) d))).
Proof.
  intros Hd Hhi Hinc.
  assert (Hsub : Int64.sub hi d = hi - d).
  { apply sub_in_range.
    unfold Int64.in_range, Int64.min_int64, Int64.max_int64. lia. }
  destruct stream as [|s0 rest].
  - unfold Buffered_Seek, NewBufferIterator, seekResult. simpl.
    destruct (Z.leb_spec hi Int64.min_int64) as [Hle|_];
      [unfold Int64.min_int64 in Hle; lia|].
    simpl. auto.
  - unfold Buffered_Seek, NewBufferIterator, iteratorOver.
    cbn [Iterator_Next remaining failure it ring delta valueType lastTime
         bdelta].
    rewrite Hsub.
    rewrite bool_decide_eq_false_2 by apply typeOf_not_none.
    destruct (Z.ltb_spec Int64.min_int64 (hi - d)) as [_|Hbad];
      [|unfold Int64.min_int64 in Hbad; lia].
    cbn [negb andb].
    destruct (Iterator_Seek_spec (hi - d) s0 rest)
      as [(pre & s & r & Hsplit & Hpre & Hs & Hseek)|[Hall Hseek]];
      simpl in Hseek; rewrite Hseek; cbv beta iota.
    + rewrite bool_decide_eq_false_2 by apply typeOf_not_none.
      cbn [negb andb lastTime Iterator_AtT current ring_reset delta].
      assert (Hinc' : msIncreasing (s :: r)).
      { unfold msIncreasing in *. rewrite Hsplit in Hinc.
        eapply StronglySorted_app_1_r. exact Hinc. }
      assert (Hfrom : Forall (fun x => hi - d <= sT x) r).
      { apply (msIncreasing_tail_from (hi - d) s r Hinc' Hs). }
      unfold seekResult. rewrite Hsplit.
      rewrite bufferedPart_skip by exact Hpre.
      rewrite soughtSample_skip
        by (eapply Forall_impl; [exact Hpre|]; simpl; intros; lia).
      rewrite bufferedPart_from by (constructor; assumption).
      unfold soughtSample. simpl.
      destruct (Z.leb_spec hi (sT s)) as [Hge|Hlt].
      * simpl. destruct (Z.ltb_spec (sT s) hi); [lia|].
        rewrite (filter_all_after hi r
                   (msIncreasing_tail_from hi s r Hinc' Hge)).
        auto.
      * destruct (Z.ltb_spec (sT s) hi); [|lia].
        match goal with
        | |- context [seekLoop ?f hi ?b1] =>
            destruct (seekLoop_collect hi d Hd Hhi r s [] f b1)
              as [Hr Hf]; try reflexivity; try assumption
        end.
        -- constructor.
        -- unfold Buffered_Buffer. rewrite Hr. simpl.
           split; [reflexivity|exact Hf].
    + cbn [bool_decide decide_rel andb]. simpl.
      unfold seekResult.
      assert (Hb : bufferedPart (s0 :: rest) (hi - d) hi = []).
      { rewrite <- (app_nil_r (s0 :: rest)).
        rewrite bufferedPart_skip by exact Hall. reflexivity. }
      assert (Hf : soughtSample (s0 :: rest) hi = None).
      { rewrite <- (app_nil_r (s0 :: rest)).
        rewrite soughtSample_skip; [reflexivity|].
        eapply Forall_impl; [exact Hall|]. simpl. intros. lia. }
      rewrite Hb, Hf. auto.
Qed.


Import promql MatrixSelector.

Variable IsExtFunction : string -> bool.

(** The loop over the back-buffer for a plain range function. *)
Lemma bufferLoop_plain (mint : Z) (B : list Sample) (acc : list Point)
    (appended : bool) :
  Forall (fun s => mint <= sT s) B ->
  foldl (bufferTurn false mint) (acc, appended) B
  = (acc ++ flat_map samplePoints B, appended).
Proof.
  intros HB. revert acc.
  induction HB as [|s B Hs _ IH]; intros acc; simpl.
  - rewrite app_nil_r. reflexivity.
  - unfold samplePoints.
    destruct (Z.leb_spec mint (sT s)); [|lia].
    destruct (sValue s) as [v|h|h]; [destruct (IsStaleNaN v)|..];
      simpl; rewrite IH; rewrite <- ?app_assoc; reflexivity.
Qed.

Lemma appendSought_at (maxt : Z) (s : Sample) (b : BufferedSeriesIterator)
    (out : list Point) :
  current (it b) = Some s ->
  appendSought maxt (typeOf s) b out
  = out ++ (if sT s =? maxt then samplePoints s else []).
Proof.
  intros Hcur. unfold appendSought, typeOf, samplePoints, Buffered_At,
    Buffered_AtFloatHistogram.
  rewrite Hcur. destruct s as [t [v|h|h]]; simpl.
  - destruct (t =? maxt), (IsStaleNaN v); simpl;
      rewrite ?app_nil_r; reflexivity.
  - destruct (t =? maxt); rewrite ?app_nil_r; reflexivity.
  - destruct (t =? maxt); rewrite ?app_nil_r; reflexivity.
Qed.

(** The window splits into what [Seek] buffers and the sample it stands
    on. *)
Lemma window_split (stream : list Sample) (lo hi : Z) :
  lo <= hi -> msIncreasing stream ->
  List.filter (fun s => (lo <=? sT s) && (sT s <=? hi)) stream
  = bufferedPart stream lo hi
    ++ match soughtSample stream hi with
       | Some s => if sT s =? hi then [s] else []
       | None => []
       end.
Proof.
  intros Hle Hinc. unfold bufferedPart, soughtSample.
  induction Hinc as [|x l Hinc IH Hall]; [reflexivity|]. simpl.
  destruct (Z.leb_spec hi (sT x)) as [Hge|Hlt].
  - assert (Hafter : Forall (fun y => hi < sT y) l)
      by (eapply Forall_impl; [exact Hall|]; simpl; intros; lia).
    assert (H1 : List.filter (fun s => (lo <=? sT s) && (sT s <=? hi)) l = []).
    { clear IH Hinc Hall. induction Hafter as [|y l Hy _ IH]; [reflexivity|].
      simpl. destruct (Z.leb_spec (sT y) hi); [lia|].
      rewrite andb_false_r. exact IH. }
    assert (H2 : List.filter (fun s => (lo <=? sT s) && (sT s <? hi)) l = []).
    { clear IH Hinc Hall H1. induction Hafter as [|y l Hy _ IH]; [reflexivity|].
      simpl. destruct (Z.ltb_spec (sT y) hi); [lia|].
      rewrite andb_false_r. exact IH. }
    rewrite H1, H2.
    destruct (Z.ltb_spec (sT x) hi); [lia|]. rewrite andb_false_r. simpl.
    destruct (Z.leb_spec lo (sT x)); [|lia].
    destruct (Z.leb_spec (sT x) hi), (Z.eqb_spec (sT x) hi);
      try lia; reflexivity.
  - rewrite IH.
    destruct (Z.leb_spec (sT x) hi); [|lia].
    destruct (Z.ltb_spec (sT x) hi); [|lia].
    destruct (lo <=? sT x); reflexivity.
Qed.

(** On a series that was never read, [selectPoints] for a plain range
    function returns the window of the specification. *)
Lemma selectPoints_fresh_plain (stream : list Sample) (mint maxt : Z)
    (functionName : string) (extLookbackDelta : Z) :
  IsExtFunction functionName = false ->
  mint <= maxt -> - 2 ^ 61 <= maxt <= 2 ^ 61 -> maxt - mint <= 2 ^ 61 ->
  msIncreasing stream ->
  snd (selectPoints IsExtFunction
         (NewBufferIterator (iteratorOver stream) (maxt - mint))
         mint maxt [] functionName extLookbackDelta)
  = Ok (windowPoints stream mint maxt).
Proof.
  intros Hext Hle Hmaxt HR Hinc.
  pose proof (Buffered_Seek_fresh stream maxt (maxt - mint)
                ltac:(lia) Hmaxt Hinc) as [Hbuf Hsought].
  replace (maxt - (maxt - mint)) with mint in Hbuf by lia.
  unfold selectPoints. rewrite Hext. simpl.
  destruct (Buffered_Seek maxt
              (NewBufferIterator (iteratorOver stream) (maxt - mint)))
    as [it1 vt]. simpl in Hbuf, Hsought.
  rewrite Hbuf.
  rewrite bufferLoop_plain.
  2:{ unfold bufferedPart. apply Forall_forall. intros x Hx.
      apply list_elem_of_In, filter_In in Hx. destruct Hx as [_ Hx].
      apply andb_true_iff in Hx. destruct Hx as [Hx _].
      apply Z.leb_le. exact Hx. }
  simpl. unfold windowPoints. rewrite (window_split stream mint maxt Hle Hinc).
  rewrite flat_map_app.
  destruct (soughtSample stream maxt) as [s|].
  - destruct Hsought as [-> Hcur].
    rewrite (appendSought_at maxt s it1 _ Hcur).
    assert (Hty : exists vt', typeOf s = vt' /\ vt' <> ValNone)
      by (eexists; split; [reflexivity|apply typeOf_not_none]).
    destruct Hty as (vt' & Hty & Hne). rewrite Hty.
    destruct (Z.eqb_spec (sT s) maxt); simpl; rewrite ?app_nil_r;
      destruct vt'; try contradiction; reflexivity.
  - destruct Hsought as [-> Herr]. rewrite Herr. simpl.
    rewrite app_nil_r. reflexivity.
Qed.


Lemma floatPoints_app (l k : list Sample) :
  floatPoints (l ++ k) = floatPoints l ++ floatPoints k.
Proof. apply flat_map_app. Qed.

(** Filtering the float points by time is filtering the samples. *)
Lemma filter_floatPoints (f : Z -> bool) (l : list Sample) :
  List.filter (fun p => f (T p)) (floatPoints l)
  = floatPoints (List.filter (fun s => f (sT s)) l).
Proof.
  unfold floatPoints. induction l as [|s l IH]; [reflexivity|]. simpl.
  rewrite List.filter_app, IH.
  destruct (f (sT s)) eqn:Hf; simpl.
  - destruct (sValue s) as [v|h|h]; try reflexivity.
    destruct (IsStaleNaN v); [reflexivity|]. simpl. rewrite Hf. reflexivity.
  - destruct (sValue s) as [v|h|h]; try reflexivity.
    destruct (IsStaleNaN v); [reflexivity|]. simpl. rewrite Hf. reflexivity.
Qed.

Lemma floatPoints_before (t : Z) (l : list Sample) :
  Forall (fun x => sT x < t) l -> Forall (fun p => T p < t) (floatPoints l).
Proof.
  unfold floatPoints. induction 1 as [|s l Hs _ IH]; [constructor|]. simpl.
  apply Forall_app. split; [|exact IH].
  destruct (sValue s) as [v|h|h]; try constructor.
  destruct (IsStaleNaN v); constructor; [exact Hs|constructor].
Qed.

Lemma filter_all (f : Point -> bool) (l : list Point) :
  Forall (fun p => f p = true) l -> List.filter f l = l.
Proof.
  induction 1 as [|p l Hp _ IH]; [reflexivity|]. simpl. rewrite Hp, IH.
  reflexivity.
Qed.

Lemma filter_none (f : Point -> bool) (l : list Point) :
  Forall (fun p => f p = false) l -> List.filter f l = [].
Proof.
  induction 1 as [|p l Hp _ IH]; [reflexivity|]. simpl. rewrite Hp. exact IH.
Qed.

Lemma msIncreasing_snoc (l : list Sample) (s : Sample) :
  msIncreasing (l ++ [s]) ->
  msIncreasing l /\ Forall (fun x => sT x < sT s) l.
Proof.
  unfold msIncreasing. intros H. apply StronglySorted_app in H.
  destruct H as (Hlt & Hl & _). split; [exact Hl|].
  apply Forall_forall. intros x Hx. apply Hlt; [exact Hx|].
  apply list_elem_of_singleton. reflexivity.
Qed.

(** The loop over the back-buffer for an extended-range function, on
    float samples: the latest point at or before [mint], then the points
    after it. *)
Lemma bufferLoop_anchor (mint : Z) (B : list Sample) :
  floatOnly B -> msIncreasing B ->
  foldl (bufferTurn true mint) ([], false) B
  = (match last (List.filter (fun p => T p <=? mint) (floatPoints B)) with
     | Some a => [a]
     | None => []
     end ++ List.filter (fun p => mint <? T p) (floatPoints B),
     match floatPoints B with [] => false | _ => true end).
Proof.
  induction B as [|s l IH] using rev_ind; intros Hfloat Hinc; [reflexivity|].
  apply Forall_app in Hfloat. destruct Hfloat as [Hfl Hfs].
  inversion Hfs as [|? ? (v & Hv) _]; subst.
  destruct (msIncreasing_snoc l s Hinc) as [Hinc' Hbefore].
  rewrite foldl_snoc, (IH Hfl Hinc'). clear IH.
  rewrite floatPoints_app, !List.filter_app.
  set (p := {| T := sT s; V := v; H := None |}).
  assert (Hs : floatPoints [s] = if IsStaleNaN v then [] else [p]).
  { unfold floatPoints. simpl. rewrite Hv, app_nil_r. reflexivity. }
  rewrite Hs. unfold bufferTurn. rewrite Hv. fold p.
  destruct (IsStaleNaN v) eqn:Hstale.
  { simpl. rewrite !app_nil_r. reflexivity. }
  pose proof (floatPoints_before (sT s) l Hbefore) as Hpts.
  cbn [negb List.filter T p].
  destruct (Z.ltb_spec mint (sT s)) as [Hin|Hout].
  - destruct (Z.leb_spec (sT s) mint); [lia|]. cbn [orb].
    rewrite app_nil_r, app_assoc. f_equal.
    destruct (floatPoints l); reflexivity.
  - destruct (Z.leb_spec (sT s) mint); [|lia].
    assert (Hall : List.filter (fun q => T q <=? mint) (floatPoints l)
                   = floatPoints l).
    { apply filter_all. eapply Forall_impl; [exact Hpts|]. simpl.
      intros q Hq. apply Z.leb_le. lia. }
    assert (Hnone : List.filter (fun q => mint <? T q) (floatPoints l) = []).
    { apply filter_none. eapply Forall_impl; [exact Hpts|]. simpl.
      intros q Hq. apply Z.ltb_ge. lia. }
    rewrite Hall, Hnone, last_snoc. cbn [orb].
    destruct (floatPoints l) as [|q pts] eqn:Hl; [reflexivity|].
    destruct (last_is_Some (q :: pts)) as [_ Hlast].
    destruct (Hlast ltac:(discriminate)) as [a Ha]. rewrite Ha.
    reflexivity.
Qed.


Lemma floatOnly_filter (f : Sample -> bool) (l : list Sample) :
  floatOnly l -> floatOnly (List.filter f l).
Proof.
  unfold floatOnly. induction 1 as [|s l Hs _ IH]; [constructor|]. simpl.
  destruct (f s); [constructor|]; assumption.
Qed.

Lemma msIncreasing_filter (f : Sample -> bool) (l : list Sample) :
  msIncreasing l -> msIncreasing (List.filter f l).
Proof.
  unfold msIncreasing. induction 1 as [|s l Hl IH Hall]; [constructor|].
  simpl. destruct (f s); [|exact IH]. constructor; [exact IH|].
  apply Forall_forall. intros x Hx.
  apply list_elem_of_In, filter_In in Hx. destruct Hx as [Hx _].
  rewrite Forall_forall in Hall. apply Hall, list_elem_of_In, Hx.
Qed.

Lemma filter_filter_time (f g : Z -> bool) (l : list Sample) :
  List.filter (fun s => f (sT s)) (List.filter (fun s => g (sT s)) l)
  = List.filter (fun s => g (sT s) && f (sT s)) l.
Proof.
  induction l as [|s l IH]; [reflexivity|]. simpl.
  destruct (g (sT s)); simpl; [destruct (f (sT s))|]; rewrite IH; reflexivity.
Qed.

(** On a series of floats that was never read, [selectPoints] for an
    extended-range function returns the anchored window of the
    specification. *)
Lemma selectPoints_fresh_extended (stream : list Sample) (mint maxt : Z)
    (functionName : string) (extLookbackDelta : Z) :
  IsExtFunction functionName = true ->
  mint < maxt -> 0 <= extLookbackDelta ->
  - 2 ^ 61 <= maxt <= 2 ^ 61 -> maxt - mint + extLookbackDelta <= 2 ^ 61 ->
  floatOnly stream -> msIncreasing stream ->
  snd (selectPoints IsExtFunction
         (NewBufferIterator (iteratorOver stream)
            (maxt - mint + extLookbackDelta))
         mint maxt [] functionName extLookbackDelta)
  = Ok (anchoredWindow stream mint maxt extLookbackDelta).
Proof.
  intros Hext Hlt Hlb Hmaxt HR Hfloat Hinc.
  set (lo := mint - extLookbackDelta).
  pose proof (Buffered_Seek_fresh stream maxt (maxt - mint + extLookbackDelta)
                ltac:(lia) Hmaxt Hinc) as [Hbuf Hsought].
  replace (maxt - (maxt - mint + extLookbackDelta)) with lo in Hbuf
    by (unfold lo; lia).
  unfold selectPoints. rewrite Hext. simpl.
  destruct (Buffered_Seek maxt
              (NewBufferIterator (iteratorOver stream)
                 (maxt - mint + extLookbackDelta)))
    as [it1 vt]. simpl in Hbuf, Hsought.
  rewrite Hbuf.
  rewrite bufferLoop_anchor;
    [|apply floatOnly_filter, Hfloat|apply msIncreasing_filter, Hinc].
  (* the two parts of the buffer, as parts of the stream *)
  assert (Hanchor :
            List.filter (fun p => T p <=? mint)
              (floatPoints (bufferedPart stream lo maxt))
            = List.filter (fun p => (lo <=? T p) && (T p <=? mint))
                (floatPoints stream)).
  { rewrite (filter_floatPoints (fun t => t <=? mint)).
    rewrite (filter_floatPoints (fun t => (lo <=? t) && (t <=? mint))).
    f_equal. unfold bufferedPart.
    rewrite (filter_filter_time (fun t => t <=? mint)
               (fun t => (lo <=? t) && (t <? maxt))).
    apply filter_ext. intros s.
    destruct (Z.leb_spec lo (sT s)), (Z.ltb_spec (sT s) maxt),
      (Z.leb_spec (sT s) mint); simpl; try reflexivity; lia. }
  assert (Hrange :
            List.filter (fun p => (mint <? T p) && (T p <=? maxt))
              (floatPoints stream)
            = List.filter (fun p => mint <? T p)
                (floatPoints (bufferedPart stream lo maxt))
              ++ match soughtSample stream maxt with
                 | Some s => if sT s =? maxt then samplePoints s else []
                 | None => []
                 end).
  { rewrite (filter_floatPoints (fun t => (mint <? t) && (t <=? maxt))).
    rewrite (filter_floatPoints (fun t => mint <? t)).
    assert (Hsplit :
              List.filter (fun s => (mint <? sT s) && (sT s <=? maxt)) stream
              = List.filter (fun s => mint <? sT s)
                  (List.filter (fun s => (lo <=? sT s) && (sT s <=? maxt))
                     stream)).
    { rewrite (filter_filter_time (fun t => mint <? t)
                 (fun t => (lo <=? t) && (t <=? maxt))).
      apply filter_ext. intros s.
      destruct (Z.leb_spec lo (sT s)), (Z.leb_spec (sT s) maxt),
        (Z.ltb_spec mint (sT s));
        simpl; try reflexivity; unfold lo in *; lia. }
    rewrite Hsplit, (window_split stream lo maxt ltac:(unfold lo; lia) Hinc).
    rewrite List.filter_app, floatPoints_app. f_equal.
    destruct (soughtSample stream maxt) as [s|] eqn:Hs; [|reflexivity].
    destruct (Z.eqb_spec (sT s) maxt) as [Heq|Hne]; [|reflexivity].
    simpl. destruct (Z.ltb_spec mint (sT s)); [|lia].
    unfold soughtSample in Hs. apply find_some in Hs. destruct Hs as [Hin _].
    unfold floatOnly in Hfloat. rewrite Forall_forall in Hfloat.
    destruct (Hfloat s ltac:(apply list_elem_of_In, Hin)) as (v & Hv).
    unfold floatPoints, samplePoints. simpl. rewrite Hv, app_nil_r.
    reflexivity. }
  unfold anchoredWindow. fold lo. rewrite <- Hanchor, Hrange.
  assert (Hres :
            appendSought maxt vt it1
              (match last (List.filter (fun p => T p <=? mint)
                             (floatPoints (bufferedPart stream lo maxt))) with
               | Some a => [a]
               | None => []
               end
               ++ List.filter (fun p => mint <? T p)
                    (floatPoints (bufferedPart stream lo maxt)))
            = match last (List.filter (fun p => T p <=? mint)
                            (floatPoints (bufferedPart stream lo maxt))) with
              | Some a =>
                  a :: List.filter (fun p => mint <? T p)
                         (floatPoints (bufferedPart stream lo maxt))
                       ++ match soughtSample stream maxt with
                          | Some s =>
                              if sT s =? maxt then samplePoints s else []
                          | None => []
                          end
              | None =>
                  List.filter (fun p => mint <? T p)
                    (floatPoints (bufferedPart stream lo maxt))
                  ++ match soughtSample stream maxt with
                     | Some s => if sT s =? maxt then samplePoints s else []
                     | None => []
                     end
              end).
  { destruct (soughtSample stream maxt) as [s|].
    - destruct Hsought as [-> Hcur].
      rewrite (appendSought_at maxt s it1 _ Hcur).
      destruct (last _); simpl; rewrite <- ?app_assoc; reflexivity.
    - destruct Hsought as [-> _]. simpl. rewrite !app_nil_r.
      destruct (last _); reflexivity. }
  destruct (soughtSample stream maxt) as [s|].
  - destruct Hsought as [Hvt Hcur].
    assert (Hne : vt <> ValNone) by (rewrite Hvt; apply typeOf_not_none).
    rewrite <- Hres. destruct vt; try contradiction; reflexivity.
  - destruct Hsought as [-> Herr]. rewrite Herr, <- Hres. reflexivity.
Qed.

End FreshWindow.

(** ** Where the selectors depart from their specification *)

(** C1, on a series with samples at 99, 105, 110 and 111 ms and
    [xrate(...[10ms])], extended lookback 5 ms, step 2 ms. The step at
    110 selects 99, 105, 110. Given that output, the step at 112 selects
    99, 105, 111: the sample at 111 = last + 1 does not pass the test
    [t > mint] once [mint] is [last + 1], and overwrites the point at 110.
    A fresh evaluation of the window of 112 selects 99, 105, 110, 111.
    The range function sees the difference through [Next]. *)
Theorem C1_reuse_differs_from_fresh_evaluation :
  let first :=
    Scan.MatrixSelector.selectPoints Examples.isXFunction
      (Examples.bufferedOver Examples.denseStream 15) 100 110 []
      "xrate" 5 in
  let reused :=
    Scan.MatrixSelector.selectPoints Examples.isXFunction
      (Examples.iteratorAfter 2 first) 102 112 (Examples.pointsOf first)
      "xrate" 5 in
  let fresh :=
    Scan.MatrixSelector.selectPoints Examples.isXFunction
      (Examples.bufferedOver Examples.denseStream 15) 102 112 []
      "xrate" 5 in
  Examples.pointsOf first = map Examples.pointAt [99; 105; 110]
  /\ Examples.pointsOf reused = map Examples.pointAt [99; 105; 111]
  /\ Examples.pointsOf fresh = map Examples.pointAt [99; 105; 110; 111]
  /\ Examples.pointsOf reused <> Examples.pointsOf fresh
  /\ Examples.samplesOf
       (snd (Scan.MatrixSelector.Next Examples.isXFunction
               Examples.invalidSample Examples.live
               (Examples.xrateSelector 110)))
     = [(110, [3]); (112, [3])]
  /\ Examples.samplesOf
       (snd (Scan.MatrixSelector.Next Examples.isXFunction
               Examples.invalidSample Examples.live
               (Examples.xrateSelector 112)))
     = [(112, [4])].
Proof.
  vm_compute. repeat split; try reflexivity. discriminate.
Qed.

(** C5, on the same series and query: at the step at 112 the window is
    [102, 112] and the sample at 99 lies within the lookback of 102. The
    specification asks for the anchor 99 followed by 105, 110, 111;
    [selectPoints], given the output of the step at 110, returns 99, 105,
    111. On a series with samples at 5 and 60 ms (lookback 10 ms, step
    50 ms) the step at 60 returns the sample at 5 as anchor, although it
    is older than [minT - extLookbackDelta] = 40. *)
Theorem C5_anchored_window_lost_in_reuse :
  let first :=
    Scan.MatrixSelector.selectPoints Examples.isXFunction
      (Examples.bufferedOver Examples.denseStream 15) 100 110 []
      "xrate" 5 in
  let reused :=
    Scan.MatrixSelector.selectPoints Examples.isXFunction
      (Examples.iteratorAfter 2 first) 102 112 (Examples.pointsOf first)
      "xrate" 5 in
  let sparseFirst :=
    Scan.MatrixSelector.selectPoints Examples.isXFunction
      (Examples.bufferedOver Examples.sparseStream 20) 0 10 []
      "xrate" 10 in
  let sparseReused :=
    Scan.MatrixSelector.selectPoints Examples.isXFunction
      (Examples.iteratorAfter 10 sparseFirst) 50 60
      (Examples.pointsOf sparseFirst) "xrate" 10 in
  ScanSpec.anchoredWindow Examples.denseStream 102 112 5
    = map Examples.pointAt [99; 105; 110; 111]
  /\ Examples.pointsOf reused = map Examples.pointAt [99; 105; 111]
  /\ Examples.pointsOf reused
     <> ScanSpec.anchoredWindow Examples.denseStream 102 112 5
  /\ ScanSpec.anchoredWindow Examples.sparseStream 50 60 10
     = map Examples.pointAt [60]
  /\ Examples.pointsOf sparseReused = map Examples.pointAt [5; 60].
Proof.
  vm_compute. repeat split; try reflexivity. discriminate.
Qed.

(** C6, on a series with samples at 0, 60 and 120 ms, lookback 300 ms:
    after [selectPoint] was called for 0 and 15, the call for 30 returns
    the sample at 60, which lies after 30; the most recent sample at or
    before 30 is the one at 0. [Seek] moves on by one sample on every
    call, also when the sample it stands on is already at or after [ts],
    and that sample becomes [prev]. [Next] puts the value of the sample
    at 60 into the step vector of 30. *)
Theorem C6_selectPoint_returns_later_sample :
  let s0 := Examples.minuteScanner in
  let r1 := Scan.VectorSelector.selectPoint 0 300 s0 in
  let r2 := Scan.VectorSelector.selectPoint 15 300 (fst r1) in
  let r3 := Scan.VectorSelector.selectPoint 30 300 (fst r2) in
  snd r1 = (0, 1, true)
  /\ snd r2 = (0, 1, true)
  /\ snd r3 = (60, 2, true)
  /\ ScanSpec.lookbackSample 30 300
       (Scan.VectorSelector.ssSamples Examples.minuteSeries) = (0, 1, true)
  /\ snd r3 <> ScanSpec.lookbackSample 30 300
                 (Scan.VectorSelector.ssSamples Examples.minuteSeries)
  /\ Examples.samplesOf
       (snd (Scan.VectorSelector.Next Examples.live
               Examples.minuteVectorSelector))
     = [(0, [1]); (15, [1]); (30, [2])].
Proof.
  vm_compute. repeat split; try reflexivity. discriminate.
Qed.

Lemma C7_batch_timestamps_on_step_grid_witness :
  ScanSpec.vsOnGrid
    (fst (Scan.VectorSelector.Next Examples.live Examples.minuteVectorSelector))
  /\ forall batch,
       snd (Scan.VectorSelector.Next Examples.live
              Examples.minuteVectorSelector) = Scan.Ok (Some batch) ->
       exists k, 0 <= k
         /\ Scan.VectorSelector.currentStep Examples.minuteVectorSelector
            = Scan.VectorSelector.mint Examples.minuteVectorSelector
              + k * ScanSpec.stepOf
                      (Scan.VectorSelector.step Examples.minuteVectorSelector)
         /\ ScanSpec.onProgression
              (Scan.VectorSelector.currentStep Examples.minuteVectorSelector)
              (ScanSpec.stepOf
                 (Scan.VectorSelector.step Examples.minuteVectorSelector))
              (Scan.VectorSelector.maxt Examples.minuteVectorSelector)
              (Z.to_nat
                 (Scan.VectorSelector.stepsBatch Examples.minuteVectorSelector))
              batch.
Proof.
  apply (proj1 (proj2 (C7_batch_timestamps_on_step_grid Examples.isXFunction
                         Examples.invalidSample))
           Examples.live Examples.minuteVectorSelector).
  unfold ScanSpec.vsOnGrid, Int64.max_int64. simpl.
  repeat split; try lia. exists 0. split; lia.
Defined.

Lemma C9_no_stale_point_reaches_function_witness :
  ScanSpec.msStaleFree
    (fst (Scan.MatrixSelector.Next Examples.isXFunction Examples.invalidSample
            Examples.live (Examples.xrateSelector 110)))
  /\ ScanSpec.msStaleFree
       (fst (Scan.MatrixSelector.Series Examples.isXFunction Examples.live
               (Examples.xrateSelector 110))).
Proof.
  apply (proj1 (proj2 (proj2 (C9_no_stale_point_reaches_function
                                Examples.isXFunction Examples.invalidSample)))
           Examples.live (Examples.xrateSelector 110)).
  constructor.
Defined.

(** * Further properties of the code *)

(** ** The planner *)

Set Warnings "-clear-no-such-hyp".

Section PlannerRewrites.

Import LogicalPlan OperatorSpec.

Variable exprString : Expr -> string.

(** The loop of [distributeQuery] adds one remote execution for every
    engine it does not skip, in the order of the engines. *)
Lemma distributeLoop_engines (expr : Expr) (opts : Opts)
    (engines : list RemoteEngine) (acc : RemoteExecutions) :
  Step opts <> 0 ->
  exists added,
    distributeLoop exprString expr opts engines acc = Some (acc ++ added)
    /\ map Engine added
       = List.filter (fun e => negb (engineSkipped e opts)) engines
    /\ Forall (fun r => Query r = exprString expr
                        /\ (MinT (Engine r) <= Start opts ->
                            QueryRangeStart r = Start opts)
                        /\ (Start opts < MinT (Engine r) ->
                            calculateStepAlignedStart (Engine r) opts
                            = Some (QueryRangeStart r))) added.
Proof.
  intros Hstep. revert acc.
  induction engines as [|e rest IH]; intros acc; simpl.
  - exists []. rewrite app_nil_r. auto.
  - unfold engineSkipped at 1.
    destruct (MaxT e <? Int64.sub (Start opts) (LookbackDelta opts)); simpl.
    { apply IH. }
    destruct (End_ opts <? MinT e); simpl.
    { apply IH. }
    assert (Hstart : exists start,
               (if Start opts <? MinT e
                then calculateStepAlignedStart e opts
                else Some (Start opts)) = Some start
               /\ (MinT e <= Start opts -> start = Start opts)
               /\ (Start opts < MinT e ->
                   calculateStepAlignedStart e opts = Some start)).
    { destruct (Z.ltb_spec (Start opts) (MinT e)) as [Hlt|Hge].
      - unfold calculateStepAlignedStart, numSteps, Int64.quot.
        destruct (Z.eqb_spec (Step opts) 0); [contradiction|].
        simpl. eexists. split; [reflexivity|]. split; [lia|reflexivity].
      - eexists. split; [reflexivity|]. split; [reflexivity|lia]. }
    destruct Hstart as (start & -> & Hle & Hgt). simpl.
    destruct (IH (acc ++ [ {| Engine := e; Query := exprString expr;
                              QueryRangeStart := start |} ]))
      as (added & -> & Hmap & HF).
    eexists (_ :: added). rewrite <- app_assoc. split; [reflexivity|].
    simpl. split; [f_equal; exact Hmap|].
    constructor; [simpl; auto|exact HF].
Qed.

Lemma distributeQuery_engines
    (expr : Expr) (engines : list RemoteEngine) (opts : Opts) :
  Step opts <> 0 ->
  exists d,
    distributeQuery exprString expr engines opts = Some d
    /\ map Engine (Expressions d)
       = List.filter (fun e => negb (engineSkipped e opts)) engines
    /\ Forall (fun r => Query r = exprString expr
                        /\ (MinT (Engine r) <= Start opts ->
                            QueryRangeStart r = Start opts)
                        /\ (Start opts < MinT (Engine r) ->
                            calculateStepAlignedStart (Engine r) opts
                            = Some (QueryRangeStart r)))
              (Expressions d).
Proof.
  intros Hstep.
  destruct (distributeLoop_engines expr opts engines [] Hstep)
    as (added & Hloop & Hmap & HF).
  exists {| Expressions := added |}. unfold distributeQuery.
  rewrite Hloop. simpl. auto.
Qed.

(** X2. With a non-zero step [distributeQuery] returns one remote
    execution for every engine it does not skip, in the order of the
    engines. Each carries the text of the expression; its start is the
    query's [Start] when the engine has data from [Start] on, and the
    result of [calculateStepAlignedStart] otherwise. *)
Theorem X2_distributeQuery_one_execution_per_engine
    (expr : Expr) (engines : list RemoteEngine) (opts : Opts) :
  Step opts <> 0 ->
  exists d,
    distributeQuery exprString expr engines opts = Some d
    /\ map Engine (Expressions d)
       = List.filter (fun e => negb (engineSkipped e opts)) engines
    /\ Forall (fun r => Query r = exprString expr
                        /\ (MinT (Engine r) <= Start opts ->
                            QueryRangeStart r = Start opts)
                        /\ (Start opts < MinT (Engine r) ->
                            calculateStepAlignedStart (Engine r) opts
                            = Some (QueryRangeStart r)))
              (Expressions d).
Proof. apply distributeQuery_engines. Qed.

(** X4. The visit of [Optimize] at a node, with a non-zero step: a node
    that is not distributive is left as it is and stops the traversal;
    the traversal goes on only at a distributive node that is no
    aggregation and has a distributive parent, and leaves that node as
    it is; a distributive node that is no aggregation under a parent
    that is not distributive (or under no parent) is replaced by the
    [Deduplicate] of [distributeQuery]. *)
Theorem X4_visit_rewrites_only_where_it_stops
    (engines : list RemoteEngine) (opts : Opts) (parent : option Expr)
    (current : Expr) :
  Step opts <> 0 ->
  exists node stop,
    optimizeVisit exprString engines opts parent current = Some (node, stop)
    /\ (isDistributive (Some current) = false -> node = current /\ stop = true)
    /\ (stop = false ->
        node = current /\ isAggregate current = false
        /\ isDistributive (Some current) = true
        /\ isDistributive parent = true)
    /\ (isDistributive (Some current) = true -> isAggregate current = false ->
        isDistributive parent = false ->
        exists d, node = DeduplicateExpr d /\ stop = true
                  /\ distributeQuery exprString current engines opts = Some d).
Proof.
  intros Hstep. unfold optimizeVisit.
  destruct (isDistributive (Some current)) eqn:Hd; simpl.
  2:{ exists current, true. repeat split; try discriminate; auto. }
  destruct (distributeQuery_engines current engines opts Hstep)
    as (d & Hq & _).
  destruct current;
    try (destruct (isDistributive parent) eqn:Hp;
         [ eexists _, false; split; [reflexivity|];
           repeat split; try discriminate; auto
         | rewrite Hq; simpl; eexists _, true; split; [reflexivity|];
           repeat split; try discriminate; eauto ]).
  match goal with
  | |- context [distributeQuery exprString ?r engines opts] =>
      destruct (distributeQuery_engines r engines opts Hstep)
        as (d' & Hq' & _)
  end.
  rewrite Hq'. simpl. eexists _, true. split; [reflexivity|].
  repeat split; try discriminate.
Qed.


Lemma groupingFold_labels (without : bool) (lbls : Labels) (gs : gset string) :
  foldl (groupingStep without) gs lbls
  = if without then gs ∖ list_to_set (map Name lbls)
    else gs ∪ list_to_set (map Name lbls).
Proof.
  revert gs. induction lbls as [|l lbls IH]; intros gs; simpl.
  - destruct without; set_solver.
  - rewrite IH. unfold groupingStep. destruct without; set_solver.
Qed.

Lemma groupingFold_labelSets (without : bool) (sets : list Labels)
    (gs : gset string) :
  foldl (fun gs lbls => foldl (groupingStep without) gs lbls) gs sets
  = if without
    then gs ∖ list_to_set (flat_map (fun lbls => map Name lbls) sets)
    else gs ∪ list_to_set (flat_map (fun lbls => map Name lbls) sets).
Proof.
  revert gs. induction sets as [|lbls sets IH]; intros gs; simpl.
  - destruct without; set_solver.
  - rewrite IH, groupingFold_labels, list_to_set_app_L.
    destruct without; set_solver.
Qed.

Lemma remoteGroupingSet_spec (grouping : list string) (without : bool)
    (engines : list RemoteEngine) :
  remoteGroupingSet grouping without engines
  = if without
    then list_to_set grouping ∖ list_to_set (engineLabelNames engines)
    else list_to_set grouping ∪ list_to_set (engineLabelNames engines).
Proof.
  unfold remoteGroupingSet, engineLabelNames.
  generalize (list_to_set grouping : gset string) as gs.
  induction engines as [|e engines IH]; intros gs; simpl.
  - destruct without; set_solver.
  - rewrite IH, groupingFold_labelSets, list_to_set_app_L.
    destruct without; set_solver.
Qed.

#[local] Instance string_le_total : Total GoSort.string_le.
Proof. intros a b. apply String.leb_total. Qed.

(** X3. [newRemoteAggregation] copies the aggregation and replaces its
    grouping only: the new grouping is sorted, has no duplicates, and
    holds the grouping labels plus the names of all labels of the
    engines ([by]), or the grouping labels that no engine advertises
    ([without]). *)
Theorem X3_remote_grouping_sorted_union_or_difference
    (op : ItemType) (e : Expr) (param : option Expr)
    (grouping : list string) (without : bool) (pos : PositionRange)
    (engines : list RemoteEngine) :
  exists remoteGrouping,
    newRemoteAggregation op e param grouping without pos engines
    = AggregateExpr op e param remoteGrouping without pos
    /\ Sorted GoSort.string_le remoteGrouping
    /\ NoDup remoteGrouping
    /\ forall lbl,
         In lbl remoteGrouping
         <-> if without
             then In lbl grouping /\ ~ In lbl (engineLabelNames engines)
             else In lbl grouping \/ In lbl (engineLabelNames engines).
Proof.
  eexists. split; [reflexivity|].
  set (gs := remoteGroupingSet grouping without engines).
  pose proof (merge_sort_Permutation GoSort.string_le (elements gs)) as Hperm.
  split; [apply Sorted_merge_sort, string_le_total|]. split.
  - unfold GoSort.sortStrings. rewrite Hperm. apply NoDup_elements.
  - intros lbl. unfold GoSort.sortStrings.
    rewrite <- list_elem_of_In, Hperm, elem_of_elements.
    unfold gs. rewrite remoteGroupingSet_spec.
    destruct without.
    + rewrite elem_of_difference, !elem_of_list_to_set, !list_elem_of_In.
      reflexivity.
    + rewrite elem_of_union, !elem_of_list_to_set, !list_elem_of_In.
      reflexivity.
Qed.


(** X1. When an engine starts after the query's [Start] and not after
    its [End], [calculateStepAlignedStart] returns a time on the step
    grid of the query ([Start] plus a whole number of steps), at or
    after [Start] and less than one step away from the engine's [MinT];
    it is at or after [MinT] when [End] lies on the grid too. *)
Theorem X1_remote_start_on_the_query_grid (e : RemoteEngine) (opts : Opts) :
  0 < Step opts -> Step opts <= 2 ^ 61 ->
  Start opts < MinT e -> MinT e <= End_ opts ->
  - 2 ^ 61 <= Start opts -> End_ opts <= 2 ^ 61 ->
  exists remoteStart,
    calculateStepAlignedStart e opts = Some remoteStart
    /\ (remoteStart - Start opts) mod Step opts = 0
    /\ Start opts <= remoteStart
    /\ MinT e - Step opts < remoteStart < MinT e + Step opts
    /\ ((End_ opts - Start opts) mod Step opts = 0 -> MinT e <= remoteStart).
Proof. apply calculateStepAlignedStart_grid. Qed.

(** When the range is a single instant no engine that is kept starts
    after [Start], so the loop never calls [calculateStepAlignedStart]. *)
Lemma distributeLoop_instant (expr : Expr) (opts : Opts)
    (engines : list RemoteEngine) (acc : RemoteExecutions) :
  Start opts = End_ opts ->
  exists added,
    distributeLoop exprString expr opts engines acc = Some (acc ++ added)
    /\ map Engine added
       = List.filter (fun e => negb (engineSkipped e opts)) engines
    /\ Forall (fun r => Query r = exprString expr
                        /\ QueryRangeStart r = Start opts) added.
Proof.
  intros Hinstant. revert acc.
  induction engines as [|e rest IH]; intros acc; simpl.
  - exists []. rewrite app_nil_r. auto.
  - unfold engineSkipped at 1.
    destruct (MaxT e <? Int64.sub (Start opts) (LookbackDelta opts)); simpl.
    { apply IH. }
    destruct (Z.ltb_spec (End_ opts) (MinT e)) as [Hlt|Hge]; simpl.
    { apply IH. }
    destruct (Z.ltb_spec (Start opts) (MinT e)) as [Hlt|_]; [lia|]. simpl.
    destruct (IH (acc ++ [ {| Engine := e; Query := exprString expr;
                              QueryRangeStart := Start opts |} ]))
      as (added & -> & Hmap & HF).
    eexists (_ :: added). rewrite <- app_assoc. split; [reflexivity|].
    simpl. split; [f_equal; exact Hmap|].
    constructor; [simpl; auto|exact HF].
Qed.

(** X5. For a query of a single instant ([Start] = [End])
    [distributeQuery] never computes an aligned start, so it returns
    whatever the step is (also a zero step): one remote execution for
    every engine it does not skip, each starting at [Start]. *)
Theorem X5_instant_query_needs_no_step
    (expr : Expr) (engines : list RemoteEngine) (opts : Opts) :
  Start opts = End_ opts ->
  exists d,
    distributeQuery exprString expr engines opts = Some d
    /\ map Engine (Expressions d)
       = List.filter (fun e => negb (engineSkipped e opts)) engines
    /\ Forall (fun r => Query r = exprString expr
                        /\ QueryRangeStart r = Start opts) (Expressions d).
Proof.
  intros Hinstant.
  destruct (distributeLoop_instant expr opts engines [] Hinstant)
    as (added & Hloop & Hmap & HF).
  exists {| Expressions := added |}. unfold distributeQuery.
  rewrite Hloop. simpl. auto.
Qed.

(** With a zero step, an engine that is kept and starts after [Start]
    makes [numSteps] divide by zero. *)
Lemma distributeLoop_zero_step (expr : Expr) (opts : Opts) (e : RemoteEngine)
    (engines : list RemoteEngine) :
  Step opts = 0 -> In e engines -> engineSkipped e opts = false ->
  Start opts < MinT e ->
  forall acc, distributeLoop exprString expr opts engines acc = None.
Proof.
  intros Hstep Hin Hkept Hlate.
  induction engines as [|e' rest IH]; intros acc; [contradiction|].
  simpl. destruct Hin as [->|Hin].
  - unfold engineSkipped in Hkept. apply orb_false_iff in Hkept.
    destruct Hkept as [-> ->].
    destruct (Z.ltb_spec (Start opts) (MinT e)) as [_|Hge]; [|lia].
    unfold calculateStepAlignedStart, numSteps, Int64.quot.
    rewrite Hstep. reflexivity.
  - destruct (MaxT e' <? Int64.sub (Start opts) (LookbackDelta opts));
      [apply IH, Hin|].
    destruct (End_ opts <? MinT e'); [apply IH, Hin|].
    destruct (if Start opts <? MinT e'
              then calculateStepAlignedStart e' opts
              else Some (Start opts)) as [start|]; [|reflexivity].
    simpl. apply IH, Hin.
Qed.

(** X6. With a zero step, one engine that is not skipped and starts
    after [Start] is enough for [distributeQuery] to panic: [numSteps]
    divides by the step. *)
Theorem X6_zero_step_range_query_panics
    (expr : Expr) (engines : list RemoteEngine) (opts : Opts)
    (e : RemoteEngine) :
  Step opts = 0 -> In e engines -> engineSkipped e opts = false ->
  Start opts < MinT e ->
  distributeQuery exprString expr engines opts = None.
Proof.
  intros Hstep Hin Hkept Hlate. unfold distributeQuery.
  rewrite (distributeLoop_zero_step expr opts e engines) by assumption.
  reflexivity.
Qed.

End PlannerRewrites.

(** ** The vector selector *)

Section VectorBatches.

Import Scan ScanSpec OperatorSpec VectorSelector.

(** One turn of [Seek]: it takes the next remaining sample, whatever the
    sample it stands on. *)
Lemma SeekTurn_cases (ts : Z) (sc : vectorScanner) :
  labels (fst (SeekTurn ts sc)) = labels sc
  /\ signature (fst (SeekTurn ts sc)) = signature sc
  /\ match remaining (samples sc) with
     | [] => snd (SeekTurn ts sc) = Some false
             /\ remaining (samples (fst (SeekTurn ts sc))) = []
     | s :: r =>
         current (samples (fst (SeekTurn ts sc))) = Some s
         /\ remaining (samples (fst (SeekTurn ts sc))) = r
         /\ pastFirstIteration (fst (SeekTurn ts sc)) = true
         /\ snd (SeekTurn ts sc) = if ts <=? sT s then Some true else None
     end.
Proof.
  unfold SeekTurn, Iterator_Next.
  destruct (pastFirstIteration sc);
    [destruct (Iterator_At (samples sc)) as [t v]|]; simpl;
    (destruct (remaining (samples sc)) as [|s r] eqn:Hrem; simpl;
     [auto|destruct (ts <=? sT s); simpl; auto 10]).
Qed.

(** What [Seek] does: it moves to the first of the remaining samples at
    or after [ts], or uses the series up. *)
Lemma SeekLoop_post (ts : Z) :
  forall (fuel : nat) (sc : vectorScanner),
    (length (remaining (samples sc)) <= fuel)%nat ->
    labels (fst (SeekLoop fuel ts sc)) = labels sc
    /\ signature (fst (SeekLoop fuel ts sc)) = signature sc
    /\ if snd (SeekLoop fuel ts sc)
       then exists skipped s,
              remaining (samples sc)
              = skipped ++ s :: remaining (samples (fst (SeekLoop fuel ts sc)))
              /\ Forall (fun x => sT x < ts) skipped
              /\ current (samples (fst (SeekLoop fuel ts sc))) = Some s
              /\ ts <= sT s
       else remaining (samples (fst (SeekLoop fuel ts sc))) = []
            /\ Forall (fun x => sT x < ts) (remaining (samples sc)).
Proof.
  induction fuel as [|fuel IH]; intros sc Hfuel;
    pose proof (SeekTurn_cases ts sc) as (Hl & Hs & Hturn); simpl;
    destruct (SeekTurn ts sc) as [sc' [b|]] eqn:Heq; simpl in *.
  - destruct (remaining (samples sc)) as [|s r]; simpl in Hfuel; [|lia].
    destruct Hturn as [Hb Hr]. inversion Hb; subst. auto.
  - destruct (remaining (samples sc)) as [|s r]; simpl in Hfuel; [|lia].
    destruct Hturn as [Hb _]. discriminate.
  - destruct (remaining (samples sc)) as [|s r].
    + destruct Hturn as [Hb Hr]. inversion Hb; subst. auto.
    + destruct Hturn as (Hc & Hr & _ & Hb).
      destruct (Z.leb_spec ts (sT s)); inversion Hb; subst.
      repeat split; try assumption. exists [], s. simpl. auto.
  - destruct (remaining (samples sc)) as [|s r].
    + destruct Hturn as [Hb _]. discriminate.
    + destruct Hturn as (Hc & Hr & _ & Hb).
      destruct (Z.leb_spec ts (sT s)) as [|Hlt]; [discriminate|].
      simpl in Hfuel.
      destruct (IH sc' ltac:(rewrite Hr; lia)) as (Hl' & Hs' & Hpost).
      split; [congruence|]. split; [congruence|].
      destruct (snd (SeekLoop fuel ts sc')).
      * destruct Hpost as (skipped & s' & Hrem & Hsk & Hcur & Hts).
        exists (s :: skipped), s'. rewrite Hr in Hrem. rewrite Hrem.
        repeat split; try assumption. constructor; assumption.
      * destruct Hpost as [Hnil Hall]. split; [exact Hnil|].
        rewrite Hr in Hall. constructor; assumption.
Qed.

(** [selectPoint] keeps the identity of the scanner and never returns a
    stale value. *)
Lemma selectPoint_shape (ts lookbackDelta : Z) (sc : vectorScanner) :
  labels (fst (selectPoint ts lookbackDelta sc)) = labels sc
  /\ signature (fst (selectPoint ts lookbackDelta sc)) = signature sc
  /\ match snd (selectPoint ts lookbackDelta sc) with
     | (t, v, true) => IsStaleNaN v = false
     | (t, v, false) => t = 0 /\ v = 0
     end.
Proof.
  unfold selectPoint, Seek.
  destruct (SeekLoop_post ts (length (remaining (samples sc))) sc
              ltac:(lia)) as (Hl & Hs & _).
  destruct (SeekLoop (length (remaining (samples sc))) ts sc) as [sc' ok].
  simpl in Hl, Hs.
  destruct (if ok then At sc' else (0, 0)) as [t v].
  split; [|split].
  - repeat match goal with
           | |- context [if ?c then _ else _] => destruct c
           end; simpl; assumption.
  - repeat match goal with
           | |- context [if ?c then _ else _] => destruct c
           end; simpl; assumption.
  - destruct (negb ok || (ts <? t)); simpl.
    + destruct (negb (hasPrev sc')
                || (prevTime sc' <? Int64.sub ts lookbackDelta));
        simpl; [auto|].
      destruct (IsStaleNaN (prevValue sc')) eqn:Hst; simpl; auto.
    + destruct (IsStaleNaN v) eqn:Hst; simpl; auto.
Qed.


Lemma floatVectorOk_weaken (sigs more : list Z) (v : StepVector) :
  floatVectorOk sigs v -> floatVectorOk (sigs ++ more) v.
Proof.
  intros (Hlen & Hst & Hsub & Hh). repeat split; try assumption; try apply Hh.
  apply sublist_inserts_r, Hsub.
Qed.

Lemma floatVectorOk_append (sigs : list Z) (sig x : Z) (v : StepVector) :
  floatVectorOk sigs v -> IsStaleNaN x = false ->
  floatVectorOk (sigs ++ [sig]) (AppendSample sig x v).
Proof.
  intros (Hlen & Hst & Hsub & Hh1 & Hh2) Hx. unfold floatVectorOk. simpl.
  rewrite !length_app, Hlen. repeat split; try assumption.
  - apply Forall_app. split; [exact Hst|]. constructor; [exact Hx|constructor].
  - apply sublist_app; [exact Hsub|reflexivity].
Qed.

(** The inner loop for one scanner adds at most one sample of that
    scanner to every step vector. *)
Lemma vs_stepLoop_vectors (pool : VectorPool) (maxt step lookbackDelta : Z)
    (sigs : list Z) (sig : Z) :
  forall (n currStep : nat) (seriesTs : Z) (sc : vectorScanner)
         (vectors : list StepVector),
    signature sc = sig ->
    (forall i x, vectors !! i = Some x ->
                 ((i < currStep)%nat -> floatVectorOk (sigs ++ [sig]) x)
                 /\ ((currStep <= i)%nat -> floatVectorOk sigs x)) ->
    Forall (floatVectorOk (sigs ++ [sig]))
      (snd (stepLoop pool maxt step lookbackDelta n currStep seriesTs sc
              vectors))
    /\ signature (fst (stepLoop pool maxt step lookbackDelta n currStep
                         seriesTs sc vectors)) = sig
    /\ labels (fst (stepLoop pool maxt step lookbackDelta n currStep
                      seriesTs sc vectors)) = labels sc.
Proof.
  assert (Hdone : forall currStep sc vectors,
             signature sc = sig ->
             (forall i x, vectors !! i = Some x ->
                          ((i < currStep)%nat ->
                           floatVectorOk (sigs ++ [sig]) x)
                          /\ ((currStep <= i)%nat -> floatVectorOk sigs x)) ->
             Forall (floatVectorOk (sigs ++ [sig])) vectors
             /\ signature sc = sig /\ labels sc = labels sc).
  { intros currStep sc vectors Hsig Hinv. split; [|auto].
    apply Forall_lookup. intros i x Hx.
    destruct (Hinv i x Hx) as [Hlt Hge].
    destruct (Nat.lt_ge_cases i currStep); [auto|].
    apply floatVectorOk_weaken. auto. }
  induction n as [|n IH]; intros currStep seriesTs sc vectors Hsig Hinv;
    simpl; [apply (Hdone currStep); assumption|].
  destruct (seriesTs <=? maxt); [|apply (Hdone currStep); assumption].
  set (vectors1 := if (length vectors <=? currStep)%nat
                   then vectors ++ [GetStepVector pool seriesTs]
                   else vectors).
  assert (Hinv1 : forall i x, vectors1 !! i = Some x ->
                    ((i < currStep)%nat -> floatVectorOk (sigs ++ [sig]) x)
                    /\ ((currStep <= i)%nat -> floatVectorOk sigs x)).
  { unfold vectors1. destruct (length vectors <=? currStep)%nat; [|exact Hinv].
    intros i x Hx. apply lookup_app_Some in Hx.
    destruct Hx as [Hx|[_ Hx]]; [apply Hinv, Hx|].
    apply list_lookup_singleton_Some in Hx. destruct Hx as [_ <-].
    assert (Hnew : floatVectorOk sigs (GetStepVector pool seriesTs)).
    { unfold floatVectorOk. simpl.
      repeat split; try constructor. apply sublist_nil_l. }
    split; intros _; [apply floatVectorOk_weaken|]; exact Hnew. }
  pose proof (selectPoint_shape seriesTs lookbackDelta sc)
    as (Hl & Hs & Hval).
  destruct (selectPoint seriesTs lookbackDelta sc) as [sc' [[t v] ok]].
  simpl in Hl, Hs, Hval.
  destruct (IH (S currStep) (Int64.add seriesTs step) sc'
              (if ok then alter (AppendSample (signature sc') v) currStep
                            vectors1
               else vectors1) ltac:(congruence)) as (HF & Hsig' & Hlab').
  - intros i x Hx. destruct ok.
    + destruct (Nat.eq_dec i currStep) as [->|Hne].
      * rewrite list_lookup_alter_eq in Hx.
        destruct (vectors1 !! currStep) as [y|] eqn:Hy;
          simpl in Hx; [|discriminate].
        inversion Hx; subst x. split; [intros _|lia].
        rewrite Hs, Hsig. apply floatVectorOk_append; [|exact Hval].
        apply (Hinv1 currStep y Hy). lia.
      * rewrite list_lookup_alter_ne in Hx by congruence.
        destruct (Hinv1 i x Hx) as [Hlt Hge].
        split; intros Hi; [apply Hlt|apply Hge]; lia.
    + destruct (Hinv1 i x Hx) as [Hlt Hge].
      split; intros Hi; [|apply Hge; lia].
      destruct (Nat.eq_dec i currStep) as [->|Hne].
      * apply floatVectorOk_weaken, Hge. lia.
      * apply Hlt. lia.
  - split; [exact HF|]. split; [exact Hsig'|]. congruence.
Qed.

Lemma vs_scannerLoop_vectors (pool : VectorPool) (maxt step lookbackDelta : Z)
    (numSteps : nat) (ts : Z) :
  forall (scs : list vectorScanner) (sigs : list Z)
         (vectors : list StepVector),
    Forall (floatVectorOk sigs) vectors ->
    Forall (floatVectorOk (sigs ++ map signature scs))
      (snd (scannerLoop pool maxt step lookbackDelta numSteps ts scs vectors))
    /\ map signature
         (fst (scannerLoop pool maxt step lookbackDelta numSteps ts scs
                 vectors)) = map signature scs
    /\ map labels
         (fst (scannerLoop pool maxt step lookbackDelta numSteps ts scs
                 vectors)) = map labels scs.
Proof.
  induction scs as [|sc rest IH]; intros sigs vectors HF; simpl.
  - rewrite app_nil_r. auto.
  - destruct (vs_stepLoop_vectors pool maxt step lookbackDelta sigs
                (signature sc) numSteps O ts sc vectors eq_refl)
      as (HF1 & Hsig & Hlab).
    { intros i x Hx. split; [lia|]. intros _.
      rewrite Forall_lookup in HF. exact (HF i x Hx). }
    destruct (stepLoop pool maxt step lookbackDelta numSteps 0 ts sc vectors)
      as [sc' vectors'].
    simpl in HF1, Hsig, Hlab.
    destruct (IH (sigs ++ [signature sc]) vectors' HF1) as (HF2 & Hsigs & Hlabs).
    destruct (scannerLoop pool maxt step lookbackDelta numSteps ts rest
                vectors') as [rest' vectors''].
    simpl in *. rewrite <- app_assoc in HF2. simpl in HF2.
    split; [exact HF2|]. split; congruence.
Qed.

Lemma vs_loadSeries_aligned (ctx : Context) (o : vectorSelector) :
  vsAligned o -> vsAligned (fst (loadSeries ctx o)).
Proof.
  unfold vsAligned, loadSeries. intros H.
  destruct (once o); [exact H|].
  destruct (storage o ctx (shard o) (numShards o)) as [ss|e]; simpl;
    [|exact H].
  induction ss as [|s ss IH]; simpl; [reflexivity|]. f_equal. exact IH.
Qed.


(** X11. In a batch of the vector selector every step vector pairs
    sample IDs and values one to one, holds no stale marker and no
    histogram, and lists the series in the order of the scanners, each
    series at most once. *)
Theorem X11_vector_batch_pairs_fresh_samples_in_series_order
    (ctx : Context) (o : vectorSelector) :
  match snd (Next ctx o) with
  | Ok (Some batch) =>
      Forall (floatVectorOk (map signature (scanners (fst (Next ctx o)))))
        batch
  | _ => True
  end.
Proof.
  unfold Next. destruct (maxt o <? currentStep o); [exact I|].
  destruct (loadSeries ctx o) as [o1 [err|]]; [exact I|].
  match goal with
  | |- context [scannerLoop ?p ?m ?st ?lb ?n ?ts ?scs ?v] =>
      destruct (vs_scannerLoop_vectors p m st lb n ts scs [] v)
        as (HF & Hsig & _); [constructor|];
      destruct (scannerLoop p m st lb n ts scs v) as [scanners' vectors']
  end.
  simpl in *. rewrite Hsig. exact HF.
Qed.

(** X12. The series list of a vector selector is the list of the labels
    of its scanners: this holds for a new selector and is kept by
    [Next] and [Series]. Once the series are loaded, [Next] changes
    neither the list nor the signatures of the scanners and [Series]
    returns the list without changing the operator; the first load
    returns the labels of the series of the storage, in its order. *)
Theorem X12_vector_series_follow_the_scanners :
  (forall pool selector mint maxt step lookbackDelta stepsBatch shard numShards,
      vsAligned (NewVectorSelector pool selector mint maxt step lookbackDelta
                   stepsBatch shard numShards))
  /\ (forall ctx o,
         vsAligned o ->
         vsAligned (fst (Next ctx o)) /\ vsAligned (fst (Series ctx o)))
  /\ (forall ctx o,
         once o = true ->
         series (fst (Next ctx o)) = series o
         /\ map signature (scanners (fst (Next ctx o)))
            = map signature (scanners o)
         /\ Series ctx o = (o, Ok (series o)))
  /\ (forall ctx o ss,
         once o = false ->
         storage o ctx (shard o) (numShards o) = Ok ss ->
         snd (Series ctx o) = Ok (map ssLabels ss)
         /\ map signature (scanners (fst (Series ctx o)))
            = map ssSignature ss
         /\ once (fst (Series ctx o)) = true).
Proof.
  split; [|split; [|split]].
  - intros. reflexivity.
  - intros ctx o Ho. split.
    + unfold Next. destruct (maxt o <? currentStep o); [exact Ho|].
      pose proof (vs_loadSeries_aligned ctx o Ho) as H1.
      destruct (loadSeries ctx o) as [o1 [err|]]; [exact H1|].
      match goal with
      | |- context [scannerLoop ?p ?m ?st ?lb ?n ?ts ?scs ?v] =>
          destruct (vs_scannerLoop_vectors p m st lb n ts scs [] v)
            as (_ & _ & Hlab); [constructor|];
          destruct (scannerLoop p m st lb n ts scs v) as [scanners' vectors']
      end.
      unfold vsAligned in *. simpl in *. congruence.
    + unfold Series.
      pose proof (vs_loadSeries_aligned ctx o Ho) as H1.
      destruct (loadSeries ctx o) as [o1 [err|]]; exact H1.
  - intros ctx o Honce. unfold Series, Next, loadSeries. rewrite Honce.
    split; [|split; [|reflexivity]].
    + destruct (maxt o <? currentStep o); [reflexivity|].
      match goal with
      | |- context [scannerLoop ?p ?m ?st ?lb ?n ?ts ?scs ?v] =>
          destruct (scannerLoop p m st lb n ts scs v) as [scanners' vectors']
      end. reflexivity.
    + destruct (maxt o <? currentStep o); [reflexivity|].
      match goal with
      | |- context [scannerLoop ?p ?m ?st ?lb ?n ?ts ?scs ?v] =>
          destruct (vs_scannerLoop_vectors p m st lb n ts scs [] v)
            as (_ & Hsig & _); [constructor|];
          destruct (scannerLoop p m st lb n ts scs v) as [scanners' vectors']
      end. simpl in *. exact Hsig.
  - intros ctx o ss Honce Hload. unfold Series, loadSeries.
    rewrite Honce, Hload. simpl. split; [reflexivity|]. split; [|reflexivity].
    clear Hload. induction ss as [|s ss IH]; simpl; [reflexivity|]. f_equal. exact IH.
Qed.


(** X7. [Seek] keeps the labels and the signature of the scanner. When
    it returns true it has consumed at least one sample: the scanner
    stands on the first of the samples that remained which is at or
    after [ts], and the samples skipped are before [ts]. When it returns
    false every sample that remained was before [ts] and none is left.
    The sample the scanner stood on before the call is never examined. *)
Theorem X7_Seek_stops_at_first_later_sample_at_or_after
    (ts : Z) (sc : vectorScanner) :
  labels (fst (Seek ts sc)) = labels sc
  /\ signature (fst (Seek ts sc)) = signature sc
  /\ if snd (Seek ts sc)
     then exists skipped s,
            remaining (samples sc)
            = skipped ++ s :: remaining (samples (fst (Seek ts sc)))
            /\ Forall (fun x => sT x < ts) skipped
            /\ At (fst (Seek ts sc)) = (sT s, sV s)
            /\ ts <= sT s
     else remaining (samples (fst (Seek ts sc))) = []
          /\ Forall (fun x => sT x < ts) (remaining (samples sc)).
Proof.
  unfold Seek.
  destruct (SeekLoop_post ts (length (remaining (samples sc))) sc
              ltac:(lia)) as (Hl & Hs & Hpost).
  split; [exact Hl|]. split; [exact Hs|].
  destruct (snd (SeekLoop (length (remaining (samples sc))) ts sc));
    [|exact Hpost].
  destruct Hpost as (skipped & s & Hrem & Hsk & Hcur & Hts).
  exists skipped, s. repeat split; try assumption.
  unfold At, Iterator_At. rewrite Hcur. reflexivity.
Qed.

(** X10. [selectPoint] keeps the labels and the signature of the
    scanner; a sample it returns is no stale marker and is at [ts] or
    not older than [ts - lookbackDelta] (as the code computes it); when
    it returns no sample the result is (0, 0, false). *)
Theorem X10_selectPoint_returns_no_stale_and_no_old_sample
    (ts lookbackDelta : Z) (sc : vectorScanner) :
  labels (fst (selectPoint ts lookbackDelta sc)) = labels sc
  /\ signature (fst (selectPoint ts lookbackDelta sc)) = signature sc
  /\ match snd (selectPoint ts lookbackDelta sc) with
     | (t, v, true) =>
         IsStaleNaN v = false
         /\ (t = ts \/ Int64.sub ts lookbackDelta <= t)
     | (t, v, false) => t = 0 /\ v = 0
     end.
Proof.
  destruct (selectPoint_shape ts lookbackDelta sc) as (Hl & Hs & Hshape).
  split; [exact Hl|]. split; [exact Hs|]. clear Hl Hs.
  revert Hshape. unfold selectPoint, Seek.
  destruct (SeekLoop_post ts (length (remaining (samples sc))) sc
              ltac:(lia)) as (_ & _ & Hpost).
  destruct (SeekLoop (length (remaining (samples sc))) ts sc) as [sc' ok].
  simpl in Hpost.
  assert (Hat : ok = true -> ts <= fst (At sc')).
  { intros ->. destruct Hpost as (skipped & s & _ & _ & Hcur & Hts).
    unfold At, Iterator_At. rewrite Hcur. exact Hts. }
  clear Hpost.
  destruct ok; simpl in *.
  - destruct (At sc') as [t v]. simpl in Hat. specialize (Hat eq_refl).
    destruct (Z.ltb_spec ts t) as [Hlt|Hge]; simpl.
    + destruct (negb (hasPrev sc')
                || (prevTime sc' <? Int64.sub ts lookbackDelta)) eqn:Hold;
        simpl; [auto|].
      apply orb_false_iff in Hold. destruct Hold as [_ Hold].
      apply Z.ltb_ge in Hold.
      destruct (IsStaleNaN (prevValue sc')); simpl; auto.
    + destruct (IsStaleNaN v); simpl; [auto|]. intros Hst.
      split; [exact Hst|]. left. lia.
  - destruct (negb (hasPrev sc')
              || (prevTime sc' <? Int64.sub ts lookbackDelta)) eqn:Hold;
      simpl; [auto|].
    apply orb_false_iff in Hold. destruct Hold as [_ Hold].
    apply Z.ltb_ge in Hold.
    destruct (IsStaleNaN (prevValue sc')); simpl; auto.
Qed.

End VectorBatches.

Section VectorLookbackAgain.

Import Scan ScanSpec OperatorSpec VectorSelector.

(** Samples before the one the scanner stands on do not matter once
    that sample is at or before the step. *)
Lemma latest_app_before (ts : Z) (past l : list Sample) (c : Sample) :
  sT c <= ts ->
  latestAtOrBefore ts (past ++ c :: l) = latestAtOrBefore ts (c :: l).
Proof.
  intros Hc. unfold latestAtOrBefore. rewrite List.filter_app. simpl.
  destruct (Z.leb_spec (sT c) ts); [|lia].
  rewrite last_app, last_cons.
  destruct (last (List.filter (fun s => sT s <=? ts) l)); reflexivity.
Qed.

(** X8. On a scanner that has not been read, [selectPoint] returns the
    most recent sample at or before [ts], unless there is none, it is
    older than [ts - lookbackDelta] or it is a stale marker (then
    (0, 0, false)). *)
Theorem X8_selectPoint_on_unread_series_is_the_lookback_sample
    (ts lookbackDelta : Z) (ser : signedSeries) :
  0 <= lookbackDelta -> Int64.in_range (ts - lookbackDelta) ->
  vsIncreasing (ssSamples ser) ->
  snd (selectPoint ts lookbackDelta (newScanner ser))
  = lookbackSample ts lookbackDelta (ssSamples ser).
Proof. apply selectPoint_fresh. Qed.

(** X9. The same holds on a scanner that stands on a sample before
    [ts]: [selectPoint] returns the lookback sample of the whole series
    (the samples already passed, the current one and the remaining
    ones). *)
Theorem X9_selectPoint_behind_the_step_is_the_lookback_sample
    (ts lookbackDelta : Z) (past : list Sample) (c : Sample)
    (sc : vectorScanner) :
  current (samples sc) = Some c -> pastFirstIteration sc = true ->
  sT c < ts ->
  vsIncreasing (c :: remaining (samples sc)) ->
  0 <= lookbackDelta -> Int64.in_range (ts - lookbackDelta) ->
  snd (selectPoint ts lookbackDelta sc)
  = lookbackSample ts lookbackDelta (past ++ c :: remaining (samples sc)).
Proof.
  intros Hcur Hpast Hc Hinc Hlb Hrange.
  apply selectPoint_of_seekPost; [assumption..|].
  eapply seekPost_latest;
    [symmetry; apply latest_app_before; lia|].
  unfold Seek.
  apply (SeekLoop_running ts (remaining (samples sc)) c); auto.
Qed.

End VectorLookbackAgain.

Section VectorProgress.

Import Scan ScanSpec OperatorSpec VectorSelector.

Lemma vs_loadSeries_once (ctx : Context) (o : vectorSelector) :
  once (fst (loadSeries ctx o)) = true
  /\ (snd (loadSeries ctx o) <> None -> once o = false).
Proof.
  unfold loadSeries. destruct (once o) eqn:Ho; [simpl; split; congruence|].
  destruct (storage o ctx _ _); simpl; auto.
Qed.

(** A pull before the end either reports the load error of a first call
    or moves [currentStep] forward. *)
Lemma vs_Next_advance (ctx : Context) (o : vectorSelector) :
  vsOnGrid o -> 1 <= stepsBatch o -> currentStep o <= maxt o ->
  maxt (fst (Next ctx o)) = maxt o
  /\ stepsBatch (fst (Next ctx o)) = stepsBatch o
  /\ once (fst (Next ctx o)) = true
  /\ match snd (Next ctx o) with
     | Err _ => once o = false
                /\ currentStep (fst (Next ctx o)) = currentStep o
     | Ok (Some _) =>
         currentStep o + 1 <= currentStep (fst (Next ctx o))
     | Ok None => False
     end.
Proof.
  intros Hinv Hsb Hcur. unfold Next.
  destruct (Z.ltb_spec (maxt o) (currentStep o)) as [Hdone|_]; [lia|].
  pose proof (vs_loadSeries_times ctx o) as Hf.
  pose proof (vs_loadSeries_once ctx o) as [Hon Herr].
  destruct (loadSeries ctx o) as [o1 [err|]]; simpl in *.
  - destruct Hf as (Hm & HM & Hs & Hc & Hb).
    repeat split; try assumption. apply Herr. discriminate.
  - destruct Hf as (Hm & HM & Hs & Hc & Hb).
    rewrite Hm, HM, Hs, Hc, Hb.
    destruct Hinv as (Hlo & Hhi & Hstep & Hsb' & Hcs & k & Hk & Hgrid).
    pose proof (stepOf_pos _ (proj1 Hstep)) as Hpos.
    assert (Hmin : mint o <= currentStep o) by nia.
    destruct (totalSteps_reach (mint o) (maxt o) (step o) Hlo ltac:(lia) Hhi
                (proj1 Hstep)) as [Htot Hreach].
    set (totalSteps :=
           match Int64.quot (Int64.sub (maxt o) (mint o)) (step o)
           with Some q => Int64.add q 1 | None => 1 end) in *.
    change (if step o =? 0 then 1 else step o) with (stepOf (step o)).
    set (step' := stepOf (step o)) in *.
    set (numSteps := Z.min (stepsBatch o) totalSteps).
    assert (Hns : 1 <= numSteps <= totalSteps) by (unfold numSteps; lia).
    assert (Hstep' : step' <= 2 ^ 60).
    { unfold step', stepOf. destruct (Z.eqb_spec (step o) 0); lia. }
    match goal with
    | |- context [scannerLoop ?p ?m ?st ?lb ?n ?ts ?scs ?v] =>
        destruct (scannerLoop p m st lb n ts scs v) as [scanners' vectors']
    end.
    simpl.
    assert (Hmul : Int64.mul step' numSteps = step' * numSteps).
    { apply mul_in_range.
      unfold Int64.in_range, Int64.min_int64, Int64.max_int64. nia. }
    rewrite Hmul.
    assert (Hadd : Int64.add (currentStep o) (step' * numSteps)
                   = currentStep o + step' * numSteps).
    { apply add_in_range.
      unfold Int64.in_range, Int64.min_int64, Int64.max_int64. nia. }
    rewrite Hadd. repeat split; try assumption. nia.
Qed.

Lemma vs_Next_done (ctx : Context) (o : vectorSelector) :
  maxt o < currentStep o -> Next ctx o = (o, Ok None).
Proof.
  intros H. unfold Next. destruct (Z.ltb_spec (maxt o) (currentStep o)); [reflexivity|lia].
Qed.

Lemma vsNexts_done (ctxs : list Context) :
  forall o, maxt o < currentStep o -> vsNexts ctxs o = o.
Proof.
  induction ctxs as [|ctx ctxs IH]; intros o H; [reflexivity|].
  unfold vsNexts in *. simpl. rewrite vs_Next_done by exact H. simpl.
  apply IH, H.
Qed.

Lemma vsNexts_end (ctxs : list Context) :
  forall o,
    vsOnGrid o -> 1 <= stepsBatch o ->
    (vsPullsLeft o <= length ctxs)%nat ->
    maxt (vsNexts ctxs o) < currentStep (vsNexts ctxs o).
Proof.
  induction ctxs as [|ctx ctxs IH]; intros o Hinv Hsb Hleft.
  - unfold vsPullsLeft in Hleft. simpl in *. 
    destruct (once o); lia.
  - destruct (Z.lt_ge_cases (maxt o) (currentStep o)) as [Hdone|Hcur].
    { rewrite vsNexts_done by exact Hdone. exact Hdone. }
    change (vsNexts (ctx :: ctxs) o) with (vsNexts ctxs (fst (Next ctx o))).
    destruct (vs_Next_advance ctx o Hinv Hsb Hcur) as (HM & Hb & Hon & Hres).
    apply IH.
    + apply vs_Next_onGrid, Hinv.
    + lia.
    + unfold vsPullsLeft in *. rewrite HM, Hon.
      change (length (ctx :: ctxs)) with (S (length ctxs)) in Hleft.
      destruct (snd (Next ctx o)) as [[batch|]|err].
      * destruct (once o); lia.
      * contradiction.
      * destruct Hres as [Ho Hc]. rewrite Ho in Hleft. rewrite Hc. lia.
Qed.

(** X14. A vector selector on the grid whose batch size is at least one
    reaches end-of-stream: after [maxt - currentStep + 2] calls of
    [Next], whatever their contexts, every further call returns the
    nil batch and leaves the operator unchanged. *)
Theorem X14_vector_selector_reaches_end_of_stream
    (o : vectorSelector) (ctxs : list Context) (ctx : Context) :
  vsOnGrid o -> 1 <= stepsBatch o ->
  (Z.to_nat (maxt o - currentStep o + 2) <= length ctxs)%nat ->
  Next ctx (vsNexts ctxs o) = (vsNexts ctxs o, Ok None).
Proof.
  intros Hinv Hsb Hlen. apply vs_Next_done.
  destruct (Z.lt_ge_cases (maxt o) (currentStep o)) as [Hdone|Hcur].
  - rewrite vsNexts_done by exact Hdone. exact Hdone.
  - apply vsNexts_end; try assumption.
    unfold vsPullsLeft. destruct (once o); lia.
Qed.

(** X13. A pull of a vector selector on the grid whose batch size is at
    least one: a batch moves [currentStep] forward; end-of-stream
    leaves the operator as it is and happens only after [maxt]; an
    error is the load error of the first call, which marks the series
    as loaded and does not move [currentStep]. *)
Theorem X13_vector_batch_pull_moves_forward
    (ctx : Context) (o : vectorSelector) :
  vsOnGrid o -> 1 <= stepsBatch o ->
  match snd (Next ctx o) with
  | Ok (Some batch) => currentStep o < currentStep (fst (Next ctx o))
  | Ok None => fst (Next ctx o) = o /\ maxt o < currentStep o
  | Err _ => once o = false /\ once (fst (Next ctx o)) = true
             /\ currentStep (fst (Next ctx o)) = currentStep o
  end.
Proof.
  intros Hinv Hsb.
  destruct (Z.lt_ge_cases (maxt o) (currentStep o)) as [Hdone|Hcur].
  - rewrite vs_Next_done by exact Hdone. simpl. auto.
  - destruct (vs_Next_advance ctx o Hinv Hsb Hcur) as (HM & Hb & Hon & Hres).
    destruct (snd (Next ctx o)) as [[batch|]|err].
    + lia.
    + contradiction.
    + destruct Hres. auto.
Qed.

End VectorProgress.

(** ** The matrix selector *)

Section ReusedPoints.

Import Scan ScanSpec OperatorSpec Storage promql MatrixSelector.

Lemma countWhile_take {A : Type} (f : A -> bool) (l : list A) :
  Forall (fun x => f x = true) (take (countWhile f l) l)
  /\ (countWhile f l <= length l)%nat.
Proof.
  induction l as [|x l [IH1 IH2]]; simpl; [split; [constructor|lia]|].
  destruct (f x) eqn:Hx; simpl; [|split; [constructor|lia]].
  split; [constructor; assumption|lia].
Qed.

Lemma countWhile_drop_le (mint : Z) (out : list Point) :
  pointsOrdered out ->
  Forall (fun p => mint < T p) (drop (countWhile (fun p => T p <=? mint) out) out).
Proof.
  induction 1 as [|p out Hs IH Hall]; simpl; [constructor|].
  destruct (Z.leb_spec (T p) mint) as [Hle|Hgt]; simpl; [exact IH|].
  constructor; [exact Hgt|].
  eapply Forall_impl; [exact Hall|]. simpl. intros q Hq. lia.
Qed.

Lemma countWhile_drop_lt (mint : Z) (out : list Point) :
  pointsOrdered out ->
  drop (countWhile (fun p => T p <? mint) out) out
  = List.filter (fun p => mint <=? T p) out.
Proof.
  induction 1 as [|p out Hs IH Hall]; simpl; [reflexivity|].
  destruct (Z.ltb_spec (T p) mint) as [Hlt|Hge]; simpl.
  - destruct (Z.leb_spec mint (T p)); [lia|]. exact IH.
  - destruct (Z.leb_spec mint (T p)); [|lia]. f_equal.
    symmetry. apply filter_all. eapply Forall_impl; [exact Hall|].
    simpl. intros q Hq. apply Z.leb_le. lia.
Qed.

Lemma countWhile_split_le (mint : Z) (out : list Point) :
  pointsOrdered out ->
  take (countWhile (fun p => T p <=? mint) out) out
  = List.filter (fun p => T p <=? mint) out
  /\ drop (countWhile (fun p => T p <=? mint) out) out
     = List.filter (fun p => mint <? T p) out.
Proof.
  intros Hs.
  pose proof (countWhile_take (fun p => T p <=? mint) out) as [Htake _].
  pose proof (countWhile_drop_le mint out Hs) as Hdrop.
  set (d := countWhile (fun p => T p <=? mint) out) in *.
  rewrite <- (take_drop d out) at 2 4. rewrite !List.filter_app.
  rewrite (filter_all _ (take d out)) by exact Htake.
  rewrite (filter_none (fun p => T p <=? mint) (drop d out)).
  2:{ eapply Forall_impl; [exact Hdrop|]. simpl. intros q Hq.
      apply Z.leb_gt. exact Hq. }
  rewrite (filter_none (fun p => mint <? T p) (take d out)).
  2:{ eapply Forall_impl; [exact Htake|]. simpl. intros q Hq.
      apply Z.leb_le in Hq. apply Z.ltb_ge. exact Hq. }
  rewrite (filter_all (fun p => mint <? T p) (drop d out)).
  2:{ eapply Forall_impl; [exact Hdrop|]. simpl. intros q Hq.
      apply Z.ltb_lt. exact Hq. }
  rewrite app_nil_r. split; reflexivity.
Qed.

(** X15. What [selectPoints] keeps of the points of the previous step
    for a plain range function, when these are in time order: exactly
    the points at or after the new [mint]; samples are then added from
    one millisecond after the last kept point. *)
Theorem X15_plain_reuse_keeps_the_points_in_the_new_window
    (mint extMint : Z) (out : list Point) (lastPoint : Point) :
  pointsOrdered out -> last out = Some lastPoint ->
  drop (fst (reusePrefix false mint extMint out)) out
  = List.filter (fun p => mint <=? T p) out
  /\ snd (reusePrefix false mint extMint out) = Int64.add (T lastPoint) 1.
Proof.
  intros Hs Hlast. unfold reusePrefix. rewrite Hlast. simpl.
  split; [apply countWhile_drop_lt, Hs|reflexivity].
Qed.

(** X16. What [selectPoints] keeps of the points of the previous step
    for an extended-range function, when these are in time order: the
    points after the new [mint], preceded by the latest point at or
    before [mint] if that point is not older than [extMint]; samples
    are then added from one millisecond after the last point when that
    point is at or after [mint]. *)
Theorem X16_extended_reuse_keeps_one_point_at_or_before_the_window
    (mint extMint : Z) (out : list Point) (lastPoint : Point) :
  pointsOrdered out -> last out = Some lastPoint ->
  drop (fst (reusePrefix true mint extMint out)) out
  = match last (List.filter (fun p => T p <=? mint) out) with
    | Some a => if extMint <=? T a then [a] else []
    | None => []
    end ++ List.filter (fun p => mint <? T p) out
  /\ snd (reusePrefix true mint extMint out)
     = if mint <=? T lastPoint then Int64.add (T lastPoint) 1 else mint.
Proof.
  intros Hs Hlast. unfold reusePrefix. rewrite Hlast. simpl.
  split; [|reflexivity].
  destruct (countWhile_split_le mint out Hs) as [Htake Hdrop].
  pose proof (countWhile_take (fun p => T p <=? mint) out) as [_ Hlen].
  rewrite <- Htake, <- Hdrop.
  destruct (countWhile (fun p => T p <=? mint) out) as [|d] eqn:Hd.
  - reflexivity.
  - assert (Hlook : last (take (S d) out) = out !! d).
    { rewrite last_lookup, length_take, Nat.min_l by lia. simpl.
      apply lookup_take_lt. lia. }
    rewrite Hlook.
    destruct (out !! d) as [p|] eqn:Hp.
    + destruct (extMint <=? T p); [|reflexivity].
      simpl. apply drop_S. exact Hp.
    + apply lookup_ge_None in Hp. lia.
Qed.

End ReusedPoints.

Section UnreadWindows.

Import Scan ScanSpec OperatorSpec Storage promql MatrixSelector.

Variable IsExtFunction : string -> bool.

(** X17. On a series that has not been read, [selectPoints] for a plain
    range function returns the samples with timestamp in [mint, maxt],
    in order, stale floats left out. *)
Theorem X17_selectPoints_on_unread_series_is_the_window
    (stream : list Sample) (mint maxt : Z) (functionName : string)
    (extLookbackDelta : Z) :
  IsExtFunction functionName = false ->
  mint <= maxt -> - 2 ^ 61 <= maxt <= 2 ^ 61 -> maxt - mint <= 2 ^ 61 ->
  msIncreasing stream ->
  snd (selectPoints IsExtFunction
         (NewBufferIterator (iteratorOver stream) (maxt - mint))
         mint maxt [] functionName extLookbackDelta)
  = Ok (windowPoints stream mint maxt).
Proof. apply selectPoints_fresh_plain. Qed.

(** X18. On a series of floats that has not been read, [selectPoints]
    for an extended-range function returns the latest non-stale sample
    in [mint - extLookbackDelta, mint], if any, followed by the
    non-stale samples in (mint, maxt]. *)
Theorem X18_selectPoints_on_unread_floats_is_the_anchored_window
    (stream : list Sample) (mint maxt : Z) (functionName : string)
    (extLookbackDelta : Z) :
  IsExtFunction functionName = true ->
  mint < maxt -> 0 <= extLookbackDelta ->
  - 2 ^ 61 <= maxt <= 2 ^ 61 -> maxt - mint + extLookbackDelta <= 2 ^ 61 ->
  floatOnly stream -> msIncreasing stream ->
  snd (selectPoints IsExtFunction
         (NewBufferIterator (iteratorOver stream)
            (maxt - mint + extLookbackDelta))
         mint maxt [] functionName extLookbackDelta)
  = Ok (anchoredWindow stream mint maxt extLookbackDelta).
Proof. apply selectPoints_fresh_extended. Qed.

End UnreadWindows.

Section MatrixOperator.

Import Scan ScanSpec OperatorSpec Storage promql MatrixSelector.

Variable IsExtFunction : string -> bool.
Variable InvalidSample : Point.

#[local] Instance label_le_total :
  Total (fun a b : Label => GoSort.string_le (Name a) (Name b)).
Proof. intros a b. apply String.leb_total. Qed.

Lemma ms_stepLoop_identity (o : matrixSelector) :
  forall (n currStep : nat) (seriesTs : Z) (sc : matrixScanner)
         (vectors : list StepVector),
    labels (fst (stepLoop IsExtFunction InvalidSample o n currStep seriesTs
                   sc vectors)) = labels sc
    /\ signature (fst (stepLoop IsExtFunction InvalidSample o n currStep
                         seriesTs sc vectors)) = signature sc.
Proof.
  induction n as [|n IH]; intros currStep seriesTs sc vectors; simpl;
    [auto|].
  destruct (seriesTs <=? maxt o); [|auto].
  destruct (selectPoints _ _ _ _ _ _ _) as [[it' backing] [pts|err]];
    [|simpl; auto].
  destruct (Buffered_ReduceDelta _ it') as [it'' b].
  match goal with
  | |- context [stepLoop _ _ _ _ _ _ ?sc' ?v] =>
      destruct (IH (S currStep) (Int64.add seriesTs (step o)) sc' v)
        as [Hl Hs]
  end.
  rewrite Hl, Hs. simpl. auto.
Qed.

Lemma ms_scannerLoop_identity (o : matrixSelector) (ts : Z) :
  forall (scs : list matrixScanner) (vectors : list StepVector),
    map labels (fst (scannerLoop IsExtFunction InvalidSample o ts scs
                       vectors)) = map labels scs
    /\ map signature (fst (scannerLoop IsExtFunction InvalidSample o ts scs
                             vectors)) = map signature scs.
Proof.
  induction scs as [|sc rest IH]; intros vectors; simpl; [auto|].
  destruct (ms_stepLoop_identity o (Z.to_nat (numSteps o)) O ts sc vectors)
    as [Hl Hs].
  destruct (stepLoop _ _ _ _ _ _ _ _) as [sc' [vectors'|err]]; simpl in *.
  - destruct (IH vectors') as [Hl' Hs'].
    destruct (scannerLoop _ _ _ _ _ _) as [rest' r]. simpl in *.
    rewrite Hl, Hs, Hl', Hs'. auto.
  - rewrite Hl, Hs. auto.
Qed.

Lemma ms_loadSeries_aligned (ctx : Context) (o : matrixSelector) :
  msAligned o -> msAligned (fst (loadSeries IsExtFunction ctx o)).
Proof.
  intros Ho. unfold loadSeries. destruct (once o); [exact Ho|].
  destruct (storage o ctx _ _); simpl; [reflexivity|exact Ho].
Qed.

(** X19. The series list of a matrix selector is the list of the labels
    of its scanners: this holds for a new selector and is kept by
    [Next] and [Series]. Once the series are loaded, [Next] changes
    neither the list nor the signatures of the scanners, also when it
    returns an error, and [Series] returns the list without changing
    the operator. *)
Theorem X19_matrix_series_follow_the_scanners :
  (forall pool selector call funcName numSteps start end_ step selectRange
          offset shard numShard extLookbackDelta,
      msAligned (NewMatrixSelector pool selector call funcName numSteps start
                   end_ step selectRange offset shard numShard
                   extLookbackDelta))
  /\ (forall ctx o,
         msAligned o ->
         msAligned (fst (Next IsExtFunction InvalidSample ctx o))
         /\ msAligned (fst (Series IsExtFunction ctx o)))
  /\ (forall ctx o,
         once o = true ->
         series (fst (Next IsExtFunction InvalidSample ctx o)) = series o
         /\ map signature
              (scanners (fst (Next IsExtFunction InvalidSample ctx o)))
            = map signature (scanners o)
         /\ Series IsExtFunction ctx o = (o, Ok (series o))).
Proof.
  split; [|split].
  - intros. reflexivity.
  - intros ctx o Ho. split.
    + unfold Next. destruct (ctxErr ctx); [exact Ho|].
      destruct (maxt o <? currentStep o); [exact Ho|].
      pose proof (ms_loadSeries_aligned ctx o Ho) as H1.
      destruct (loadSeries IsExtFunction ctx o) as [o1 [err|]]; [exact H1|].
      destruct (ms_scannerLoop_identity o1 (currentStep o1) (scanners o1)
                  (GetVectorBatch (vectorPool o1))) as [Hl _].
      destruct (scannerLoop _ _ _ _ _ _) as [scs [vectors'|err]];
        unfold msAligned in *; simpl in *; congruence.
    + unfold Series.
      pose proof (ms_loadSeries_aligned ctx o Ho) as H1.
      destruct (loadSeries IsExtFunction ctx o) as [o1 [err|]]; exact H1.
  - intros ctx o Honce. unfold Series, Next, loadSeries. rewrite Honce.
    split; [|split; [|reflexivity]].
    + destruct (ctxErr ctx); [reflexivity|].
      destruct (maxt o <? currentStep o); [reflexivity|].
      destruct (scannerLoop _ _ _ _ _ _) as [scs [vectors'|err]];
        reflexivity.
    + destruct (ctxErr ctx); [reflexivity|].
      destruct (maxt o <? currentStep o); [reflexivity|].
      destruct (ms_scannerLoop_identity o (currentStep o) (scanners o)
                  (GetVectorBatch (vectorPool o))) as [_ Hs].
      destruct (scannerLoop _ _ _ _ _ _) as [scs [vectors'|err]];
        simpl in *; exact Hs.
Qed.

(** X20. The first load of a matrix selector builds one scanner for
    every series of the storage, in its order: with the signature of
    the series, with its labels sorted by name (without the metric
    name unless the function is [last_over_time]), with no previous
    points, and with a buffer of [selectRange], extended by
    [extLookbackDelta] for an extended-range function. [Series]
    returns the labels of these scanners. *)
Theorem X20_matrix_load_builds_one_sorted_scanner_per_series
    (ctx : Context) (o : matrixSelector) (ss : list SignedSeries) :
  once o = false ->
  storage o ctx (shard o) (numShards o) = Ok ss ->
  snd (Series IsExtFunction ctx o)
  = Ok (map labels (scanners (fst (Series IsExtFunction ctx o))))
  /\ once (fst (Series IsExtFunction ctx o)) = true
  /\ Forall2
       (fun s sc =>
          signature sc = ssSignature s
          /\ labelsSorted (labels sc)
          /\ labels sc
             ≡ₚ (if bool_decide (funcName o = "last_over_time"%string)
                 then ssLabels s else DropMetricName (ssLabels s))
          /\ previousPoints sc = []
          /\ bdelta (samples sc)
             = (if IsExtFunction (funcName o)
                then Int64.add (selectRange o) (extLookbackDelta o)
                else selectRange o)
          /\ Buffered_Buffer (samples sc) = [])
       ss (scanners (fst (Series IsExtFunction ctx o))).
Proof.
  intros Honce Hload. unfold Series, loadSeries. rewrite Honce, Hload.
  simpl. split; [reflexivity|]. split; [reflexivity|].
  clear Hload. induction ss as [|s ss IH]; simpl; constructor; [|exact IH].
  unfold newScanner, NewBufferIterator, Buffered_Buffer. simpl.
  destruct (Iterator_Next _) as [i' vt]. simpl. repeat split.
  - apply Sorted_merge_sort. apply label_le_total.
  - apply merge_sort_Permutation.
Qed.


(** X21. A pull of a matrix selector on the grid: a batch moves
    [currentStep] by [numSteps] whole steps (a zero step counts as
    one and is replaced by one); end-of-stream leaves the operator as
    it is; an error moves neither [currentStep] nor [step]. *)
Theorem X21_matrix_pull_moves_by_a_whole_batch
    (ctx : Context) (o : matrixSelector) :
  msOnGrid InvalidSample o ->
  match snd (Next IsExtFunction InvalidSample ctx o) with
  | Ok (Some batch) =>
      currentStep (fst (Next IsExtFunction InvalidSample ctx o))
      = currentStep o + stepOf (step o) * numSteps o
      /\ step (fst (Next IsExtFunction InvalidSample ctx o))
         = stepOf (step o)
      /\ ctxErr ctx = None /\ currentStep o <= maxt o
  | Ok None =>
      fst (Next IsExtFunction InvalidSample ctx o) = o
      /\ maxt o < currentStep o
  | Err _ =>
      currentStep (fst (Next IsExtFunction InvalidSample ctx o))
      = currentStep o
      /\ step (fst (Next IsExtFunction InvalidSample ctx o)) = step o
  end.
Proof.
  intros Hinv. unfold Next.
  destruct (ctxErr ctx) as [e|]; [simpl; auto|].
  destruct (Z.ltb_spec (maxt o) (currentStep o)) as [Hdone|Hcur];
    [simpl; auto|].
  pose proof (ms_loadSeries_times IsExtFunction ctx o) as Hf.
  destruct (loadSeries IsExtFunction ctx o) as [o1 [err|]]; simpl in Hf;
    destruct Hf as (Hm & HM & Hs & Hc & Hn & Hcall); [simpl; auto|].
  destruct (scannerLoop _ _ _ _ _ _) as [scs [vectors'|err]]; simpl;
    [|auto].
  change (if step o1 =? 0 then 1 else step o1) with (stepOf (step o1)).
  rewrite Hs, Hn, Hc.
  destruct Hinv as (Hlo & Hhi & Hstep & Hns & Hreach & Hcs & (k & Hk & Hgrid)
                    & Hans).
  pose proof (stepOf_pos _ (proj1 Hstep)) as Hpos.
  assert (Hmul : Int64.mul (stepOf (step o)) (numSteps o)
                 = stepOf (step o) * numSteps o).
  { apply mul_in_range.
    unfold Int64.in_range, Int64.min_int64, Int64.max_int64. nia. }
  rewrite Hmul. repeat split; try assumption.
  apply add_in_range.
  unfold Int64.in_range, Int64.min_int64, Int64.max_int64. nia.
Qed.

End MatrixOperator.

(** ** Batches of no step *)

Section EmptyBatches.

Import Scan ScanSpec OperatorSpec.

(** With a batch size of zero a pull takes no step. *)
Lemma vs_Next_zero_batch (ctx : Context) (o : VectorSelector.vectorSelector) :
  vsOnGrid o -> VectorSelector.stepsBatch o = 0 ->
  VectorSelector.currentStep o <= VectorSelector.maxt o ->
  VectorSelector.stepsBatch (fst (VectorSelector.Next ctx o)) = 0
  /\ VectorSelector.currentStep (fst (VectorSelector.Next ctx o))
     = VectorSelector.currentStep o
  /\ VectorSelector.maxt (fst (VectorSelector.Next ctx o))
     = VectorSelector.maxt o
  /\ snd (VectorSelector.Next ctx o) <> Ok None.
Proof.
  intros Hinv Hsb Hcur. unfold VectorSelector.Next.
  destruct (Z.ltb_spec (VectorSelector.maxt o) (VectorSelector.currentStep o))
    as [Hdone|_]; [lia|].
  pose proof (vs_loadSeries_times ctx o) as Hf.
  destruct (VectorSelector.loadSeries ctx o) as [o1 [err|]]; simpl in *;
    destruct Hf as (Hm & HM & Hs & Hc & Hb).
  - repeat split; try congruence.
  - rewrite Hm, HM, Hs, Hc, Hb.
    destruct Hinv as (Hlo & Hhi & Hstep & Hsb' & Hcs & k & Hk & Hgrid).
    pose proof (stepOf_pos _ (proj1 Hstep)) as Hpos.
    assert (Hmin : VectorSelector.mint o <= VectorSelector.currentStep o)
      by nia.
    destruct (totalSteps_reach (VectorSelector.mint o) (VectorSelector.maxt o)
                (VectorSelector.step o) Hlo ltac:(lia) Hhi (proj1 Hstep))
      as [Htot _].
    set (totalSteps :=
           match Int64.quot (Int64.sub (VectorSelector.maxt o)
                               (VectorSelector.mint o)) (VectorSelector.step o)
           with Some q => Int64.add q 1 | None => 1 end) in *.
    rewrite Hsb. replace (Z.min 0 totalSteps) with 0 by lia.
    destruct (VectorSelector.scannerLoop _ _ _ _ _ _ _ _)
      as [scanners' vectors'].
    simpl. repeat split; try congruence.
    unfold Int64.mul. rewrite Z.mul_0_r.
    rewrite (wrap_in_range 0)
      by (unfold Int64.in_range, Int64.min_int64, Int64.max_int64; lia).
    rewrite add_in_range; [lia|].
    unfold Int64.in_range, Int64.min_int64, Int64.max_int64. nia.
Qed.

(** X22. A vector selector whose batch size is zero never reaches
    end-of-stream: started at or before [maxt] on the grid, no sequence
    of [Next] calls moves [currentStep], and no call returns the nil
    batch. *)
Theorem X22_vector_selector_with_zero_batch_size_never_ends
    (o : VectorSelector.vectorSelector) (ctxs : list Context)
    (ctx : Context) :
  vsOnGrid o -> VectorSelector.stepsBatch o = 0 ->
  VectorSelector.currentStep o <= VectorSelector.maxt o ->
  VectorSelector.currentStep (vsNexts ctxs o) = VectorSelector.currentStep o
  /\ snd (VectorSelector.Next ctx (vsNexts ctxs o)) <> Ok None.
Proof.
  revert o. induction ctxs as [|c ctxs IH]; intros o Hinv Hsb Hcur.
  - split; [reflexivity|]. apply vs_Next_zero_batch; assumption.
  - change (vsNexts (c :: ctxs) o)
      with (vsNexts ctxs (fst (VectorSelector.Next c o))).
    destruct (vs_Next_zero_batch c o Hinv Hsb Hcur) as (Hb & Hc & HM & _).
    destruct (IH (fst (VectorSelector.Next c o))) as [IH1 IH2].
    + apply vs_Next_onGrid, Hinv.
    + exact Hb.
    + lia.
    + split; [congruence|exact IH2].
Qed.

Variable IsExtFunction : string -> bool.
Variable InvalidSample : promql.Point.

Lemma ms_Next_zero_batch (ctx : Context) (o : MatrixSelector.matrixSelector) :
  msOnGrid InvalidSample o -> MatrixSelector.numSteps o = 0 ->
  MatrixSelector.currentStep o <= MatrixSelector.maxt o ->
  MatrixSelector.numSteps
    (fst (MatrixSelector.Next IsExtFunction InvalidSample ctx o)) = 0
  /\ MatrixSelector.currentStep
       (fst (MatrixSelector.Next IsExtFunction InvalidSample ctx o))
     = MatrixSelector.currentStep o
  /\ MatrixSelector.maxt
       (fst (MatrixSelector.Next IsExtFunction InvalidSample ctx o))
     = MatrixSelector.maxt o
  /\ snd (MatrixSelector.Next IsExtFunction InvalidSample ctx o) <> Ok None.
Proof.
  intros Hinv Hns Hcur. unfold MatrixSelector.Next.
  destruct (ctxErr ctx) as [e|]; [simpl; repeat split; congruence|].
  destruct (Z.ltb_spec (MatrixSelector.maxt o) (MatrixSelector.currentStep o))
    as [Hdone|_]; [lia|].
  pose proof (ms_loadSeries_times IsExtFunction ctx o) as Hf.
  destruct (MatrixSelector.loadSeries IsExtFunction ctx o) as [o1 [err|]];
    simpl in Hf; destruct Hf as (Hm & HM & Hs & Hc & Hn & Hcall);
    [simpl; repeat split; congruence|].
  destruct (MatrixSelector.scannerLoop _ _ _ _ _ _) as [scs [vectors'|err]];
    simpl; [|repeat split; congruence].
  rewrite Hn, Hns, HM, Hc. repeat split; try congruence.
  destruct Hinv as (Hlo & Hhi & Hstep & _ & _ & Hcs & (k & Hk & Hgrid) & _).
  pose proof (stepOf_pos _ (proj1 Hstep)) as Hpos.
  unfold Int64.mul. rewrite Z.mul_0_r.
  rewrite (wrap_in_range 0)
    by (unfold Int64.in_range, Int64.min_int64, Int64.max_int64; lia).
  rewrite add_in_range; [lia|].
  unfold Int64.in_range, Int64.min_int64, Int64.max_int64. nia.
Qed.

(** X23. A matrix selector whose [numSteps] is zero never reaches
    end-of-stream: started at or before [maxt] on the grid, no sequence
    of [Next] calls moves [currentStep], and no call returns the nil
    batch. *)
Theorem X23_matrix_selector_with_zero_batch_size_never_ends
    (o : MatrixSelector.matrixSelector) (ctxs : list Context)
    (ctx : Context) :
  msOnGrid InvalidSample o -> MatrixSelector.numSteps o = 0 ->
  MatrixSelector.currentStep o <= MatrixSelector.maxt o ->
  MatrixSelector.currentStep (msNexts IsExtFunction InvalidSample ctxs o)
  = MatrixSelector.currentStep o
  /\ snd (MatrixSelector.Next IsExtFunction InvalidSample ctx
            (msNexts IsExtFunction InvalidSample ctxs o)) <> Ok None.
Proof.
  revert o. induction ctxs as [|c ctxs IH]; intros o Hinv Hns Hcur.
  - split; [reflexivity|]. apply ms_Next_zero_batch; assumption.
  - change (msNexts IsExtFunction InvalidSample (c :: ctxs) o)
      with (msNexts IsExtFunction InvalidSample ctxs
              (fst (MatrixSelector.Next IsExtFunction InvalidSample c o))).
    destruct (ms_Next_zero_batch c o Hinv Hns Hcur) as (Hb & Hc & HM & _).
    destruct (IH (fst (MatrixSelector.Next IsExtFunction InvalidSample c o)))
      as [IH1 IH2].
    + apply ms_Next_onGrid, Hinv.
    + exact Hb.
    + lia.
    + split; [congruence|exact IH2].
Qed.

End EmptyBatches.

(** ** The further properties at concrete inputs *)

Lemma X1_remote_start_on_the_query_grid_witness :
  exists remoteStart,
    LogicalPlan.calculateStepAlignedStart Examples.lateEngine
      Examples.offGridOpts = Some remoteStart
    /\ (remoteStart - LogicalPlan.Start Examples.offGridOpts)
       mod LogicalPlan.Step Examples.offGridOpts = 0
    /\ LogicalPlan.Start Examples.offGridOpts <= remoteStart
    /\ LogicalPlan.MinT Examples.lateEngine
       - LogicalPlan.Step Examples.offGridOpts < remoteStart
       < LogicalPlan.MinT Examples.lateEngine
         + LogicalPlan.Step Examples.offGridOpts
    /\ ((LogicalPlan.End_ Examples.offGridOpts
         - LogicalPlan.Start Examples.offGridOpts)
        mod LogicalPlan.Step Examples.offGridOpts = 0 ->
        LogicalPlan.MinT Examples.lateEngine <= remoteStart).
Proof.
  apply (X1_remote_start_on_the_query_grid Examples.lateEngine
           Examples.offGridOpts); simpl; lia.
Defined.

Lemma X2_distributeQuery_one_execution_per_engine_witness :
  exists d,
    LogicalPlan.distributeQuery Examples.printExpr
      (LogicalPlan.VectorSelector "up")
      [Examples.oldEngine; Examples.clusterEngine "a" 150 1000]
      Examples.laterOpts = Some d
    /\ map LogicalPlan.Engine (LogicalPlan.Expressions d)
       = List.filter
           (fun e => negb (LogicalPlan.engineSkipped e Examples.laterOpts))
           [Examples.oldEngine; Examples.clusterEngine "a" 150 1000]
    /\ Forall
         (fun r =>
            LogicalPlan.Query r
            = Examples.printExpr (LogicalPlan.VectorSelector "up")
            /\ (LogicalPlan.MinT (LogicalPlan.Engine r)
                <= LogicalPlan.Start Examples.laterOpts ->
                LogicalPlan.QueryRangeStart r
                = LogicalPlan.Start Examples.laterOpts)
            /\ (LogicalPlan.Start Examples.laterOpts
                < LogicalPlan.MinT (LogicalPlan.Engine r) ->
                LogicalPlan.calculateStepAlignedStart (LogicalPlan.Engine r)
                  Examples.laterOpts
                = Some (LogicalPlan.QueryRangeStart r)))
         (LogicalPlan.Expressions d).
Proof.
  apply (X2_distributeQuery_one_execution_per_engine Examples.printExpr
           (LogicalPlan.VectorSelector "up")
           [Examples.oldEngine; Examples.clusterEngine "a" 150 1000]
           Examples.laterOpts).
  simpl. lia.
Defined.

Lemma X4_visit_rewrites_only_where_it_stops_witness :
  exists node stop,
    LogicalPlan.optimizeVisit Examples.printExpr
      [Examples.clusterEngine "a" 0 1000] Examples.laterOpts None
      (LogicalPlan.VectorSelector "up") = Some (node, stop)
    /\ (LogicalPlan.isDistributive (Some (LogicalPlan.VectorSelector "up"))
        = false ->
        node = LogicalPlan.VectorSelector "up" /\ stop = true)
    /\ (stop = false ->
        node = LogicalPlan.VectorSelector "up"
        /\ LogicalPlan.isAggregate (LogicalPlan.VectorSelector "up") = false
        /\ LogicalPlan.isDistributive (Some (LogicalPlan.VectorSelector "up"))
           = true
        /\ LogicalPlan.isDistributive None = true)
    /\ (LogicalPlan.isDistributive (Some (LogicalPlan.VectorSelector "up"))
        = true ->
        LogicalPlan.isAggregate (LogicalPlan.VectorSelector "up") = false ->
        LogicalPlan.isDistributive None = false ->
        exists d, node = LogicalPlan.DeduplicateExpr d /\ stop = true
                  /\ LogicalPlan.distributeQuery Examples.printExpr
                       (LogicalPlan.VectorSelector "up")
                       [Examples.clusterEngine "a" 0 1000] Examples.laterOpts
                     = Some d).
Proof.
  apply (X4_visit_rewrites_only_where_it_stops Examples.printExpr
           [Examples.clusterEngine "a" 0 1000] Examples.laterOpts None
           (LogicalPlan.VectorSelector "up")).
  simpl. lia.
Defined.

Lemma X5_instant_query_needs_no_step_witness :
  exists d,
    LogicalPlan.distributeQuery Examples.printExpr
      (LogicalPlan.VectorSelector "up")
      [Examples.clusterEngine "a" 0 1000; Examples.clusterEngine "b" 150 1000]
      MoreExamples.instantOpts = Some d
    /\ map LogicalPlan.Engine (LogicalPlan.Expressions d)
       = List.filter
           (fun e =>
              negb (LogicalPlan.engineSkipped e MoreExamples.instantOpts))
           [Examples.clusterEngine "a" 0 1000;
            Examples.clusterEngine "b" 150 1000]
    /\ Forall
         (fun r =>
            LogicalPlan.Query r
            = Examples.printExpr (LogicalPlan.VectorSelector "up")
            /\ LogicalPlan.QueryRangeStart r
               = LogicalPlan.Start MoreExamples.instantOpts)
         (LogicalPlan.Expressions d).
Proof.
  apply (X5_instant_query_needs_no_step Examples.printExpr
           (LogicalPlan.VectorSelector "up")
           [Examples.clusterEngine "a" 0 1000;
            Examples.clusterEngine "b" 150 1000]
           MoreExamples.instantOpts).
  reflexivity.
Defined.

Lemma X6_zero_step_range_query_panics_witness :
  LogicalPlan.distributeQuery Examples.printExpr
    (LogicalPlan.VectorSelector "up") [Examples.lateEngine]
    MoreExamples.zeroStepOpts = None.
Proof.
  apply (X6_zero_step_range_query_panics Examples.printExpr
           (LogicalPlan.VectorSelector "up") [Examples.lateEngine]
           MoreExamples.zeroStepOpts Examples.lateEngine).
  - reflexivity.
  - left. reflexivity.
  - reflexivity.
  - simpl. lia.
Defined.

Lemma X8_selectPoint_on_unread_series_is_the_lookback_sample_witness :
  snd (Scan.VectorSelector.selectPoint 30 300
         (Scan.VectorSelector.newScanner Examples.minuteSeries))
  = ScanSpec.lookbackSample 30 300
      (Scan.VectorSelector.ssSamples Examples.minuteSeries).
Proof.
  apply (X8_selectPoint_on_unread_series_is_the_lookback_sample 30 300
           Examples.minuteSeries).
  - lia.
  - unfold Int64.in_range, Int64.min_int64, Int64.max_int64. lia.
  - unfold ScanSpec.vsIncreasing. simpl.
    repeat (constructor; simpl; try lia).
Defined.

Lemma X9_selectPoint_behind_the_step_is_the_lookback_sample_witness :
  snd (Scan.VectorSelector.selectPoint 30 300 MoreExamples.minuteScannerAtZero)
  = ScanSpec.lookbackSample 30 300
      ([] ++ {| Scan.VectorSelector.sT := 0; Scan.VectorSelector.sV := 1 |}
          :: Scan.VectorSelector.remaining
               (Scan.VectorSelector.samples MoreExamples.minuteScannerAtZero)).
Proof.
  apply (X9_selectPoint_behind_the_step_is_the_lookback_sample 30 300 []
           {| Scan.VectorSelector.sT := 0; Scan.VectorSelector.sV := 1 |}
           MoreExamples.minuteScannerAtZero).
  - reflexivity.
  - reflexivity.
  - simpl. lia.
  - unfold ScanSpec.vsIncreasing. simpl.
    repeat (constructor; simpl; try lia).
  - lia.
  - unfold Int64.in_range, Int64.min_int64, Int64.max_int64. lia.
Defined.

Lemma X12_vector_series_follow_the_scanners_witness :
  OperatorSpec.vsAligned
    (fst (Scan.VectorSelector.Next Examples.live
            Examples.minuteVectorSelector))
  /\ OperatorSpec.vsAligned
       (fst (Scan.VectorSelector.Series Examples.live
               Examples.minuteVectorSelector)).
Proof.
  apply (proj1 (proj2 X12_vector_series_follow_the_scanners)
           Examples.live Examples.minuteVectorSelector).
  reflexivity.
Defined.

Lemma X13_vector_batch_pull_moves_forward_witness :
  match snd (Scan.VectorSelector.Next Examples.live
               MoreExamples.shortVectorSelector) with
  | Scan.Ok (Some batch) =>
      Scan.VectorSelector.currentStep MoreExamples.shortVectorSelector
      < Scan.VectorSelector.currentStep
          (fst (Scan.VectorSelector.Next Examples.live
                  MoreExamples.shortVectorSelector))
  | Scan.Ok None =>
      fst (Scan.VectorSelector.Next Examples.live
             MoreExamples.shortVectorSelector)
      = MoreExamples.shortVectorSelector
      /\ Scan.VectorSelector.maxt MoreExamples.shortVectorSelector
         < Scan.VectorSelector.currentStep MoreExamples.shortVectorSelector
  | Scan.Err _ =>
      Scan.VectorSelector.once MoreExamples.shortVectorSelector = false
      /\ Scan.VectorSelector.once
           (fst (Scan.VectorSelector.Next Examples.live
                   MoreExamples.shortVectorSelector)) = true
      /\ Scan.VectorSelector.currentStep
           (fst (Scan.VectorSelector.Next Examples.live
                   MoreExamples.shortVectorSelector))
         = Scan.VectorSelector.currentStep MoreExamples.shortVectorSelector
  end.
Proof.
  apply (X13_vector_batch_pull_moves_forward Examples.live
           MoreExamples.shortVectorSelector).
  - unfold ScanSpec.vsOnGrid. simpl.
    repeat split; try lia. exists 0. split; lia.
  - simpl. lia.
Defined.

Lemma X14_vector_selector_reaches_end_of_stream_witness :
  Scan.VectorSelector.Next Examples.live
    (OperatorSpec.vsNexts (repeat Examples.live 5)
       MoreExamples.shortVectorSelector)
  = (OperatorSpec.vsNexts (repeat Examples.live 5)
       MoreExamples.shortVectorSelector, Scan.Ok None).
Proof.
  apply (X14_vector_selector_reaches_end_of_stream
           MoreExamples.shortVectorSelector (repeat Examples.live 5)
           Examples.live).
  - unfold ScanSpec.vsOnGrid. simpl.
    repeat split; try lia. exists 0. split; lia.
  - simpl. lia.
  - simpl. lia.
Defined.

Lemma X15_plain_reuse_keeps_the_points_in_the_new_window_witness :
  drop (fst (Scan.MatrixSelector.reusePrefix false 4 0
               MoreExamples.earlierPoints)) MoreExamples.earlierPoints
  = List.filter (fun p => 4 <=? Scan.promql.T p) MoreExamples.earlierPoints
  /\ snd (Scan.MatrixSelector.reusePrefix false 4 0
            MoreExamples.earlierPoints)
     = Int64.add (Scan.promql.T (Examples.pointAt 9)) 1.
Proof.
  apply (X15_plain_reuse_keeps_the_points_in_the_new_window 4 0
           MoreExamples.earlierPoints (Examples.pointAt 9)).
  - unfold OperatorSpec.pointsOrdered, MoreExamples.earlierPoints.
    repeat (constructor; simpl; try lia).
  - reflexivity.
Defined.

Lemma X16_extended_reuse_keeps_one_point_at_or_before_the_window_witness :
  drop (fst (Scan.MatrixSelector.reusePrefix true 6 2
               MoreExamples.earlierPoints)) MoreExamples.earlierPoints
  = match last (List.filter (fun p => Scan.promql.T p <=? 6)
                  MoreExamples.earlierPoints) with
    | Some a => if 2 <=? Scan.promql.T a then [a] else []
    | None => []
    end ++ List.filter (fun p => 6 <? Scan.promql.T p)
             MoreExamples.earlierPoints
  /\ snd (Scan.MatrixSelector.reusePrefix true 6 2
            MoreExamples.earlierPoints)
     = if 6 <=? Scan.promql.T (Examples.pointAt 9)
       then Int64.add (Scan.promql.T (Examples.pointAt 9)) 1 else 6.
Proof.
  apply (X16_extended_reuse_keeps_one_point_at_or_before_the_window 6 2
           MoreExamples.earlierPoints (Examples.pointAt 9)).
  - unfold OperatorSpec.pointsOrdered, MoreExamples.earlierPoints.
    repeat (constructor; simpl; try lia).
  - reflexivity.
Defined.

Lemma X19_matrix_series_follow_the_scanners_witness :
  OperatorSpec.msAligned
    (fst (Scan.MatrixSelector.Next Examples.isXFunction
            Examples.invalidSample Examples.live
            MoreExamples.rateSelector))
  /\ OperatorSpec.msAligned
       (fst (Scan.MatrixSelector.Series Examples.isXFunction Examples.live
               MoreExamples.rateSelector)).
Proof.
  apply (proj1 (proj2 (X19_matrix_series_follow_the_scanners
                         Examples.isXFunction Examples.invalidSample))
           Examples.live MoreExamples.rateSelector).
  reflexivity.
Defined.

Lemma X20_matrix_load_builds_one_sorted_scanner_per_series_witness :
  snd (Scan.MatrixSelector.Series Examples.isXFunction Examples.live
         MoreExamples.rateSelector)
  = Scan.Ok
      (map Scan.MatrixSelector.labels
         (Scan.MatrixSelector.scanners
            (fst (Scan.MatrixSelector.Series Examples.isXFunction
                    Examples.live MoreExamples.rateSelector))))
  /\ Scan.MatrixSelector.once
       (fst (Scan.MatrixSelector.Series Examples.isXFunction Examples.live
               MoreExamples.rateSelector)) = true
  /\ Forall2
       (fun s sc =>
          Scan.MatrixSelector.signature sc = Scan.MatrixSelector.ssSignature s
          /\ OperatorSpec.labelsSorted (Scan.MatrixSelector.labels sc)
          /\ Scan.MatrixSelector.labels sc
             ≡ₚ (if bool_decide
                      (Scan.MatrixSelector.funcName MoreExamples.rateSelector
                       = "last_over_time"%string)
                 then Scan.MatrixSelector.ssLabels s
                 else Scan.MatrixSelector.DropMetricName
                        (Scan.MatrixSelector.ssLabels s))
          /\ Scan.MatrixSelector.previousPoints sc = []
          /\ Scan.Storage.bdelta (Scan.MatrixSelector.samples sc)
             = (if Examples.isXFunction
                     (Scan.MatrixSelector.funcName MoreExamples.rateSelector)
                then Int64.add
                       (Scan.MatrixSelector.selectRange
                          MoreExamples.rateSelector)
                       (Scan.MatrixSelector.extLookbackDelta
                          MoreExamples.rateSelector)
                else Scan.MatrixSelector.selectRange
                       MoreExamples.rateSelector)
          /\ Scan.Storage.Buffered_Buffer (Scan.MatrixSelector.samples sc)
             = [])
       [ {| Scan.MatrixSelector.ssLabels := [];
            Scan.MatrixSelector.ssSignature := 7;
            Scan.MatrixSelector.ssStream := Examples.denseStream;
            Scan.MatrixSelector.ssFailure := None |} ]
       (Scan.MatrixSelector.scanners
          (fst (Scan.MatrixSelector.Series Examples.isXFunction Examples.live
                  MoreExamples.rateSelector))).
Proof.
  apply (X20_matrix_load_builds_one_sorted_scanner_per_series
           Examples.isXFunction Examples.live MoreExamples.rateSelector).
  - reflexivity.
  - reflexivity.
Defined.

Lemma X21_matrix_pull_moves_by_a_whole_batch_witness :
  match snd (Scan.MatrixSelector.Next Examples.isXFunction
               Examples.invalidSample Examples.live
               MoreExamples.rateSelector) with
  | Scan.Ok (Some batch) =>
      Scan.MatrixSelector.currentStep
        (fst (Scan.MatrixSelector.Next Examples.isXFunction
                Examples.invalidSample Examples.live
                MoreExamples.rateSelector))
      = Scan.MatrixSelector.currentStep MoreExamples.rateSelector
        + ScanSpec.stepOf (Scan.MatrixSelector.step MoreExamples.rateSelector)
          * Scan.MatrixSelector.numSteps MoreExamples.rateSelector
      /\ Scan.MatrixSelector.step
           (fst (Scan.MatrixSelector.Next Examples.isXFunction
                   Examples.invalidSample Examples.live
                   MoreExamples.rateSelector))
         = ScanSpec.stepOf (Scan.MatrixSelector.step MoreExamples.rateSelector)
      /\ Scan.ctxErr Examples.live = None
      /\ Scan.MatrixSelector.currentStep MoreExamples.rateSelector
         <= Scan.MatrixSelector.maxt MoreExamples.rateSelector
  | Scan.Ok None =>
      fst (Scan.MatrixSelector.Next Examples.isXFunction
             Examples.invalidSample Examples.live MoreExamples.rateSelector)
      = MoreExamples.rateSelector
      /\ Scan.MatrixSelector.maxt MoreExamples.rateSelector
         < Scan.MatrixSelector.currentStep MoreExamples.rateSelector
  | Scan.Err _ =>
      Scan.MatrixSelector.currentStep
        (fst (Scan.MatrixSelector.Next Examples.isXFunction
                Examples.invalidSample Examples.live
                MoreExamples.rateSelector))
      = Scan.MatrixSelector.currentStep MoreExamples.rateSelector
      /\ Scan.MatrixSelector.step
           (fst (Scan.MatrixSelector.Next Examples.isXFunction
                   Examples.invalidSample Examples.live
                   MoreExamples.rateSelector))
         = Scan.MatrixSelector.step MoreExamples.rateSelector
  end.
Proof.
  apply (X21_matrix_pull_moves_by_a_whole_batch Examples.isXFunction
           Examples.invalidSample Examples.live MoreExamples.rateSelector).
  unfold ScanSpec.msOnGrid, ScanSpec.stepOf. simpl.
  repeat (split; [lia|]).
  split; [exists 0; split; lia|].
  intros a _. reflexivity.
Defined.

Lemma X17_selectPoints_on_unread_series_is_the_window_witness :
  snd (Scan.MatrixSelector.selectPoints Examples.isXFunction
         (Scan.Storage.NewBufferIterator
            (ScanSpec.iteratorOver Examples.denseStream) (110 - 100))
         100 110 [] "rate" 5)
  = Scan.Ok (ScanSpec.windowPoints Examples.denseStream 100 110).
Proof.
  apply (X17_selectPoints_on_unread_series_is_the_window Examples.isXFunction
           Examples.denseStream 100 110 "rate" 5).
  - reflexivity.
  - lia.
  - lia.
  - lia.
  - unfold ScanSpec.msIncreasing, Examples.denseStream.
    repeat (constructor; simpl; try lia).
Defined.

Lemma X18_selectPoints_on_unread_floats_is_the_anchored_window_witness :
  snd (Scan.MatrixSelector.selectPoints Examples.isXFunction
         (Scan.Storage.NewBufferIterator
            (ScanSpec.iteratorOver Examples.denseStream) (110 - 100 + 5))
         100 110 [] "xrate" 5)
  = Scan.Ok (ScanSpec.anchoredWindow Examples.denseStream 100 110 5).
Proof.
  apply (X18_selectPoints_on_unread_floats_is_the_anchored_window
           Examples.isXFunction Examples.denseStream 100 110 "xrate" 5).
  - reflexivity.
  - lia.
  - lia.
  - lia.
  - lia.
  - unfold ScanSpec.floatOnly, Examples.denseStream, Examples.floatAt.
    repeat (constructor; [eexists; reflexivity|]). constructor.
  - unfold ScanSpec.msIncreasing, Examples.denseStream.
    repeat (constructor; simpl; try lia).
Defined.

Lemma X22_vector_selector_with_zero_batch_size_never_ends_witness :
  Scan.VectorSelector.currentStep
    (OperatorSpec.vsNexts [Examples.live; Examples.live]
       MoreExamples.stuckVectorSelector)
  = Scan.VectorSelector.currentStep MoreExamples.stuckVectorSelector
  /\ snd (Scan.VectorSelector.Next Examples.live
            (OperatorSpec.vsNexts [Examples.live; Examples.live]
               MoreExamples.stuckVectorSelector)) <> Scan.Ok None.
Proof.
  apply (X22_vector_selector_with_zero_batch_size_never_ends
           MoreExamples.stuckVectorSelector [Examples.live; Examples.live]
           Examples.live).
  - unfold ScanSpec.vsOnGrid. simpl.
    repeat split; try lia. exists 0. split; lia.
  - reflexivity.
  - simpl. lia.
Defined.

Lemma X23_matrix_selector_with_zero_batch_size_never_ends_witness :
  Scan.MatrixSelector.currentStep
    (OperatorSpec.msNexts Examples.isXFunction Examples.invalidSample
       [Examples.live; Examples.cancelled] MoreExamples.stuckMatrixSelector)
  = Scan.MatrixSelector.currentStep MoreExamples.stuckMatrixSelector
  /\ snd (Scan.MatrixSelector.Next Examples.isXFunction
            Examples.invalidSample Examples.live
            (OperatorSpec.msNexts Examples.isXFunction Examples.invalidSample
               [Examples.live; Examples.cancelled]
               MoreExamples.stuckMatrixSelector)) <> Scan.Ok None.
Proof.
  apply (X23_matrix_selector_with_zero_batch_size_never_ends
           Examples.isXFunction Examples.invalidSample
           MoreExamples.stuckMatrixSelector
           [Examples.live; Examples.cancelled] Examples.live).
  - unfold ScanSpec.msOnGrid, ScanSpec.stepOf. simpl.
    repeat (split; [lia|]).
    split; [exists 0; split; lia|].
    intros a _. reflexivity.
  - reflexivity.
  - simpl. lia.
Defined.
